(** * Street Protocol: physics world, vehicle suspension and camera probe

    A shallow embedding of the physics layer of the game:
    [PhysicsWorld] (fixed sub-step integrator, capsule and box resolution,
    ground raycast), the wheel dynamics of [Car.update] and the collision
    probe of [CameraRig.update].

    JavaScript numbers are modelled as real numbers: every arithmetic
    operation is exact, and NaN and the infinities do not occur except where
    a division by a zero ray direction produces them (there the extended
    values are written out, see [Ray.xnum]).  The orientation update of a
    body is modelled a second time with every operation rounded (module
    [Rounded]), for what the program does about the drift of the
    quaternion.

    Objects that the program mutates in place are threaded through as
    values; each body owns its own vectors (every constructor allocates
    them with [new THREE.Vector3]).  The body list of the world is modelled
    twice: as the list of the states of the bodies (module [Physics]), and
    as a list of references into a store of body objects (module [Heap]),
    where one object can stand in the list twice; the two agree when no
    object does (lemma [step_refines]). *)

From Stdlib Require Import Reals Lra Lia Psatz List Bool.
From Stdlib Require String Permutation.
Import ListNotations.

Open Scope R_scope.

(** ** Comparisons of numbers, as booleans *)

Definition Rltb (a b : R) : bool := if Rlt_dec a b then true else false.
Definition Rleb (a b : R) : bool := if Rle_dec a b then true else false.
Definition Rgtb (a b : R) : bool := Rltb b a.
Definition Rgeb (a b : R) : bool := Rleb b a.
Definition Reqb (a b : R) : bool := if Req_dec_T a b then true else false.

(** ** The part of three.js the program uses *)

Module Three.

Record Vector3 : Type := vec3 { vx : R; vy : R; vz : R }.

Record Quaternion : Type := quat { qx : R; qy : R; qz : R; qw : R }.

Record Box3 : Type := box3 { bmin : Vector3; bmax : Vector3 }.

(** *** Vector3 *)

Definition add (a b : Vector3) : Vector3 :=
  vec3 (vx a + vx b) (vy a + vy b) (vz a + vz b).

Definition sub (a b : Vector3) : Vector3 :=
  vec3 (vx a - vx b) (vy a - vy b) (vz a - vz b).

Definition multiplyScalar (a : Vector3) (s : R) : Vector3 :=
  vec3 (vx a * s) (vy a * s) (vz a * s).

Definition addScaledVector (a v : Vector3) (s : R) : Vector3 :=
  vec3 (vx a + vx v * s) (vy a + vy v * s) (vz a + vz v * s).

Definition dot (a b : Vector3) : R :=
  vx a * vx b + vy a * vy b + vz a * vz b.

Definition cross (a b : Vector3) : Vector3 :=
  vec3 (vy a * vz b - vz a * vy b)
       (vz a * vx b - vx a * vz b)
       (vx a * vy b - vy a * vx b).

Definition lengthSq (a : Vector3) : R :=
  vx a * vx a + vy a * vy a + vz a * vz a.

Definition length (a : Vector3) : R := sqrt (lengthSq a).

Definition divideScalar (a : Vector3) (s : R) : Vector3 :=
  multiplyScalar a (1 / s).

(** [normalize] divides by [length() || 1]. *)
Definition normalize (a : Vector3) : Vector3 :=
  divideScalar a (if Reqb (length a) 0 then 1 else length a).

Definition distanceTo (a b : Vector3) : R := length (sub a b).

Definition vmax (a b : Vector3) : Vector3 :=
  vec3 (Rmax (vx a) (vx b)) (Rmax (vy a) (vy b)) (Rmax (vz a) (vz b)).

Definition vmin (a b : Vector3) : Vector3 :=
  vec3 (Rmin (vx a) (vx b)) (Rmin (vy a) (vy b)) (Rmin (vz a) (vz b)).

Definition lerp (a b : Vector3) (alpha : R) : Vector3 :=
  vec3 (vx a + (vx b - vx a) * alpha)
       (vy a + (vy b - vy a) * alpha)
       (vz a + (vz b - vz a) * alpha).

(** *** Quaternion *)

Definition qidentity : Quaternion := quat 0 0 0 1.

Definition setFromAxisAngle (axis : Vector3) (angle : R) : Quaternion :=
  let halfAngle := angle / 2 in
  let s := sin halfAngle in
  quat (vx axis * s) (vy axis * s) (vz axis * s) (cos halfAngle).

(** [a.multiply(b)] is [multiplyQuaternions(a, b)]. *)
Definition qmultiply (a b : Quaternion) : Quaternion :=
  quat (qx a * qw b + qw a * qx b + qy a * qz b - qz a * qy b)
       (qy a * qw b + qw a * qy b + qz a * qx b - qx a * qz b)
       (qz a * qw b + qw a * qz b + qx a * qy b - qy a * qx b)
       (qw a * qw b - qx a * qx b - qy a * qy b - qz a * qz b).

Definition qlength (q : Quaternion) : R :=
  sqrt (qx q * qx q + qy q * qy q + qz q * qz q + qw q * qw q).

Definition qnormalize (q : Quaternion) : Quaternion :=
  let l := qlength q in
  if Reqb l 0 then quat 0 0 0 1
  else
    let l' := 1 / l in
    quat (qx q * l') (qy q * l') (qz q * l') (qw q * l').

(** [v.applyQuaternion(q)]: [v + q.w * t + cross(q.xyz, t)] with
    [t = 2 * cross(q.xyz, v)]. *)
Definition applyQuaternion (v : Vector3) (q : Quaternion) : Vector3 :=
  let tx := 2 * (qy q * vz v - qz q * vy v) in
  let ty := 2 * (qz q * vx v - qx q * vz v) in
  let tz := 2 * (qx q * vy v - qy q * vx v) in
  vec3 (vx v + qw q * tx + qy q * tz - qz q * ty)
       (vy v + qw q * ty + qz q * tx - qx q * tz)
       (vz v + qw q * tz + qx q * ty - qy q * tx).

(** *** Box3 *)

Definition setFromCenterAndSize (center size : Vector3) : Box3 :=
  let halfSize := multiplyScalar size 0.5 in
  box3 (sub center halfSize) (add center halfSize).

Definition isEmpty (b : Box3) : bool :=
  Rltb (vx (bmax b)) (vx (bmin b))
  || Rltb (vy (bmax b)) (vy (bmin b))
  || Rltb (vz (bmax b)) (vz (bmin b)).

Definition intersectsBox (a b : Box3) : bool :=
  Rgeb (vx (bmax b)) (vx (bmin a)) && Rleb (vx (bmin b)) (vx (bmax a))
  && Rgeb (vy (bmax b)) (vy (bmin a)) && Rleb (vy (bmin b)) (vy (bmax a))
  && Rgeb (vz (bmax b)) (vz (bmin a)) && Rleb (vz (bmin b)) (vz (bmax a)).

(** [a.intersect(b)].  The library then replaces an empty result by the
    canonical empty box; [getSize] and [getCenter] answer zero for every
    empty box, so the replacement is not observable through them. *)
Definition intersect (a b : Box3) : Box3 :=
  box3 (vmax (bmin a) (bmin b)) (vmin (bmax a) (bmax b)).

Definition getSize (b : Box3) : Vector3 :=
  if isEmpty b then vec3 0 0 0 else sub (bmax b) (bmin b).

Definition getCenter (b : Box3) : Vector3 :=
  if isEmpty b then vec3 0 0 0
  else multiplyScalar (add (bmin b) (bmax b)) 0.5.

Definition containsPoint (b : Box3) (p : Vector3) : bool :=
  Rleb (vx (bmin b)) (vx p) && Rleb (vx p) (vx (bmax b))
  && Rleb (vy (bmin b)) (vy p) && Rleb (vy p) (vy (bmax b))
  && Rleb (vz (bmin b)) (vz p) && Rleb (vz p) (vz (bmax b)).

End Three.

Import Three.

(** ** types.ts *)

Inductive ColliderType : Type := box | capsule.

Record Collider : Type := mkCollider {
  ctype : ColliderType;
  csize : Vector3
}.

Record PhysicsBody : Type := mkBody {
  mass : R;
  position : Vector3;
  velocity : Vector3;
  rotation : Quaternion;
  angularVelocity : Vector3;
  size : Vector3;
  collider : Collider;
  isGrounded : bool;
  isSleeping : bool
}.

(** In-place assignments to the fields of a body. *)

Definition set_position (b : PhysicsBody) (p : Vector3) : PhysicsBody :=
  mkBody (mass b) p (velocity b) (rotation b) (angularVelocity b)
         (size b) (collider b) (isGrounded b) (isSleeping b).

Definition set_velocity (b : PhysicsBody) (v : Vector3) : PhysicsBody :=
  mkBody (mass b) (position b) v (rotation b) (angularVelocity b)
         (size b) (collider b) (isGrounded b) (isSleeping b).

Definition set_rotation (b : PhysicsBody) (q : Quaternion) : PhysicsBody :=
  mkBody (mass b) (position b) (velocity b) q (angularVelocity b)
         (size b) (collider b) (isGrounded b) (isSleeping b).

Definition set_angularVelocity (b : PhysicsBody) (w : Vector3) : PhysicsBody :=
  mkBody (mass b) (position b) (velocity b) (rotation b) w
         (size b) (collider b) (isGrounded b) (isSleeping b).

Definition set_isGrounded (b : PhysicsBody) (g : bool) : PhysicsBody :=
  mkBody (mass b) (position b) (velocity b) (rotation b) (angularVelocity b)
         (size b) (collider b) g (isSleeping b).

Definition set_x (v : Vector3) (a : R) : Vector3 := vec3 a (vy v) (vz v).
Definition set_y (v : Vector3) (a : R) : Vector3 := vec3 (vx v) a (vz v).
Definition set_z (v : Vector3) (a : R) : Vector3 := vec3 (vx v) (vy v) a.

(** ** engine/Physics.ts *)

Module Physics.

Definition GRAVITY : Vector3 := vec3 0 (-25) 0.
Definition MAX_STEP_HEIGHT : R := 0.4.

Record PhysicsWorld : Type := mkWorld {
  bodies : list PhysicsBody;
  staticColliders : list Box3
}.

Definition addBody (w : PhysicsWorld) (b : PhysicsBody) : PhysicsWorld :=
  mkWorld (bodies w ++ [b]) (staticColliders w).

Definition addStaticCollider (w : PhysicsWorld) (bx : Box3) : PhysicsWorld :=
  mkWorld (bodies w) (staticColliders w ++ [bx]).

(** *** resolveCapsule *)

(** 1. Floor plane interaction. *)
Definition capsuleFloor (halfHeight : R) (b : PhysicsBody) : PhysicsBody :=
  if Rltb (vy (position b)) halfHeight then
    let b1 := set_position b (set_y (position b) halfHeight) in
    let b2 := if Rltb (vy (velocity b1)) 0
              then set_velocity b1 (set_y (velocity b1) 0) else b1 in
    set_isGrounded b2 true
  else b.

(** The wall branch of the loop body: hard push out of [staticBox]. *)
Definition capsuleWall (radius : R) (b : PhysicsBody) (staticBox : Box3)
  : PhysicsBody :=
  let pos := position b in
  let center := getCenter staticBox in
  let clampedX := Rmax (vx (bmin staticBox)) (Rmin (vx pos) (vx (bmax staticBox))) in
  let clampedZ := Rmax (vz (bmin staticBox)) (Rmin (vz pos) (vz (bmax staticBox))) in
  let diff := vec3 (vx pos - clampedX) 0 (vz pos - clampedZ) in
  let dist := length diff in
  if Rltb dist radius && Rgtb dist 0 then
    let overlap := radius - dist in
    let diff := normalize diff in
    let b1 := set_position b (addScaledVector (position b) diff overlap) in
    let vDot := dot (velocity b1) diff in
    if Rltb vDot 0
    then set_velocity b1 (addScaledVector (velocity b1) diff (- vDot))
    else b1
  else if Reqb dist 0 then
    let dx := if Rgtb (vx pos) (vx center)
              then vx (bmax staticBox) - (vx pos - radius)
              else (vx pos + radius) - vx (bmin staticBox) in
    let dz := if Rgtb (vz pos) (vz center)
              then vz (bmax staticBox) - (vz pos - radius)
              else (vz pos + radius) - vz (bmin staticBox) in
    if Rltb (Rabs dx) (Rabs dz) then
      set_position b
        (set_x pos (vx pos + (if Rgtb (vx pos) (vx center) then 1 else -1)
                             * Rabs (dx * 0.5)))
    else
      set_position b
        (set_z pos (vz pos + (if Rgtb (vz pos) (vz center) then 1 else -1)
                             * Rabs (dz * 0.5)))
  else b.

(** One iteration of the loop over the static colliders.  [playerBottom] and
    [capsuleBox] are computed once before the loop; the body's position is
    read live. *)
Definition capsuleVsStatic (radius halfHeight playerBottom : R)
    (capsuleBox : Box3) (b : PhysicsBody) (staticBox : Box3) : PhysicsBody :=
  if intersectsBox capsuleBox staticBox then
    let stepDiff := vy (bmax staticBox) - playerBottom in
    if Rgtb stepDiff 0 && Rleb stepDiff MAX_STEP_HEIGHT
       && Rltb (vy (bmax staticBox)) (vy (position b) + halfHeight - 0.1)
    then
      let b1 := set_position b
                  (set_y (position b)
                     (Rmax (vy (position b)) (vy (bmax staticBox) + halfHeight))) in
      let b2 := set_velocity b1 (set_y (velocity b1) 0) in
      set_isGrounded b2 true
    else capsuleWall radius b staticBox
  else b.

Definition resolveCapsule (statics : list Box3) (body : PhysicsBody)
  : PhysicsBody :=
  let radius := vx (csize (collider body)) in
  let height := vy (csize (collider body)) in
  let halfHeight := height / 2 in
  let b1 := capsuleFloor halfHeight body in
  let playerBottom := vy (position b1) - halfHeight in
  let capsuleBox :=
    setFromCenterAndSize (position b1) (vec3 (radius * 2) height (radius * 2)) in
  fold_left (capsuleVsStatic radius halfHeight playerBottom capsuleBox)
            statics b1.

(** *** resolveBox *)

Definition boxFloor (halfHeight : R) (b : PhysicsBody) : PhysicsBody :=
  if Rltb (vy (position b)) halfHeight then
    let b1 := set_position b (set_y (position b) halfHeight) in
    if Rltb (vy (velocity b1)) 0 then
      set_velocity b1
        (vec3 (vx (velocity b1) * 0.99)
              (vy (velocity b1) * -0.3)
              (vz (velocity b1) * 0.99))
    else b1
  else b.

Definition boxVsStatic (pBox : Box3) (b : PhysicsBody) (staticBox : Box3)
  : PhysicsBody :=
  if intersectsBox pBox staticBox then
    let sz := getSize (intersect pBox staticBox) in
    if Rltb (vx sz) (vz sz) && Rltb (vx sz) (vy sz) then
      let dir := if Rgtb (vx (position b)) (vx (bmax staticBox)) then 1 else -1 in
      let b1 := set_position b (set_x (position b) (vx (position b) + vx sz * dir)) in
      set_velocity b1 (set_x (velocity b1) (vx (velocity b1) * -0.5))
    else if Rltb (vz sz) (vx sz) && Rltb (vz sz) (vy sz) then
      let dir := if Rgtb (vz (position b)) (vz (bmax staticBox)) then 1 else -1 in
      let b1 := set_position b (set_z (position b) (vz (position b) + vz sz * dir)) in
      set_velocity b1 (set_z (velocity b1) (vz (velocity b1) * -0.5))
    else
      let dir := if Rgtb (vy (position b)) (vy (bmax staticBox)) then 1 else -1 in
      let b1 := set_position b (set_y (position b) (vy (position b) + vy sz * dir)) in
      set_velocity b1 (set_y (velocity b1) 0)
  else b.

Definition resolveBox (statics : list Box3) (body : PhysicsBody)
  : PhysicsBody :=
  let halfHeight := vy (csize (collider body)) in
  let b1 := boxFloor halfHeight body in
  let pBox := setFromCenterAndSize (position b1) (size b1) in
  fold_left (boxVsStatic pBox) statics b1.

(** *** simulate *)

(** Forces, damping and integration of position and rotation. *)
Definition integrate (dt : R) (body : PhysicsBody) : PhysicsBody :=
  let b1 := set_velocity body (addScaledVector (velocity body) GRAVITY dt) in
  let damping := if isGrounded b1 then 0.05 else 0.01 in
  let b2 := set_velocity b1 (multiplyScalar (velocity b1) (1.0 - damping)) in
  let b3 := set_angularVelocity b2
              (multiplyScalar (angularVelocity b2) (1.0 - 2.0 * dt)) in
  let b4 := set_position b3 (addScaledVector (position b3) (velocity b3) dt) in
  let angle := length (angularVelocity b4) * dt in
  if Rgtb angle 0.0001 then
    let axis := normalize (angularVelocity b4) in
    let q := setFromAxisAngle axis angle in
    set_rotation b4 (qnormalize (qmultiply (rotation b4) q))
  else b4.

(** Collision resolution: the grounded flag is cleared, then the resolver
    for the collider type runs. *)
Definition resolve (statics : list Box3) (body : PhysicsBody) : PhysicsBody :=
  let b1 := set_isGrounded body false in
  match ctype (collider b1) with
  | capsule => resolveCapsule statics b1
  | box => resolveBox statics b1
  end.

(** The body of the loop over [this.bodies]. *)
Definition simulateBody (dt : R) (statics : list Box3) (body : PhysicsBody)
  : PhysicsBody :=
  if Reqb (mass body) 0 then body
  else if Rltb (vy (position body)) (-20) then
    set_velocity (set_position body (vec3 0 10 0)) (vec3 0 0 0)
  else resolve statics (integrate dt body).

Definition simulate (dt : R) (w : PhysicsWorld) : PhysicsWorld :=
  mkWorld (map (simulateBody dt (staticColliders w)) (bodies w))
          (staticColliders w).

Fixpoint repeatSimulate (n : nat) (dt : R) (w : PhysicsWorld) : PhysicsWorld :=
  match n with
  | O => w
  | S k => repeatSimulate k dt (simulate dt w)
  end.

Definition step (dt : R) (w : PhysicsWorld) : PhysicsWorld :=
  let steps := 4%nat in
  let subDt := dt / INR steps in
  repeatSimulate steps subDt w.

(** *** raycast *)

Record RayHit : Type := mkHit {
  dist : R;
  point : Vector3;
  normal : Vector3
}.

Definition raycast (w : PhysicsWorld) (origin direction : Vector3)
    (maxLength : R) : option RayHit :=
  if Rltb (vy direction) 0 then
    let t := - vy origin / vy direction in
    if Rgeb t 0 && Rleb t maxLength then
      Some (mkHit t (addScaledVector origin direction t) (vec3 0 1 0))
    else None
  else None.

End Physics.

(** ** game/GameEntities.ts: the dynamics of [Car.update] *)

Module Vehicle.

Import Physics.

Inductive DriveType : Type := sedan | truck | sport.

Record VehicleConfig : Type := mkConfig {
  cfg_mass : R;
  enginePower : R;
  brakeForce : R;
  maxRPM : R;
  drag : R;
  suspensionLength : R;
  suspensionStiffness : R;
  suspensionDamping : R;
  frictionLat : R;
  frictionLong : R;
  turnSpeed : R;
  wheelRadius : R;
  width : R;
  length : R;
  height : R;
  type : DriveType
}.

(** The inputs the vehicle and the camera read. *)
Record InputState : Type := mkInputs {
  forward : bool;
  backward : bool;
  left : bool;
  right : bool;
  brake : bool;
  viewX : R;
  viewY : R
}.

Record Car : Type := mkCar {
  body : PhysicsBody;
  config : VehicleConfig;
  engineOn : bool;
  steeringAngle : R;
  speed : R
}.

Record Impulse : Type := mkImpulse {
  pos : Vector3;
  force : Vector3
}.

Definition isTruck (t : DriveType) : bool :=
  match t with truck => true | _ => false end.

Definition sign (a : R) : R :=
  if Rltb 0 a then 1 else if Rltb a 0 then -1 else 0.

(** The constructor of [Car]. *)
Definition newCar (startPos : Vector3) (cfg : VehicleConfig) : Car :=
  mkCar
    (mkBody (cfg_mass cfg) startPos (vec3 0 0 0) qidentity (vec3 0 0 0)
       (vec3 (length cfg) (height cfg) (width cfg))
       (mkCollider box (vec3 (length cfg / 2) (height cfg / 2) (width cfg / 2)))
       true false)
    cfg false 0 0.

Definition wX : R := 0.85.
Definition wY : R := 0.2.
Definition wZ : R := 1.35.

Definition mountPoints : list Vector3 :=
  [ vec3 (- wX) wY (- wZ); vec3 wX wY (- wZ);
    vec3 (- wX) wY wZ; vec3 wX wY wZ ].

(** The suspension ray of one wheel: origin, direction and length. *)
Definition mountWorld (b : PhysicsBody) (mountLocal : Vector3) : Vector3 :=
  add (applyQuaternion mountLocal (rotation b)) (position b).

Definition down (b : PhysicsBody) : Vector3 :=
  applyQuaternion (vec3 0 (-1) 0) (rotation b).

Definition rayLength (cfg : VehicleConfig) : R :=
  suspensionLength cfg + wheelRadius cfg.

Definition pointVel (b : PhysicsBody) (mountLocal : Vector3) : Vector3 :=
  let r := sub (mountWorld b mountLocal) (position b) in
  add (velocity b) (cross (angularVelocity b) r).

Definition suspensionForce (cfg : VehicleConfig) (b : PhysicsBody)
    (mountLocal : Vector3) (hit : RayHit) : R :=
  let travel := dist hit - wheelRadius cfg in
  let compression := 1.0 - travel / suspensionLength cfg in
  let compression := Rmax 0 (Rmin 1 compression) in
  let springF := compression * suspensionStiffness cfg in
  let velUp := dot (pointVel b mountLocal) (down b) in
  let dampF := - velUp * suspensionDamping cfg in
  Rmax 0 (springF + dampF).

(** The body of [mountPoints.forEach]: one wheel.  It returns the body (the
    brake may scale its velocity) and the impulses the wheel pushes,
    suspension first.  The wheel meshes are presentation state and are left
    out. *)
Definition wheel (cfg : VehicleConfig) (on : bool) (steering : R)
    (throttle brk : R) (inputs : InputState) (world : PhysicsWorld)
    (i : nat) (mountLocal : Vector3) (b : PhysicsBody)
  : PhysicsBody * list Impulse :=
  let isFront := Nat.ltb i 2 in
  let mw := mountWorld b mountLocal in
  let dn := down b in
  match raycast world mw dn (rayLength cfg) with
  | Some hit =>
      let suspF := suspensionForce cfg b mountLocal hit in
      let suspensionImpulse := multiplyScalar dn (- suspF) in
      let pv := pointVel b mountLocal in
      let wheelRot :=
        if isFront
        then qmultiply (rotation b) (setFromAxisAngle (vec3 0 1 0) steering)
        else rotation b in
      let wheelForward := applyQuaternion (vec3 0 0 (-1)) wheelRot in
      let wheelRight := applyQuaternion (vec3 1 0 0) wheelRot in
      let vForward := dot pv wheelForward in
      let vRight := dot pv wheelRight in
      let latGrip :=
        if Rgtb (Rabs vRight) 5.0 && brake inputs
        then frictionLat cfg * 0.5 else frictionLat cfg in
      let latForceMag := - vRight * latGrip * (suspF / 2000) in
      let latForce := multiplyScalar wheelRight latForceMag in
      let driven :=
        if on then
          if Rgtb (Rabs throttle) 0.01 && (negb isFront || isTruck (type cfg))
          then throttle * enginePower cfg
               * (1.0 - Rmin (Rabs vForward / 60.0) 0.8)
          else 0
        else 0 in
      let longForceMag :=
        if on then
          if Rgtb brk 0
          then driven - sign vForward * brakeForce cfg * brk * 20
          else driven
        else - vForward * 50 in
      let b' :=
        if on && Rgtb brk 0 && Rltb (Rabs vForward) 1.0
        then set_velocity b (multiplyScalar (velocity b) 0.9) else b in
      let longForce := multiplyScalar wheelForward longForceMag in
      (b', [ mkImpulse mw suspensionImpulse;
             mkImpulse mw latForce;
             mkImpulse mw longForce ])
  | None => (b, [])
  end.

Fixpoint wheels (cfg : VehicleConfig) (on : bool) (steering : R)
    (throttle brk : R) (inputs : InputState) (world : PhysicsWorld)
    (i : nat) (mounts : list Vector3) (b : PhysicsBody)
  : PhysicsBody * list Impulse :=
  match mounts with
  | [] => (b, [])
  | m :: rest =>
      let '(b1, imps) := wheel cfg on steering throttle brk inputs world i m b in
      let '(b2, imps') :=
        wheels cfg on steering throttle brk inputs world (S i) rest b1 in
      (b2, imps ++ imps')
  end.

(** The body of [impulses.forEach]. *)
Definition applyImpulse (dt : R) (b : PhysicsBody) (imp : Impulse)
  : PhysicsBody :=
  let b1 := set_velocity b
              (addScaledVector (velocity b) (force imp) (dt / mass b)) in
  let r := sub (pos imp) (position b1) in
  set_angularVelocity b1
    (addScaledVector (angularVelocity b1) (cross r (force imp))
       (dt / (mass b1 * 2.0))).

Definition update (dt : R) (inputs : InputState) (world : PhysicsWorld)
    (c : Car) : Car :=
  let speed' := Three.length (velocity (body c)) in
  let throttle :=
    if engineOn c then
      if backward inputs then -0.5 else if forward inputs then 1 else 0
    else 0 in
  let steerInput :=
    if engineOn c then
      if right inputs then -1 else if left inputs then 1 else 0
    else 0 in
  let brk := if engineOn c && brake inputs then 1 else 0 in
  let maxSteer := PI / 4 in
  let steerFactor := 1.0 / (1.0 + speed' / 20.0) in
  let targetSteer := steerInput * maxSteer * steerFactor in
  let steering :=
    steeringAngle c + (targetSteer - steeringAngle c) * 5.0 * dt in
  let '(b1, impulses) :=
    wheels (config c) (engineOn c) steering throttle brk inputs world
           0%nat mountPoints (body c) in
  let b2 := fold_left (applyImpulse dt) impulses b1 in
  let b3 := set_velocity b2
              (addScaledVector (velocity b2) (velocity b2)
                 (- drag (config c) * speed' * dt)) in
  mkCar b3 (config c) (engineOn c) steering speed'.

End Vehicle.

(** ** three.js [Ray.intersectBox]

    The slab test divides by the components of the ray direction.  A zero
    component makes the quotient infinite, and the test relies on the
    arithmetic of the infinities and of NaN, so the ray parameters are
    extended numbers here.  A zero direction component is taken as [+0]. *)

Module Ray.

Inductive xnum : Type :=
| Fin (r : R)
| PInf
| NInf
| NaN.

Record Ray : Type := mkRay { origin : Vector3; direction : Vector3 }.

(** [1 / d]. *)
Definition xinv (d : R) : xnum :=
  if Reqb d 0 then PInf else Fin (1 / d).

(** [a * b] for a finite [a]. *)
Definition xscale (a : R) (b : xnum) : xnum :=
  match b with
  | Fin r => Fin (a * r)
  | PInf => if Rltb 0 a then PInf else if Rltb a 0 then NInf else NaN
  | NInf => if Rltb 0 a then NInf else if Rltb a 0 then PInf else NaN
  | NaN => NaN
  end.

(** [a > b]; every comparison with NaN is false. *)
Definition xgt (a b : xnum) : bool :=
  match a, b with
  | NaN, _ | _, NaN => false
  | Fin x, Fin y => Rgtb x y
  | PInf, PInf => false
  | PInf, _ => true
  | _, PInf => false
  | NInf, _ => false
  | Fin _, NInf => true
  end.

Definition xlt (a b : xnum) : bool := xgt b a.

(** [a >= b]. *)
Definition xge (a b : xnum) : bool :=
  match a, b with
  | NaN, _ | _, NaN => false
  | Fin x, Fin y => Rgeb x y
  | PInf, _ => true
  | _, NInf => true
  | _, _ => false
  end.

Definition xisNaN (a : xnum) : bool :=
  match a with NaN => true | _ => false end.

(** The entry and exit parameters of one axis. *)
Definition slab (lo hi o d : R) : xnum * xnum :=
  let invdir := xinv d in
  if xge invdir (Fin 0)
  then (xscale (lo - o) invdir, xscale (hi - o) invdir)
  else (xscale (hi - o) invdir, xscale (lo - o) invdir).

(** The parameter [t] of the point [intersectBox] returns, [None] for
    [null]. *)
Definition intersectBoxParam (r : Ray) (bx : Box3) : option xnum :=
  let o := origin r in
  let d := direction r in
  let '(tmin, tmax) := slab (vx (bmin bx)) (vx (bmax bx)) (vx o) (vx d) in
  let '(tymin, tymax) := slab (vy (bmin bx)) (vy (bmax bx)) (vy o) (vy d) in
  if xgt tmin tymax || xgt tymin tmax then None
  else
    let tmin := if xgt tymin tmin || xisNaN tmin then tymin else tmin in
    let tmax := if xlt tymax tmax || xisNaN tmax then tymax else tmax in
    let '(tzmin, tzmax) := slab (vz (bmin bx)) (vz (bmax bx)) (vz o) (vz d) in
    if xgt tmin tzmax || xgt tzmin tmax then None
    else
      let tmin := if xgt tzmin tmin || xisNaN tmin then tzmin else tmin in
      let tmax := if xlt tzmax tmax || xisNaN tmax then tzmax else tmax in
      if xlt tmax (Fin 0) then None
      else Some (if xge tmin (Fin 0) then tmin else tmax).

(** [ray.at(t)]. *)
Definition at_ (r : Ray) (t : R) : Vector3 :=
  addScaledVector (origin r) (direction r) t.

End Ray.

(** ** game/CameraRig.ts *)

Module Camera.

Import Vehicle.

Inductive CameraMode : Type := THIRD_PERSON | FIRST_PERSON | TRANSITION.

Record CameraRig : Type := mkRig {
  cameraPosition : Vector3;
  mode : CameraMode;
  currentPos : Vector3;
  currentLookAt : Vector3
}.

Definition thirdPersonDist : R := 6.0.
Definition thirdPersonHeight : R := 2.0.

(** The orbit position the third-person camera asks for. *)
Definition orbitOffset (inputs : InputState) : Vector3 :=
  let yaw := viewX inputs in
  let pitch := Rmax (-0.5) (Rmin 1.0 (viewY inputs)) in
  let dist := thirdPersonDist in
  let hOffset := sin pitch * dist in
  let rOffset := cos pitch * dist in
  let offsetX := sin yaw * rOffset in
  let offsetZ := cos yaw * rOffset in
  vec3 offsetX (hOffset + thirdPersonHeight) offsetZ.

Definition naiveDesiredPos (targetPos : Vector3) (inputs : InputState)
  : Vector3 :=
  add targetPos (orbitOffset inputs).

Definition rayStart (targetPos : Vector3) : Vector3 :=
  add targetPos (vec3 0 1.0 0).

Definition probeDirection (targetPos desiredPos : Vector3) : Vector3 :=
  normalize (sub desiredPos targetPos).

(** The body of the loop over [world.staticColliders].  A hit whose
    parameter is not finite lies at an infinite or NaN distance, which is
    never below [hitDist]. *)
Definition probeBox (r : Ray.Ray) (hitDist : R) (bx : Box3) : R :=
  match Ray.intersectBoxParam r bx with
  | Some (Ray.Fin t) =>
      let d := distanceTo (Ray.origin r) (Ray.at_ r t) in
      if Rltb d hitDist then d else hitDist
  | _ => hitDist
  end.

Definition probeHitDist (targetPos desiredPos : Vector3)
    (statics : list Box3) : R :=
  let direction := probeDirection targetPos desiredPos in
  let fullDist := distanceTo targetPos desiredPos in
  fold_left (probeBox (Ray.mkRay (rayStart targetPos) direction))
            statics fullDist.

(** The collision probe (camera whisker): the desired position after the
    static colliders have been taken into account. *)
Definition collisionProbe (targetPos desiredPos : Vector3)
    (statics : list Box3) : Vector3 :=
  let direction := probeDirection targetPos desiredPos in
  let fullDist := distanceTo targetPos desiredPos in
  let hitDist := probeHitDist targetPos desiredPos statics in
  if Rltb hitDist fullDist
  then add (rayStart targetPos) (multiplyScalar direction (hitDist - 0.2))
  else desiredPos.

(** The third-person branch of [update]; the camera's orientation is not
    part of the model. *)
Definition updateThirdPerson (dt : R) (targetPos : Vector3)
    (inputs : InputState) (world : Physics.PhysicsWorld) (rig : CameraRig)
  : CameraRig :=
  let desiredPos :=
    collisionProbe targetPos (naiveDesiredPos targetPos inputs)
                   (Physics.staticColliders world) in
  let k := 1.0 - Rpower 0.001 dt in
  let pos' := lerp (currentPos rig) desiredPos k in
  let look' := lerp (currentLookAt rig) (rayStart targetPos) k in
  mkRig pos' (mode rig) pos' look'.

(** The first-person branch of [update]. *)
Definition updateFirstPerson (targetPos : Vector3) (targetRot : Quaternion)
    (inputs : InputState) (isVehicle : bool) (rig : CameraRig) : CameraRig :=
  let offset := if isVehicle then vec3 (-0.3) 0.7 0 else vec3 0 1.7 0 in
  let headPos := add (applyQuaternion offset targetRot) targetPos in
  let camQ :=
    qmultiply
      (qmultiply targetRot (setFromAxisAngle (vec3 0 1 0) (viewX inputs)))
      (setFromAxisAngle (vec3 1 0 0) (- viewY inputs)) in
  let lookPoint := add headPos (applyQuaternion (vec3 0 0 (-10)) camQ) in
  let pos' := lerp (currentPos rig) headPos 0.5 in
  let look' := lerp (currentLookAt rig) lookPoint 0.5 in
  mkRig pos' (mode rig) pos' look'.

Definition update (dt : R) (targetPos : Vector3) (targetRot : Quaternion)
    (inputs : InputState) (world : Physics.PhysicsWorld) (isVehicle : bool)
    (rig : CameraRig) : CameraRig :=
  match mode rig with
  | FIRST_PERSON => updateFirstPerson targetPos targetRot inputs isVehicle rig
  | _ => updateThirdPerson dt targetPos inputs world rig
  end.

End Camera.

(** ** types.ts: the whole [InputState] *)

Module Input.

Record InputState : Type := mkInputState {
  forward : bool;
  backward : bool;
  left : bool;
  right : bool;
  brake : bool;
  jump : bool;
  action : bool;
  run : bool;
  camToggle : bool;
  shoot : bool;
  mouseX : R;
  mouseY : R;
  viewX : R;
  viewY : R
}.

(** The fields the vehicle and the camera read. *)
Definition driving (s : InputState) : Vehicle.InputState :=
  Vehicle.mkInputs (forward s) (backward s) (left s) (right s) (brake s)
                   (viewX s) (viewY s).

End Input.

(** ** utils/InputManager.ts *)

Module InputManager.

Import Input.
Import String.

Record InputManager : Type := mkManager {
  state : InputState;
  isLocked : bool
}.

Definition initial : InputManager :=
  mkManager
    (mkInputState false false false false false false false false false false
                  0 0 0 0)
    false.

(** [onLockChange]; [locked] is
    [document.pointerLockElement === this.domElement]. *)
Definition onLockChange (locked : bool) (m : InputManager) : InputManager :=
  mkManager (state m) locked.

Definition onMouseMove (movementX movementY : R) (m : InputManager)
  : InputManager :=
  if negb (isLocked m) then m
  else
    let s := state m in
    let sensitivity := 0.002 in
    let mx := movementX * sensitivity in
    let my := movementY * sensitivity in
    let vX := viewX s - mx in
    let vY := viewY s + my in
    let limit := PI / 2 - 0.1 in
    let vY := Rmax (- limit) (Rmin limit vY) in
    mkManager
      (mkInputState (forward s) (backward s) (left s) (right s) (brake s)
                    (jump s) (action s) (run s) (camToggle s) (shoot s)
                    mx my vX vY)
      (isLocked m).

Definition set_shoot (s : InputState) (v : bool) : InputState :=
  mkInputState (forward s) (backward s) (left s) (right s) (brake s)
               (jump s) (action s) (run s) (camToggle s) v
               (mouseX s) (mouseY s) (viewX s) (viewY s).

Definition onMouseDown (button : Z) (m : InputManager) : InputManager :=
  if isLocked m && Z.eqb button 0
  then mkManager (set_shoot (state m) true) (isLocked m)
  else m.

Definition onMouseUp (button : Z) (m : InputManager) : InputManager :=
  if Z.eqb button 0
  then mkManager (set_shoot (state m) false) (isLocked m)
  else m.

Definition mapKeys (code : String.string) (value : bool) (s : InputState)
  : InputState :=
  if String.eqb code "KeyW"%string then
    mkInputState value (backward s) (left s) (right s) (brake s)
                 (jump s) (action s) (run s) (camToggle s) (shoot s)
                 (mouseX s) (mouseY s) (viewX s) (viewY s)
  else if String.eqb code "KeyS"%string then
    mkInputState (forward s) value (left s) (right s) (brake s)
                 (jump s) (action s) (run s) (camToggle s) (shoot s)
                 (mouseX s) (mouseY s) (viewX s) (viewY s)
  else if String.eqb code "KeyA"%string then
    mkInputState (forward s) (backward s) value (right s) (brake s)
                 (jump s) (action s) (run s) (camToggle s) (shoot s)
                 (mouseX s) (mouseY s) (viewX s) (viewY s)
  else if String.eqb code "KeyD"%string then
    mkInputState (forward s) (backward s) (left s) value (brake s)
                 (jump s) (action s) (run s) (camToggle s) (shoot s)
                 (mouseX s) (mouseY s) (viewX s) (viewY s)
  else if String.eqb code "Space"%string then
    mkInputState (forward s) (backward s) (left s) (right s) value
                 value (action s) (run s) (camToggle s) (shoot s)
                 (mouseX s) (mouseY s) (viewX s) (viewY s)
  else if String.eqb code "ShiftLeft"%string then
    mkInputState (forward s) (backward s) (left s) (right s) (brake s)
                 (jump s) (action s) value (camToggle s) (shoot s)
                 (mouseX s) (mouseY s) (viewX s) (viewY s)
  else if String.eqb code "KeyE"%string then
    if value then
      mkInputState (forward s) (backward s) (left s) (right s) (brake s)
                   (jump s) true (run s) (camToggle s) (shoot s)
                   (mouseX s) (mouseY s) (viewX s) (viewY s)
    else s
  else if String.eqb code "KeyV"%string then
    if value then
      mkInputState (forward s) (backward s) (left s) (right s) (brake s)
                   (jump s) (action s) (run s) true (shoot s)
                   (mouseX s) (mouseY s) (viewX s) (viewY s)
    else s
  else s.

Definition onKeyDown (code : String.string) (m : InputManager)
  : InputManager :=
  mkManager (mapKeys code true (state m)) (isLocked m).

Definition onKeyUp (code : String.string) (m : InputManager)
  : InputManager :=
  mkManager (mapKeys code false (state m)) (isLocked m).

Definition resetTriggers (m : InputManager) : InputManager :=
  let s := state m in
  mkManager
    (mkInputState (forward s) (backward s) (left s) (right s) (brake s)
                  (jump s) false (run s) false (shoot s)
                  0 0 (viewX s) (viewY s))
    (isLocked m).

(** The events the manager listens to. *)
Inductive Event : Type :=
| KeyDown (code : String.string)
| KeyUp (code : String.string)
| MouseMove (movementX movementY : R)
| MouseDown (button : Z)
| MouseUp (button : Z)
| PointerLockChange (locked : bool).

Definition handle (m : InputManager) (e : Event) : InputManager :=
  match e with
  | KeyDown code => onKeyDown code m
  | KeyUp code => onKeyUp code m
  | MouseMove dx dy => onMouseMove dx dy m
  | MouseDown b => onMouseDown b m
  | MouseUp b => onMouseUp b m
  | PointerLockChange l => onLockChange l m
  end.

Definition handleAll (m : InputManager) (es : list Event) : InputManager :=
  fold_left handle es m.

(** The codes of the two trigger keys. *)
Definition actionKey : String.string := "KeyE"%string.
Definition camToggleKey : String.string := "KeyV"%string.

End InputManager.

(** ** game/GameEntities.ts: [Player] *)

Module Player.

Import Input.

(** [mesh.position] and [mesh.visible] are the part of the mesh the update
    reads and writes back; the mesh orientation, the animation mixer and
    the tracer of [shoot] are presentation state and are left out. *)
Record Player : Type := mkPlayer {
  body : PhysicsBody;
  isDriving : bool;
  meshPosition : Vector3;
  meshVisible : bool
}.

(** The constructor. *)
Definition newPlayer (startPos : Vector3) : Player :=
  mkPlayer
    (mkBody 75 startPos (vec3 0 0 0) qidentity (vec3 0 0 0)
       (vec3 0.5 1.8 0.5) (mkCollider capsule (vec3 0.35 1.7 0))
       false false)
    false startPos true.

(** [v.applyAxisAngle(axis, angle)]. *)
Definition applyAxisAngle (v axis : Vector3) (angle : R) : Vector3 :=
  applyQuaternion v (setFromAxisAngle axis angle).

Definition forwardDir (yaw : R) : Vector3 :=
  applyAxisAngle (vec3 0 0 (-1)) (vec3 0 1 0) yaw.

Definition rightDir (yaw : R) : Vector3 :=
  applyAxisAngle (vec3 1 0 0) (vec3 0 1 0) yaw.

(** The direction the keys ask for, normalized when it is not zero. *)
Definition wishDir (inputs : InputState) : Vector3 :=
  let yaw := viewX inputs in
  let w0 := vec3 0 0 0 in
  let w1 := if forward inputs then add w0 (forwardDir yaw) else w0 in
  let w2 := if backward inputs then sub w1 (forwardDir yaw) else w1 in
  let w3 := if right inputs then add w2 (rightDir yaw) else w2 in
  let w4 := if left inputs then sub w3 (rightDir yaw) else w3 in
  if Rgtb (lengthSq w4) 0 then normalize w4 else w4.

(** Acceleration towards the wish direction. *)
Definition accelerate (dt : R) (inputs : InputState) (b : PhysicsBody)
  : PhysicsBody :=
  let w := wishDir inputs in
  let targetSpeed := if run inputs then 8.0 else 3.5 in
  let acceleration := if negb (isGrounded b) then 5.0 else 40.0 in
  if Rgtb (lengthSq w) 0 then
    let currentSpeed := dot (velocity b) w in
    let deficit := targetSpeed - currentSpeed in
    if Rgtb deficit 0
    then set_velocity b
           (addScaledVector (velocity b) w
              (Rmin (deficit * 2.0) (acceleration * dt)))
    else b
  else b.

(** Friction on the planar velocity. *)
Definition applyFriction (dt : R) (b : PhysicsBody) : PhysicsBody :=
  let friction := if negb (isGrounded b) then 0.5 else 8.0 in
  let planarVel := vec3 (vx (velocity b)) 0 (vz (velocity b)) in
  let speed := Three.length planarVel in
  if Rgtb speed 0 then
    let drop := speed * friction * dt in
    let newSpeed := Rmax 0 (speed - drop) in
    let planarVel := multiplyScalar planarVel (newSpeed / speed) in
    set_velocity b (vec3 (vx planarVel) (vy (velocity b)) (vz planarVel))
  else b.

Definition applyJump (inputs : InputState) (b : PhysicsBody) : PhysicsBody :=
  if jump inputs && isGrounded b
  then set_isGrounded (set_velocity b (set_y (velocity b) 8)) false
  else b.

Definition update (dt : R) (inputs : InputState) (p : Player) : Player :=
  if isDriving p then
    mkPlayer (set_position (body p) (meshPosition p)) true
             (meshPosition p) false
  else
    let b := applyJump inputs (applyFriction dt (accelerate dt inputs (body p))) in
    mkPlayer b false (position b) true.

End Player.

(** ** game/GameEntities.ts: [Pedestrian] *)

Module Pedestrian.

(** The values of [Math.random()] are arguments, each in [0, 1).  The mesh
    orientation and the animation are left out. *)
Record Pedestrian : Type := mkPedestrian {
  body : PhysicsBody;
  targetPos : Vector3;
  waitTime : R;
  walkSpeed : R;
  meshPosition : Vector3
}.

(** [pickTarget]; [r1] and [r2] are its two random numbers. *)
Definition pickTarget (r1 r2 : R) (p : Pedestrian) : Pedestrian :=
  let angle := r1 * PI * 2 in
  let dist := 10 + r2 * 20 in
  mkPedestrian (body p)
    (vec3 (vx (position (body p)) + cos angle * dist)
          (vy (position (body p)))
          (vz (position (body p)) + sin angle * dist))
    (waitTime p) (walkSpeed p) (meshPosition p).

(** The constructor. *)
Definition newPedestrian (startPos : Vector3) (r1 r2 : R) : Pedestrian :=
  pickTarget r1 r2
    (mkPedestrian
       (mkBody 70 startPos (vec3 0 0 0) qidentity (vec3 0 0 0)
          (vec3 0.5 1.8 0.5) (mkCollider capsule (vec3 0.35 1.7 0))
          false false)
       (vec3 0 0 0) 0 2.5 startPos).

(** The horizontal vector from the body to the target. *)
Definition toTarget (p : Pedestrian) : Vector3 :=
  set_y (sub (targetPos p) (position (body p))) 0.

(** [update]; [r0] is the random number of the wait time, [r1] and [r2]
    those of [pickTarget]. *)
Definition update (dt : R) (r0 r1 r2 : R) (p : Pedestrian) : Pedestrian :=
  if Rgtb (waitTime p) 0 then
    mkPedestrian
      (set_velocity (body p)
         (vec3 (vx (velocity (body p)) * 0.9)
               (vy (velocity (body p)))
               (vz (velocity (body p)) * 0.9)))
      (targetPos p) (waitTime p - dt) (walkSpeed p) (meshPosition p)
  else
    let tt := toTarget p in
    let dist := Three.length tt in
    if Rltb dist 1.0 then
      let p1 := mkPedestrian (body p) (targetPos p) (2 + r0 * 3)
                             (walkSpeed p) (meshPosition p) in
      let p2 := pickTarget r1 r2 p1 in
      mkPedestrian (body p2) (targetPos p2) (waitTime p2) (walkSpeed p2)
                   (position (body p2))
    else
      let tt := normalize tt in
      let v := velocity (body p) in
      let vx' := vx v + (vx tt * walkSpeed p - vx v) * 5 * dt in
      let vz' := vz v + (vz tt * walkSpeed p - vz v) * 5 * dt in
      let b := set_velocity (body p) (vec3 vx' (vy v) vz') in
      mkPedestrian b (targetPos p) (waitTime p) (walkSpeed p) (position b).

End Pedestrian.

(** ** The frame loop of the application: entering a car *)

Module App.

(** The cars are seen through the position of their mesh only. *)
Section Enter.

Variable Car : Type.
Variable meshPosition : Car -> Vector3.

(** The body of the loop over [eng.cars]: [(minDist, nearest)] after one
    more car. *)
Definition nearerCar (playerPos : Vector3) (acc : R * option Car) (c : Car)
  : R * option Car :=
  let d := distanceTo (meshPosition c) playerPos in
  if Rltb d (fst acc) then (d, Some c) else acc.

(** The car the player enters, if any. *)
Definition nearestCar (playerPos : Vector3) (cars : list Car) : option Car :=
  snd (fold_left (nearerCar playerPos) cars (5, None)).

End Enter.

End App.

(** ** engine/Physics.ts: the body list as a list of references

    [this.bodies] is an array of references to body objects, and [simulate]
    mutates the objects in place.  Here a store maps each reference to the
    current state of its object, and the body list is a list of references:
    an object registered twice stands twice in the list under one
    reference.  Each body object owns its vectors, as every constructor of
    the repository allocates them; the static colliders are never written
    by [step] and are kept by value. *)

Module Heap.

Definition Ref : Type := nat.

Definition Store : Type := Ref -> PhysicsBody.

(** The store after the object behind [r] has been left in state [b]. *)
Definition write (st : Store) (r : Ref) (b : PhysicsBody) : Store :=
  fun r' => if Nat.eqb r' r then b else st r'.

Record PhysicsWorld : Type := mkWorld {
  bodies : list Ref;
  staticColliders : list Box3
}.

Definition addBody (w : PhysicsWorld) (r : Ref) : PhysicsWorld :=
  mkWorld (bodies w ++ [r]) (staticColliders w).

Definition addStaticCollider (w : PhysicsWorld) (bx : Box3) : PhysicsWorld :=
  mkWorld (bodies w) (staticColliders w ++ [bx]).

(** [for (const body of this.bodies)]: each iteration reads the object
    behind the reference as the iterations before left it, and leaves it as
    the loop body makes it. *)
Definition simulate (dt : R) (w : PhysicsWorld) (st : Store) : Store :=
  fold_left
    (fun st r =>
       write st r (Physics.simulateBody dt (staticColliders w) (st r)))
    (bodies w) st.

Fixpoint repeatSimulate (n : nat) (dt : R) (w : PhysicsWorld) (st : Store)
  : Store :=
  match n with
  | O => st
  | S k => repeatSimulate k dt w (simulate dt w st)
  end.

Definition step (dt : R) (w : PhysicsWorld) (st : Store) : Store :=
  let steps := 4%nat in
  let subDt := dt / INR steps in
  repeatSimulate steps subDt w st.


End Heap.

(** ** engine/Physics.ts: the orientation update in floating point

    The lines of [simulate] that turn a body, and the three.js methods they
    call, once more, with every arithmetic operation rounded to a machine
    number: [rnd] is the rounding of one operation (of a product, a sum, a
    quotient, a square root), [sinF] and [cosF] are what [Math.sin] and
    [Math.cos] return.  With the identity for [rnd] and the real sine and
    cosine this is the update of [Physics.integrate]. *)

Module Rounded.

Section Ops.

Variables rnd sinF cosF : R -> R.

(** [Vector3.length]. *)
Definition length (v : Vector3) : R :=
  rnd (sqrt (rnd (rnd (rnd (vx v * vx v) + rnd (vy v * vy v))
                  + rnd (vz v * vz v)))).

(** [Vector3.multiplyScalar] and [Vector3.normalize]. *)
Definition multiplyScalar (v : Vector3) (s : R) : Vector3 :=
  vec3 (rnd (vx v * s)) (rnd (vy v * s)) (rnd (vz v * s)).

Definition normalize (v : Vector3) : Vector3 :=
  multiplyScalar v (rnd (1 / (if Reqb (length v) 0 then 1 else length v))).

(** [Quaternion.setFromAxisAngle]. *)
Definition setFromAxisAngle (axis : Vector3) (angle : R) : Quaternion :=
  let halfAngle := rnd (angle / 2) in
  let s := sinF halfAngle in
  quat (rnd (vx axis * s)) (rnd (vy axis * s)) (rnd (vz axis * s))
       (cosF halfAngle).

(** [Quaternion.multiply]. *)
Definition qmultiply (a b : Quaternion) : Quaternion :=
  quat (rnd (rnd (rnd (rnd (qx a * qw b) + rnd (qw a * qx b))
                  + rnd (qy a * qz b))
             - rnd (qz a * qy b)))
       (rnd (rnd (rnd (rnd (qy a * qw b) + rnd (qw a * qy b))
                  + rnd (qz a * qx b))
             - rnd (qx a * qz b)))
       (rnd (rnd (rnd (rnd (qz a * qw b) + rnd (qw a * qz b))
                  + rnd (qx a * qy b))
             - rnd (qy a * qx b)))
       (rnd (rnd (rnd (rnd (qw a * qw b) - rnd (qx a * qx b))
                  - rnd (qy a * qy b))
             - rnd (qz a * qz b))).

(** [Quaternion.length] and [Quaternion.normalize]. *)
Definition qlength (q : Quaternion) : R :=
  rnd (sqrt (rnd (rnd (rnd (rnd (qx q * qx q) + rnd (qy q * qy q))
                       + rnd (qz q * qz q))
                  + rnd (qw q * qw q)))).

Definition qnormalize (q : Quaternion) : Quaternion :=
  let l := qlength q in
  if Reqb l 0 then quat 0 0 0 1
  else
    let l' := rnd (1 / l) in
    quat (rnd (qx q * l')) (rnd (qy q * l')) (rnd (qz q * l'))
         (rnd (qw q * l')).

(** The rotation of [simulate]: the orientation after a sub-step of [dt]
    of a body with orientation [rotation] and (damped) angular velocity
    [angularVelocity]. *)
Definition rotate (rotation : Quaternion) (angularVelocity : Vector3)
    (dt : R) : Quaternion :=
  let angle := rnd (length angularVelocity * dt) in
  if Rgtb angle 0.0001 then
    let axis := normalize angularVelocity in
    let q := setFromAxisAngle axis angle in
    qnormalize (qmultiply rotation q)
  else rotation.

End Ops.

End Rounded.

(** ** Vocabulary of the statements *)

(** The parameter at which a ray meets the ground plane [y = 0]. *)
Definition groundParam (origin direction : Vector3) : R :=
  - vy origin / vy direction.

(** The capsule as [resolveCapsule] reads it from the collider. *)
Definition capsuleRadius (b : PhysicsBody) : R := vx (csize (collider b)).
Definition capsuleHalfHeight (b : PhysicsBody) : R :=
  vy (csize (collider b)) / 2.

(** The body after the floor-plane clamp of [resolveCapsule]. *)
Definition afterFloor (b : PhysicsBody) : PhysicsBody :=
  Physics.capsuleFloor (capsuleHalfHeight b) b.

(** The bounding box of the capsule at the body's position. *)
Definition capsuleBounds (b : PhysicsBody) : Box3 :=
  setFromCenterAndSize (position b)
    (vec3 (capsuleRadius b * 2) (vy (csize (collider b)))
          (capsuleRadius b * 2)).

(** The vertical gap from the capsule's bottom up to the top of a box. *)
Definition stepGap (b : PhysicsBody) (s : Box3) : R :=
  vy (bmax s) - (vy (position b) - capsuleHalfHeight b).

(** One iteration of the loop of [resolveCapsule] over the static colliders,
    and the loop over a list of them, with the capsule, the bottom and the
    bounds that the resolver computed for the body [b] before the loop;
    [b1] is the body as the loop has left it so far. *)
Definition capsuleIter (b b1 : PhysicsBody) (s : Box3) : PhysicsBody :=
  Physics.capsuleVsStatic (capsuleRadius b) (capsuleHalfHeight b)
    (vy (position (afterFloor b)) - capsuleHalfHeight b)
    (capsuleBounds (afterFloor b)) b1 s.

Definition capsuleLoop (b : PhysicsBody) (statics : list Box3)
    (b1 : PhysicsBody) : PhysicsBody :=
  fold_left (capsuleIter b) statics b1.

(** A body standing at least at height [h], without vertical velocity,
    grounded. *)
Definition landedAt (b : PhysicsBody) (h : R) (b1 : PhysicsBody) : Prop :=
  h <= vy (position b1) /\ vy (velocity b1) = 0 /\ isGrounded b1 = true.

(** The horizontal separation from the nearest point of the footprint of a
    box to the axis of the capsule. *)
Definition wallDiff (b : PhysicsBody) (s : Box3) : Vector3 :=
  vec3 (vx (position b)
        - Rmax (vx (bmin s)) (Rmin (vx (position b)) (vx (bmax s))))
       0
       (vz (position b)
        - Rmax (vz (bmin s)) (Rmin (vz (position b)) (vz (bmax s)))).

(** The height at which a body rests on the ground plane: [halfHeight] for
    a capsule, [halfExtent.y] for a box. *)
Definition restHeight (b : PhysicsBody) : R :=
  match ctype (collider b) with
  | capsule => capsuleHalfHeight b
  | box => vy (csize (collider b))
  end.

(** The bounds the resolver of the body's collider tests against the static
    colliders. *)
Definition bodyBounds (b : PhysicsBody) : Box3 :=
  match ctype (collider b) with
  | capsule => capsuleBounds b
  | box => setFromCenterAndSize (position b) (size b)
  end.

(** A dynamic body at rest on the ground plane, clear of every static
    collider. *)
Definition restsOnGround (statics : list Box3) (b : PhysicsBody) : Prop :=
  mass b <> 0
  /\ 0 <= restHeight b
  /\ vy (position b) = restHeight b
  /\ velocity b = vec3 0 0 0
  /\ Forall (fun s => intersectsBox (bodyBounds b) s = false) statics.

(** The state of a box body between the sub-steps of a step that started at
    rest: in place, with the upward velocity the floor bounce left. *)
Definition boxAtRest (sdt : R) (b0 b : PhysicsBody) : Prop :=
  mass b = mass b0 /\ position b = position b0 /\ size b = size b0
  /\ collider b = collider b0
  /\ vx (velocity b) = 0 /\ vz (velocity b) = 0
  /\ 0 <= vy (velocity b) < 25 * sdt.

(** The state of a capsule body between the sub-steps of a step that started
    at rest. *)
Definition capsuleAtRest (b0 b : PhysicsBody) : Prop :=
  mass b = mass b0 /\ position b = position b0 /\ size b = size b0
  /\ collider b = collider b0 /\ velocity b = vec3 0 0 0.

(** The histories of one body: sub-steps of the physics world (any [dt],
    any static colliders) interleaved with changes of the angular velocity
    from outside, as the wheel impulses of a vehicle make them. *)
Inductive evolves (b : PhysicsBody) : PhysicsBody -> Prop :=
| evolves_start : evolves b b
| evolves_substep (b' : PhysicsBody) (dt : R) (statics : list Box3) :
    evolves b b' -> evolves b (Physics.simulateBody dt statics b')
| evolves_torque (b' : PhysicsBody) (w : Vector3) :
    evolves b b' -> evolves b (set_angularVelocity b' w).

(** The standard model of floating-point arithmetic: the rounded result of
    an operation differs from the exact one by a relative error of at most
    [u], the unit roundoff.  Overflow, underflow and NaN are left out. *)
Definition roundsWithin (u : R) (rnd : R -> R) : Prop :=
  forall x, Rabs (rnd x - x) <= u * Rabs x.

(** [a] approximates [b] after [k] roundings. *)
Definition within (u : R) (k : nat) (a b : R) : Prop :=
  b * (1 - u) ^ k <= a <= b * (1 + u) ^ k.

(** The histories of an orientation: sub-steps with any angular velocity
    and any [dt], in rounded arithmetic. *)
Inductive turns (rnd sinF cosF : R -> R) (q0 : Quaternion)
  : Quaternion -> Prop :=
| turns_start : turns rnd sinF cosF q0 q0
| turns_substep (q : Quaternion) (w : Vector3) (dt : R) :
    turns rnd sinF cosF q0 q ->
    turns rnd sinF cosF q0 (Rounded.rotate rnd sinF cosF q w dt).




(** The probe ray of the third-person camera. *)
Definition probeRay (targetPos desiredPos : Vector3) : Ray.Ray :=
  Ray.mkRay (Camera.rayStart targetPos)
            (Camera.probeDirection targetPos desiredPos).












Definition hitDist (targetPos : Vector3) (inputs : Vehicle.InputState)
    (statics : list Box3) : R :=
  Camera.probeHitDist targetPos (Camera.naiveDesiredPos targetPos inputs)
    statics.

Definition resolvedCamera (targetPos : Vector3) (inputs : Vehicle.InputState)
    (statics : list Box3) : Vector3 :=
  Camera.collisionProbe targetPos (Camera.naiveDesiredPos targetPos inputs)
    statics.

(** A run of calls to [step], one per frame. *)
Definition runSteps (dts : list R) (w : Physics.PhysicsWorld)
  : Physics.PhysicsWorld :=
  fold_left (fun w dt => Physics.step dt w) dts w.

(** Two states of one body: what the physics world is not meant to touch. *)
Definition sameShape (b b' : PhysicsBody) : Prop :=
  mass b' = mass b /\ size b' = size b /\ collider b' = collider b
  /\ isSleeping b' = isSleeping b.

(** The speed of a body over the ground. *)
Definition planarSpeed (v : Vector3) : R :=
  Three.length (vec3 (vx v) 0 (vz v)).

(** The point of the footprint of a box nearest to the axis of a capsule,
    and the horizontal distance of a position from a point. *)
Definition nearestFootprint (b : PhysicsBody) (s : Box3) : Vector3 :=
  vec3 (Rmax (vx (bmin s)) (Rmin (vx (position b)) (vx (bmax s))))
       0
       (Rmax (vz (bmin s)) (Rmin (vz (position b)) (vz (bmax s)))).

Definition planarDist (p q : Vector3) : R :=
  Three.length (vec3 (vx p - vx q) 0 (vz p - vz q)).

(** The bounds [resolveBox] gives a box body. *)
Definition boxBounds (b : PhysicsBody) : Box3 :=
  setFromCenterAndSize (position b) (size b).

(** The extent along x of the overlap of two boxes. *)
Definition overlapX (a s : Box3) : R :=
  Rmin (vx (bmax a)) (vx (bmax s)) - Rmax (vx (bmin a)) (vx (bmin s)).

(** The total force of a list of impulses and their total torque about a
    point. *)
Definition totalForce (imps : list Vehicle.Impulse) : Vector3 :=
  fold_right (fun imp acc => add (Vehicle.force imp) acc) (vec3 0 0 0) imps.

Definition totalTorque (center : Vector3) (imps : list Vehicle.Impulse)
  : Vector3 :=
  fold_right
    (fun imp acc =>
       add (cross (sub (Vehicle.pos imp) center) (Vehicle.force imp)) acc)
    (vec3 0 0 0) imps.

(** A run of events during which the pointer lock is never granted. *)
Definition neverLocks (es : list InputManager.Event) : Prop :=
  Forall (fun e => e <> InputManager.PointerLockChange true) es.

(** The largest view pitch the input manager lets through. *)
Definition viewLimit : R := PI / 2 - 0.1.

(** ** Data of the examples *)

(** [CAR_SEDAN] of the application. *)
Definition CAR_SEDAN : Vehicle.VehicleConfig :=
  Vehicle.mkConfig 1600 14000 350 7000 0.35 0.5 45000 3500 16.0 16.0 1.0
                   0.35 1.8 4.6 1.4 Vehicle.sedan.

Definition noInputs : Vehicle.InputState :=
  Vehicle.mkInputs false false false false false 0 0.

Definition emptyWorld : Physics.PhysicsWorld := Physics.mkWorld [] [].

(** The sedan standing on the ground plane. *)
Definition sedanBody : PhysicsBody :=
  Vehicle.body (Vehicle.newCar (vec3 5 0.7 (-20)) CAR_SEDAN).

(** The sedan pitched nose up by about 32 degrees (a unit rotation about
    the x axis), its rear wheels just above the ground. *)
Definition tiltedBody : PhysicsBody :=
  set_rotation sedanBody (quat 0.28 0 0 0.96).

Definition rearLeftMount : Vector3 :=
  vec3 (- Vehicle.wX) Vehicle.wY Vehicle.wZ.

(** A small box that holds the midpoint of the segment from the target at
    the origin to the third-person camera behind it at (0, 2, 6), and the
    midpoint of the segment from the point one unit above the target to the
    camera as well. *)
Definition occluder : Box3 := box3 (vec3 (-0.1) 0.9 2.9) (vec3 0.1 1.6 3.1).

(** A wall across the probe ray of a camera six units behind the target. *)
Definition wallBehind : Box3 := box3 (vec3 (-1) 0 3) (vec3 1 2 4).

(** A body below the void bound, spinning and moving. *)
Definition voidBody : PhysicsBody :=
  mkBody 75 (vec3 0 (-21) 0) (vec3 1 0 0) qidentity (vec3 1 0 0)
         (vec3 0.5 1.8 0.5) (mkCollider capsule (vec3 0.35 1.7 0))
         true false.

(** The player's body, standing on the ground plane. *)
Definition playerBody : PhysicsBody :=
  mkBody 75 (vec3 0 0.85 0) (vec3 0 0 0) qidentity (vec3 0 0 0)
         (vec3 0.5 1.8 0.5) (mkCollider capsule (vec3 0.35 1.7 0))
         false false.

(** The player sliding over the ground plane at speed 1, grounded, spinning
    about the vertical axis. *)
Definition slidingPlayer : PhysicsBody :=
  mkBody 75 (vec3 0 0.85 0) (vec3 1 0 0) qidentity (vec3 0 1 0)
         (vec3 0.5 1.8 0.5) (mkCollider capsule (vec3 0.35 1.7 0))
         true false.

(** A body without mass. *)
Definition anchorBody : PhysicsBody :=
  mkBody 0 (vec3 3 1 3) (vec3 1 2 3) qidentity (vec3 0 1 0)
         (vec3 1 1 1) (mkCollider box (vec3 0.5 0.5 0.5)) false false.

(** A curb whose top is exactly the step height above the ground, and a
    ledge a little higher; both reach into the player's capsule. *)
Definition curb : Box3 := box3 (vec3 0.2 0 (-1)) (vec3 2 0.4 1).
Definition ledge : Box3 := box3 (vec3 0.2 0 (-1)) (vec3 2 0.41 1).

(** A lower curb over the same footprint, and the player walking toward the
    middle of the ledge with the axis of its capsule inside the footprint. *)
Definition lowCurb : Box3 := box3 (vec3 0.2 0 (-1)) (vec3 2 0.2 1).

Definition playerInLedge : PhysicsBody :=
  set_velocity (set_position playerBody (vec3 0.8 0.85 0)) (vec3 1 0 0).

Definition sedanWorld : Physics.PhysicsWorld :=
  Physics.mkWorld [sedanBody] [].

Definition mixedWorld : Physics.PhysicsWorld :=
  Physics.mkWorld [anchorBody; playerBody] [curb].









(** A box whose faces along z are the wrong way round ([min.z > max.z]): it
    is empty. *)
Definition insideOutWall : Box3 := box3 (vec3 (-1) 0 4) (vec3 1 5 3).

(** The unit roundoff of a double, and a rounding that errs upward by as
    much as the standard model allows. *)
Definition unitRoundoff : R := / 2 ^ 53.

Definition roundUp (x : R) : R := x * (1 + unitRoundoff).

(** A wall that the sedan's left side reaches 0.3 into, and a crate whose
    top the sedan has sunk 0.1 into. *)
Definition wallLeft : Box3 := box3 (vec3 0 0 (-30)) (vec3 3 10 (-10)).
Definition crate : Box3 := box3 (vec3 4 0 (-21)) (vec3 6 1 (-19)).
Definition sedanOnCrate : PhysicsBody :=
  set_position sedanBody (vec3 5 1.6 (-20)).

(** [CAR_SPORT] and [CAR_TRUCK] of the application, and the three shipped
    configurations. *)
Definition CAR_SPORT : Vehicle.VehicleConfig :=
  Vehicle.mkConfig 1400 18000 450 9000 0.3 0.4 60000 5000 20.0 18.0 1.2
                   0.33 1.9 4.4 1.2 Vehicle.sport.

Definition CAR_TRUCK : Vehicle.VehicleConfig :=
  Vehicle.mkConfig 2800 25000 600 5000 0.6 0.6 80000 6000 15.0 15.0 0.8
                   0.5 2.2 5.5 2.0 Vehicle.truck.

Definition shippedCars : list Vehicle.VehicleConfig :=
  [CAR_SPORT; CAR_TRUCK; CAR_SEDAN].

(** The sedan held 0.2 below its rest height, its wheels within reach of
    the ground. *)
Definition sedanLow : PhysicsBody :=
  set_position sedanBody (vec3 5 0.5 (-20)).

(** The forward key alone, the jump key alone, the player running over the
    ground at speed 5, a pedestrian at its target and one ten units from
    it. *)
Definition walkForward : Input.InputState :=
  Input.mkInputState true false false false false false false false false
                     false 0 0 0 0.

Definition jumpInputs : Input.InputState :=
  Input.mkInputState false false false false false true false false false
                     false 0 0 0 0.

Definition playerOnFoot : Player.Player :=
  Player.mkPlayer (set_velocity (set_isGrounded playerBody true) (vec3 3 0 4))
                  false (vec3 0 0.85 0) true.

Definition pedestrianArrived : Pedestrian.Pedestrian :=
  Pedestrian.mkPedestrian playerBody (vec3 0 0.85 0) 0 2.5 (vec3 0 0.85 0).

Definition pedestrianWalking : Pedestrian.Pedestrian :=
  Pedestrian.mkPedestrian playerBody (vec3 10 0.85 0) 0 2.5 (vec3 0 0.85 0).

(** * Properties *)

Import Physics.

(** ** Boolean comparisons *)

Lemma Rltb_true (a b : R) : Rltb a b = true <-> a < b.
Proof. unfold Rltb. destruct (Rlt_dec a b); split; intros; congruence || auto. Qed.

Lemma Rltb_false (a b : R) : Rltb a b = false <-> b <= a.
Proof.
  unfold Rltb. destruct (Rlt_dec a b); split; intros; try congruence; lra.
Qed.

Lemma Rleb_true (a b : R) : Rleb a b = true <-> a <= b.
Proof. unfold Rleb. destruct (Rle_dec a b); split; intros; congruence || auto. Qed.

Lemma Rleb_false (a b : R) : Rleb a b = false <-> b < a.
Proof.
  unfold Rleb. destruct (Rle_dec a b); split; intros; try congruence; lra.
Qed.

Lemma Reqb_true (a b : R) : Reqb a b = true <-> a = b.
Proof. unfold Reqb. destruct (Req_dec_T a b); split; intros; congruence || auto. Qed.

Lemma Reqb_false (a b : R) : Reqb a b = false <-> a <> b.
Proof. unfold Reqb. destruct (Req_dec_T a b); split; intros; congruence || auto. Qed.

(** Turn every boolean comparison in the context into its proposition. *)
Ltac bool_to_prop :=
  unfold Rgtb, Rgeb in *;
  repeat match goal with
  | H : _ && _ = true |- _ => apply andb_true_iff in H; destruct H
  | H : _ || _ = false |- _ => apply orb_false_iff in H; destruct H
  | H : Rltb _ _ = true |- _ => apply Rltb_true in H
  | H : Rltb _ _ = false |- _ => apply Rltb_false in H
  | H : Rleb _ _ = true |- _ => apply Rleb_true in H
  | H : Rleb _ _ = false |- _ => apply Rleb_false in H
  | H : Reqb _ _ = true |- _ => apply Reqb_true in H
  | H : Reqb _ _ = false |- _ => apply Reqb_false in H
  end.

(** Decide a comparison between two numbers that [lra] can order. *)
Ltac decide_cmp :=
  repeat match goal with
  | |- context [Rltb ?a ?b] =>
      first [ replace (Rltb a b) with true by (symmetry; apply Rltb_true; lra)
            | replace (Rltb a b) with false by (symmetry; apply Rltb_false; lra) ]
  | |- context [Rleb ?a ?b] =>
      first [ replace (Rleb a b) with true by (symmetry; apply Rleb_true; lra)
            | replace (Rleb a b) with false by (symmetry; apply Rleb_false; lra) ]
  | |- context [Reqb ?a ?b] =>
      first [ replace (Reqb a b) with true by (symmetry; apply Reqb_true; lra)
            | replace (Reqb a b) with false by (symmetry; apply Reqb_false; lra) ]
  end.

(** Case analysis on every minimum and maximum. *)
Ltac split_minmax :=
  unfold Rmax, Rmin in *;
  repeat match goal with
  | |- context [Rle_dec ?a ?b] => destruct (Rle_dec a b)
  | H : context [Rle_dec ?a ?b] |- _ => destruct (Rle_dec a b)
  end.

(** ** Lists *)

Lemma fold_left_invariant {A B : Type} (P : A -> Prop) (f : A -> B -> A) :
  (forall a x, P a -> P (f a x)) ->
  forall l a, P a -> P (fold_left f l a).
Proof.
  intros Hf l. induction l as [|x l IH]; intros a Ha; simpl; auto.
Qed.


(** ** The loop over the bodies *)

Lemma simulate_nth (dt : R) (w : PhysicsWorld) (i : nat) :
  nth_error (bodies (simulate dt w)) i
  = option_map (simulateBody dt (staticColliders w)) (nth_error (bodies w) i).
Proof. unfold simulate; simpl. apply nth_error_map. Qed.

Lemma simulate_body_at (dt : R) (w : PhysicsWorld) (i : nat)
    (b : PhysicsBody) :
  nth_error (bodies w) i = Some b ->
  nth_error (bodies (simulate dt w)) i
  = Some (simulateBody dt (staticColliders w) b).
Proof. intros H. now rewrite simulate_nth, H. Qed.

(** ** Bodies with no mass *)

Lemma simulateBody_static (dt : R) (statics : list Box3) (b : PhysicsBody) :
  mass b = 0 -> simulateBody dt statics b = b.
Proof.
  intros Hm. unfold simulateBody.
  replace (Reqb (mass b) 0) with true by (symmetry; now apply Reqb_true).
  reflexivity.
Qed.

Lemma simulate_static (dt : R) (w : PhysicsWorld) (i : nat) (b : PhysicsBody) :
  nth_error (bodies w) i = Some b -> mass b = 0 ->
  nth_error (bodies (simulate dt w)) i = Some b.
Proof.
  intros Hi Hm. unfold simulate; simpl.
  rewrite nth_error_map, Hi. simpl. now rewrite simulateBody_static.
Qed.

Lemma repeatSimulate_static (n : nat) (dt : R) :
  forall (w : PhysicsWorld) (i : nat) (b : PhysicsBody),
  nth_error (bodies w) i = Some b -> mass b = 0 ->
  nth_error (bodies (repeatSimulate n dt w)) i = Some b.
Proof.
  induction n as [|n IH]; intros w i b Hi Hm; simpl.
  - exact Hi.
  - apply IH; [now apply simulate_static | exact Hm].
Qed.

(** C8: a body whose mass is zero is left as it is by [step]: the body at
    the same index after the step is the same body, so its position, its
    velocity and its orientation (and every other field) are unchanged,
    whatever [dt] and whatever else the world holds. *)
Theorem step_static_body_unchanged (dt : R) (w : PhysicsWorld) (i : nat)
    (b : PhysicsBody) :
  nth_error (bodies w) i = Some b ->
  mass b = 0 ->
  exists b', nth_error (bodies (step dt w)) i = Some b'
             /\ position b' = position b
             /\ velocity b' = velocity b
             /\ rotation b' = rotation b
             /\ b' = b.
Proof.
  intros Hi Hm. exists b. unfold step.
  rewrite (repeatSimulate_static _ _ _ _ _ Hi Hm). auto.
Qed.

(** ** The capsule resolver never lowers a body *)

Lemma normalize_flat_y (a c : R) : vy (normalize (vec3 a 0 c)) = 0.
Proof. unfold normalize, divideScalar, multiplyScalar; simpl. ring. Qed.

Lemma capsuleFloor_y_le (h : R) (b : PhysicsBody) :
  vy (position b) <= vy (position (capsuleFloor h b)).
Proof.
  unfold capsuleFloor.
  destruct (Rltb (vy (position b)) h) eqn:E; [|lra].
  bool_to_prop. simpl.
  destruct (Rltb (vy (velocity b)) 0); simpl; lra.
Qed.

Lemma capsuleWall_y (radius : R) (b : PhysicsBody) (s : Box3) :
  vy (position (capsuleWall radius b s)) = vy (position b).
Proof.
  unfold capsuleWall.
  destruct (Rltb _ radius && Rgtb _ 0).
  - match goal with
    | |- context [if ?c then _ else _] => destruct c
    end; cbn [position set_position set_velocity addScaledVector vy];
    rewrite normalize_flat_y; ring.
  - destruct (Reqb _ 0); [|reflexivity].
    destruct (Rltb (Rabs _) (Rabs _)); reflexivity.
Qed.

Lemma capsuleVsStatic_y_le (radius h bottom : R) (cb : Box3)
    (b : PhysicsBody) (s : Box3) :
  vy (position b) <= vy (position (capsuleVsStatic radius h bottom cb b s)).
Proof.
  unfold capsuleVsStatic.
  destruct (intersectsBox cb s); [|lra].
  match goal with
  | |- context [if ?c then _ else _] => destruct c
  end.
  - simpl. apply Rmax_l.
  - rewrite capsuleWall_y. lra.
Qed.

(** C9: [resolveCapsule] never decreases [position.y], for every body and
    every list of static colliders. *)
Theorem resolveCapsule_never_lowers (statics : list Box3) (b : PhysicsBody) :
  vy (position b) <= vy (position (resolveCapsule statics b)).
Proof.
  unfold resolveCapsule.
  apply fold_left_invariant.
  - intros a s Ha.
    eapply Rle_trans; [exact Ha | apply capsuleVsStatic_y_le].
  - apply capsuleFloor_y_le.
Qed.

(** ** raycast *)

Lemma raycast_eq (w : PhysicsWorld) (origin direction : Vector3)
    (maxLength : R) :
  raycast w origin direction maxLength
  = if Rltb (vy direction) 0
       && (Rleb 0 (groundParam origin direction)
           && Rleb (groundParam origin direction) maxLength)
    then Some (mkHit (groundParam origin direction)
                 (addScaledVector origin direction
                    (groundParam origin direction))
                 (vec3 0 1 0))
    else None.
Proof.
  unfold raycast, groundParam, Rgeb.
  destruct (Rltb (vy direction) 0); reflexivity.
Qed.

(** C4: [raycast] answers a hit exactly when the direction points down
    ([direction.y < 0]) and [t = -origin.y / direction.y] lies in
    [0, maxLength]; the hit is then the point [origin + t * direction], which
    lies on the plane [y = 0], with normal (0, 1, 0) and distance [t].  In
    every other case there is no result, and the static colliders and the
    bodies of the world never change the answer. *)
Theorem raycast_ground_only (w : PhysicsWorld) (origin direction : Vector3)
    (maxLength : R) :
  ((exists h, raycast w origin direction maxLength = Some h)
   <-> (vy direction < 0
        /\ 0 <= groundParam origin direction <= maxLength))
  /\ (forall h, raycast w origin direction maxLength = Some h ->
        dist h = groundParam origin direction
        /\ point h = addScaledVector origin direction
                       (groundParam origin direction)
        /\ vy (point h) = 0
        /\ normal h = vec3 0 1 0)
  /\ (forall w', raycast w' origin direction maxLength
                 = raycast w origin direction maxLength).
Proof.
  split; [|split]; [| |intros w'; reflexivity]; rewrite raycast_eq;
    destruct (Rltb (vy direction) 0
              && (Rleb 0 (groundParam origin direction)
                  && Rleb (groundParam origin direction) maxLength)) eqn:E.
  - bool_to_prop. split; eauto.
  - split.
    + intros [h Hh]; discriminate.
    + intros [Hd [H0 Hm]]. exfalso.
      apply Rltb_true in Hd. apply Rleb_true in H0. apply Rleb_true in Hm.
      rewrite Hd, H0, Hm in E. discriminate.
  - bool_to_prop. intros h Hh. inversion Hh; subst h; simpl.
    repeat split. unfold groundParam. field. lra.
  - intros h Hh; discriminate.
Qed.

(** ** The resolvers leave the orientation alone *)

Lemma capsuleVsStatic_rotation (radius h bottom : R) (cb : Box3)
    (b : PhysicsBody) (s : Box3) :
  rotation (capsuleVsStatic radius h bottom cb b s) = rotation b.
Proof.
  unfold capsuleVsStatic, capsuleWall.
  repeat match goal with
  | |- context [if ?c then _ else _] => destruct c
  end; reflexivity.
Qed.

Lemma boxVsStatic_rotation (pb : Box3) (b : PhysicsBody) (s : Box3) :
  rotation (boxVsStatic pb b s) = rotation b.
Proof.
  unfold boxVsStatic.
  repeat match goal with
  | |- context [if ?c then _ else _] => destruct c
  end; reflexivity.
Qed.

Lemma resolve_rotation (statics : list Box3) (b : PhysicsBody) :
  rotation (resolve statics b) = rotation b.
Proof.
  unfold resolve. destruct (ctype (collider (set_isGrounded b false))).
  - unfold resolveBox.
    apply (fold_left_invariant (fun a => rotation a = rotation b)).
    + intros a s Ha. now rewrite boxVsStatic_rotation.
    + unfold boxFloor.
      repeat match goal with
      | |- context [if ?c then _ else _] => destruct c
      end; reflexivity.
  - unfold resolveCapsule.
    apply (fold_left_invariant (fun a => rotation a = rotation b)).
    + intros a s Ha. now rewrite capsuleVsStatic_rotation.
    + unfold capsuleFloor.
      repeat match goal with
      | |- context [if ?c then _ else _] => destruct c
      end; reflexivity.
Qed.

(** ** The orientation stays a unit quaternion, in rounded arithmetic *)

Section Rounding.

Variable u : R.
Variable rnd : R -> R.

Hypothesis u_small : 0 <= u <= 1 / 100.
Hypothesis rnd_ok : roundsWithin u rnd.

Lemma rnd_nonneg (a : R) : 0 <= a -> a * (1 - u) <= rnd a <= a * (1 + u).
Proof.
  intros Ha. pose proof (rnd_ok a) as H.
  rewrite (Rabs_pos_eq a) in H by exact Ha.
  unfold Rabs in H. destruct (Rcase_abs (rnd a - a)); lra.
Qed.

Lemma rnd_sqr (a : R) :
  a * a * ((1 - u) * (1 - u)) <= rnd a * rnd a
    <= a * a * ((1 + u) * (1 + u)).
Proof.
  pose proof (rnd_ok a) as H.
  pose proof (Rabs_triang_inv2 (rnd a) a) as Ht.
  pose proof (Rabs_pos a) as Ha. pose proof (Rabs_pos (rnd a)) as Hr.
  assert (Hb : Rabs a * (1 - u) <= Rabs (rnd a) <= Rabs a * (1 + u)).
  { unfold Rabs at 1 in Ht. destruct (Rcase_abs (Rabs (rnd a) - Rabs a)); lra. }
  assert (Ea : a * a = Rabs a * Rabs a)
    by (unfold Rabs; destruct (Rcase_abs a); ring).
  assert (Er : rnd a * rnd a = Rabs (rnd a) * Rabs (rnd a))
    by (unfold Rabs; destruct (Rcase_abs (rnd a)); ring).
  rewrite Ea, Er.
  assert (0 <= Rabs a * (1 - u)) by (apply Rmult_le_pos; lra).
  split.
  - replace (Rabs a * Rabs a * ((1 - u) * (1 - u)))
      with (Rabs a * (1 - u) * (Rabs a * (1 - u))) by ring.
    apply Rmult_le_compat; lra.
  - replace (Rabs a * Rabs a * ((1 + u) * (1 + u)))
      with (Rabs a * (1 + u) * (Rabs a * (1 + u))) by ring.
    apply Rmult_le_compat; lra.
Qed.

Lemma within_refl (a : R) : within u 0 a a.
Proof. unfold within; simpl. lra. Qed.

Lemma pow_lo_pos (k : nat) : 0 < (1 - u) ^ k <= 1.
Proof. induction k as [|k IH]; simpl; [lra | nra]. Qed.

Lemma pow_hi_ge (k : nat) : 1 <= (1 + u) ^ k.
Proof. induction k as [|k IH]; simpl; [lra | nra]. Qed.

Lemma within_nonneg (k : nat) (a b : R) : 0 <= b -> within u k a b -> 0 <= a.
Proof.
  intros Hb [Hl _]. pose proof (pow_lo_pos k).
  apply Rle_trans with (b * (1 - u) ^ k); [nra | exact Hl].
Qed.

Lemma within_rnd (k : nat) (a b : R) :
  0 <= b -> within u k a b -> within u (S k) (rnd a) b.
Proof.
  intros Hb Hw. pose proof (within_nonneg k a b Hb Hw) as Ha.
  destruct Hw as [Hl Hh]. pose proof (rnd_nonneg a Ha) as [Rl Rh].
  pose proof (pow_lo_pos k). pose proof (pow_hi_ge k).
  unfold within. simpl. split.
  - apply Rle_trans with (a * (1 - u)); [|exact Rl].
    replace (b * ((1 - u) * (1 - u) ^ k)) with (b * (1 - u) ^ k * (1 - u))
      by ring.
    apply Rmult_le_compat_r; lra.
  - apply Rle_trans with (a * (1 + u)); [exact Rh|].
    replace (b * ((1 + u) * (1 + u) ^ k)) with (b * (1 + u) ^ k * (1 + u))
      by ring.
    apply Rmult_le_compat_r; lra.
Qed.

Lemma within_add (k : nat) (a b a' b' : R) :
  within u k a b -> within u k a' b' -> within u k (a + a') (b + b').
Proof. unfold within. intros [H1 H2] [H3 H4]. split; nra. Qed.

Lemma within_succ (k : nat) (a b : R) :
  0 <= b -> within u k a b -> within u (S k) a b.
Proof.
  intros Hb [Hl Hh]. pose proof (pow_lo_pos k). pose proof (pow_hi_ge k).
  unfold within. simpl. split.
  - apply Rle_trans with (b * (1 - u) ^ k); [|exact Hl].
    replace (b * ((1 - u) * (1 - u) ^ k)) with ((1 - u) * (b * (1 - u) ^ k))
      by ring.
    assert (0 <= b * (1 - u) ^ k) by nra. nra.
  - apply Rle_trans with (b * (1 + u) ^ k); [exact Hh|].
    replace (b * ((1 + u) * (1 + u) ^ k)) with ((1 + u) * (b * (1 + u) ^ k))
      by ring.
    assert (0 <= b * (1 + u) ^ k) by nra. nra.
Qed.

(** A rounded square. *)
Lemma within_square (a : R) : within u 1 (rnd (a * a)) (a * a).
Proof. apply within_rnd; [nra | apply within_refl]. Qed.

(** The rounded sum of the four squares. *)
Lemma sum_of_squares (x y z w : R) :
  within u 4
    (rnd (rnd (rnd (rnd (x * x) + rnd (y * y)) + rnd (z * z)) + rnd (w * w)))
    (x * x + y * y + z * z + w * w).
Proof.
  assert (Hx := within_square x). assert (Hy := within_square y).
  assert (Hz := within_square z). assert (Hw := within_square w).
  assert (H1 : within u 2 (rnd (rnd (x * x) + rnd (y * y))) (x * x + y * y)).
  { apply within_rnd; [nra|]. now apply within_add. }
  assert (H2 : within u 3 (rnd (rnd (rnd (x * x) + rnd (y * y)) + rnd (z * z)))
                 (x * x + y * y + z * z)).
  { apply within_rnd; [nra|]. apply within_add; [exact H1|].
    apply within_succ; [nra | exact Hz]. }
  apply within_rnd; [nra|]. apply within_add; [exact H2|].
  apply within_succ; [nra|]. apply within_succ; [nra | exact Hw].
Qed.

(** The two polynomial facts behind the bound. *)
Lemma bound_hi : (1 + u) ^ 4 <= (1 + 6 * u) * (1 + 6 * u) * (1 - u) ^ 6.
Proof.
  assert (H : (1 + u) * (1 + u) <= (1 + 6 * u) * ((1 - u) * (1 - u) * (1 - u)))
    by nra.
  assert (H0 : 0 <= (1 + u) * (1 + u)) by nra.
  replace ((1 + u) ^ 4) with ((1 + u) * (1 + u) * ((1 + u) * (1 + u)))
    by (simpl; ring).
  replace ((1 + 6 * u) * (1 + 6 * u) * (1 - u) ^ 6)
    with ((1 + 6 * u) * ((1 - u) * (1 - u) * (1 - u))
          * ((1 + 6 * u) * ((1 - u) * (1 - u) * (1 - u))))
    by (simpl; ring).
  apply Rmult_le_compat; assumption.
Qed.

Lemma bound_lo : (1 - 6 * u) * (1 - 6 * u) * (1 + u) ^ 6 <= (1 - u) ^ 4.
Proof.
  assert (H : (1 - 6 * u) * ((1 + u) * (1 + u) * (1 + u)) <= (1 - u) * (1 - u))
    by nra.
  assert (H0 : 0 <= (1 - 6 * u) * ((1 + u) * (1 + u) * (1 + u))).
  { apply Rmult_le_pos; [lra|]. apply Rmult_le_pos; [nra | lra]. }
  replace ((1 - u) ^ 4) with ((1 - u) * (1 - u) * ((1 - u) * (1 - u)))
    by (simpl; ring).
  replace ((1 - 6 * u) * (1 - 6 * u) * (1 + u) ^ 6)
    with ((1 - 6 * u) * ((1 + u) * (1 + u) * (1 + u))
          * ((1 - 6 * u) * ((1 + u) * (1 + u) * (1 + u))))
    by (simpl; ring).
  apply Rmult_le_compat; assumption.
Qed.


(** [Quaternion.normalize] in rounded arithmetic returns a quaternion whose
    magnitude is within [6 * u] of 1, whatever quaternion it is given: the
    errors of the operations before it do not matter. *)
Lemma qnormalize_near_unit (p : Quaternion) :
  Rabs (qlength (Rounded.qnormalize rnd p) - 1) <= 6 * u.
Proof.
  unfold Rounded.qnormalize.
  destruct (Reqb (Rounded.qlength rnd p) 0) eqn:El; bool_to_prop.
  { unfold qlength; simpl.
    replace (0 * 0 + 0 * 0 + 0 * 0 + 1 * 1) with 1 by ring.
    rewrite sqrt_1. replace (1 - 1) with 0 by ring. rewrite Rabs_R0. lra. }
  destruct p as [x y z w]. unfold Rounded.qlength in *. simpl in *.
  pose proof (sum_of_squares x y z w) as Hs3.
  set (s3 := rnd (rnd (rnd (rnd (x * x) + rnd (y * y)) + rnd (z * z))
                  + rnd (w * w))) in *.
  set (S := x * x + y * y + z * z + w * w) in *.
  assert (HS : 0 <= S) by (unfold S; nra).
  assert (Hs3pos : 0 <= s3) by (apply (within_nonneg 4 s3 S); assumption).
  set (l := rnd (sqrt s3)) in *.
  set (li := rnd (1 / l)).
  set (A := 1 - u). set (B := 1 + u).
  assert (HA : 0 < A <= 1) by (unfold A; lra).
  assert (HB : 1 <= B) by (unfold B; lra).
  assert (HA2 : 0 < A * A <= 1) by nra.
  assert (HB2 : 1 <= B * B) by nra.
  destruct Hs3 as [Hs3l Hs3h]. fold A B in Hs3l, Hs3h.
  assert (EA4 : A ^ 4 = A * A * (A * A)) by (simpl; ring).
  assert (EB4 : B ^ 4 = B * B * (B * B)) by (simpl; ring).
  rewrite EA4 in Hs3l. rewrite EB4 in Hs3h.
  (* the rounded length *)
  assert (Hl2 : s3 * (A * A) <= l * l <= s3 * (B * B)).
  { pose proof (rnd_sqr (sqrt s3)) as H. rewrite sqrt_sqrt in H by exact Hs3pos.
    exact H. }
  assert (Hll : 0 < l * l) by nra.
  assert (Hl6 : S * (A * A * (A * A) * (A * A)) <= l * l
                /\ l * l <= S * (B * B * (B * B) * (B * B))).
  { split.
    - apply Rle_trans with (s3 * (A * A)); [|apply Hl2].
      replace (S * (A * A * (A * A) * (A * A)))
        with (S * (A * A * (A * A)) * (A * A)) by ring.
      apply Rmult_le_compat_r; lra.
    - apply Rle_trans with (s3 * (B * B)); [apply Hl2|].
      replace (S * (B * B * (B * B) * (B * B)))
        with (S * (B * B * (B * B)) * (B * B)) by ring.
      apply Rmult_le_compat_r; lra. }
  assert (HSpos : 0 < S).
  { destruct (Rle_lt_or_eq_dec 0 S HS) as [H|H]; [exact H|].
    rewrite <- H in Hl6. lra. }
  (* the rounded inverse *)
  assert (HG : A <= l * li <= B).
  { pose proof (rnd_ok (1 / l)) as H. fold li in H.
    assert (E : l * li - 1 = l * (li - 1 / l)) by (field; exact El).
    assert (Hab : Rabs (l * li - 1) <= u).
    { rewrite E, Rabs_mult.
      apply Rle_trans with (Rabs l * (u * Rabs (1 / l))).
      - apply Rmult_le_compat_l; [apply Rabs_pos | exact H].
      - assert (E1 : Rabs l * Rabs (1 / l) = 1).
        { rewrite <- Rabs_mult.
          replace (l * (1 / l)) with 1 by (field; exact El).
          apply Rabs_R1. }
        replace (Rabs l * (u * Rabs (1 / l)))
          with (u * (Rabs l * Rabs (1 / l))) by ring.
        rewrite E1. lra. }
    unfold Rabs in Hab. unfold A, B.
    destruct (Rcase_abs (l * li - 1)); lra. }
  assert (HG2 : A * A <= l * li * (l * li) <= B * B).
  { split; apply Rmult_le_compat; lra. }
  (* the rounded components *)
  set (M2 := rnd (x * li) * rnd (x * li) + rnd (y * li) * rnd (y * li)
             + rnd (z * li) * rnd (z * li) + rnd (w * li) * rnd (w * li)).
  assert (HM : S * (li * li) * (A * A) <= M2 <= S * (li * li) * (B * B)).
  { pose proof (rnd_sqr (x * li)) as Hx. pose proof (rnd_sqr (y * li)) as Hy.
    pose proof (rnd_sqr (z * li)) as Hz. pose proof (rnd_sqr (w * li)) as Hw.
    fold A B in Hx, Hy, Hz, Hw. unfold M2, S.
    split.
    - replace ((x * x + y * y + z * z + w * w) * (li * li) * (A * A))
        with (x * li * (x * li) * (A * A) + y * li * (y * li) * (A * A)
              + z * li * (z * li) * (A * A) + w * li * (w * li) * (A * A))
        by ring.
      lra.
    - replace ((x * x + y * y + z * z + w * w) * (li * li) * (B * B))
        with (x * li * (x * li) * (B * B) + y * li * (y * li) * (B * B)
              + z * li * (z * li) * (B * B) + w * li * (w * li) * (B * B))
        by ring.
      lra. }
  assert (HM0 : 0 <= M2) by (unfold M2; nra).
  assert (HMl : S * (A * A * (A * A)) <= M2 * (l * l)
                /\ M2 * (l * l) <= S * (B * B * (B * B))).
  { split.
    - apply Rle_trans with (S * (li * li) * (A * A) * (l * l)).
      + replace (S * (li * li) * (A * A) * (l * l))
          with (S * (A * A) * (l * li * (l * li))) by ring.
        replace (S * (A * A * (A * A))) with (S * (A * A) * (A * A)) by ring.
        apply Rmult_le_compat_l; [nra | apply HG2].
      + apply Rmult_le_compat_r; [lra | apply HM].
    - apply Rle_trans with (S * (li * li) * (B * B) * (l * l)).
      + apply Rmult_le_compat_r; [lra | apply HM].
      + replace (S * (li * li) * (B * B) * (l * l))
          with (S * (B * B) * (l * li * (l * li))) by ring.
        replace (S * (B * B * (B * B))) with (S * (B * B) * (B * B)) by ring.
        apply Rmult_le_compat_l; [nra | apply HG2]. }
  (* the magnitude of the result *)
  pose proof bound_hi as Hhi. pose proof bound_lo as Hlo.
  fold A B in Hhi, Hlo. rewrite EB4 in Hhi. rewrite EA4 in Hlo.
  assert (EA6 : A ^ 6 = A * A * (A * A) * (A * A)) by (simpl; ring).
  assert (EB6 : B ^ 6 = B * B * (B * B) * (B * B)) by (simpl; ring).
  rewrite EA6 in Hhi. rewrite EB6 in Hlo.
  set (A6 := A * A * (A * A) * (A * A)) in *.
  set (B6 := B * B * (B * B) * (B * B)) in *.
  set (A4 := A * A * (A * A)) in *. set (B4 := B * B * (B * B)) in *.
  assert (HA6 : 0 < A6) by (unfold A6; repeat apply Rmult_lt_0_compat; lra).
  assert (HB6 : 0 < B6) by (unfold B6; repeat apply Rmult_lt_0_compat; lra).
  assert (Hup : M2 <= (1 + 6 * u) * (1 + 6 * u)).
  { apply Rmult_le_reg_r with (S * A6); [apply Rmult_lt_0_compat; lra|].
    apply Rle_trans with (M2 * (l * l)).
    - apply Rmult_le_compat_l; [exact HM0 | apply Hl6].
    - apply Rle_trans with (S * B4); [apply HMl|].
      replace ((1 + 6 * u) * (1 + 6 * u) * (S * A6))
        with (S * ((1 + 6 * u) * (1 + 6 * u) * A6)) by ring.
      apply Rmult_le_compat_l; lra. }
  assert (Hdown : (1 - 6 * u) * (1 - 6 * u) <= M2).
  { apply Rmult_le_reg_r with (S * B6); [apply Rmult_lt_0_compat; lra|].
    apply Rle_trans with (M2 * (l * l)).
    - apply Rle_trans with (S * A4); [|apply HMl].
      replace ((1 - 6 * u) * (1 - 6 * u) * (S * B6))
        with (S * ((1 - 6 * u) * (1 - 6 * u) * B6)) by ring.
      apply Rmult_le_compat_l; lra.
    - apply Rmult_le_compat_l; [exact HM0 | apply Hl6]. }
  unfold qlength. simpl. fold li. fold M2.
  assert (Hs1 : 1 - 6 * u <= sqrt M2).
  { rewrite <- (sqrt_square (1 - 6 * u)) by lra. now apply sqrt_le_1_alt. }
  assert (Hs2 : sqrt M2 <= 1 + 6 * u).
  { rewrite <- (sqrt_square (1 + 6 * u)) by lra. now apply sqrt_le_1_alt. }
  unfold Rabs. destruct (Rcase_abs (sqrt M2 - 1)); lra.
Qed.

(** The orientation through any history of sub-steps: its magnitude stays
    within [6 * u] of 1. *)
Lemma turns_near_unit (sinF cosF : R -> R) (q0 q : Quaternion) :
  Rabs (qlength q0 - 1) <= 6 * u ->
  turns rnd sinF cosF q0 q ->
  Rabs (qlength q - 1) <= 6 * u.
Proof.
  intros H0 Ht. induction Ht as [|q w dt Ht IH]; [exact H0|].
  unfold Rounded.rotate.
  destruct (Rgtb _ 0.0001); [apply qnormalize_near_unit | exact IH].
Qed.

End Rounding.

(** In exact arithmetic the rounded update is the update of [integrate]. *)
Lemma rotate_exact (dt : R) (b : PhysicsBody) :
  rotation (integrate dt b)
  = Rounded.rotate (fun x => x) sin cos (rotation b)
      (multiplyScalar (angularVelocity b) (1.0 - 2.0 * dt)) dt.
Proof.
  unfold integrate, Rounded.rotate. cbv zeta.
  cbn [angularVelocity set_position set_angularVelocity set_velocity].
  change (Rounded.length (fun x => x)
            (multiplyScalar (angularVelocity b) (1.0 - 2.0 * dt)))
    with (Three.length (multiplyScalar (angularVelocity b) (1.0 - 2.0 * dt))).
  destruct (Rgtb _ 0.0001); reflexivity.
Qed.

Lemma evolves_turns (b b' : PhysicsBody) :
  evolves b b' -> turns (fun x => x) sin cos (rotation b) (rotation b').
Proof.
  induction 1 as [|b' dt statics Hev IH|b' w Hev IH].
  - constructor.
  - unfold simulateBody.
    destruct (Reqb (mass b') 0); [exact IH|].
    destruct (Rltb (vy (position b')) (-20)); [exact IH|].
    rewrite resolve_rotation, rotate_exact. now constructor.
  - exact IH.
Qed.

Lemma exact_rounding : roundsWithin 0 (fun x => x).
Proof.
  intros x. replace (x - x) with 0 by ring. rewrite Rabs_R0. lra.
Qed.

(** C7: a body whose orientation starts as a unit quaternion keeps an
    orientation of magnitude close to 1 through every finite history of
    sub-steps, whatever the time steps and the angular velocities along the
    way.  In floating-point arithmetic with unit roundoff [u] (every
    operation rounded with a relative error of at most [u], the sine and
    the cosine returning whatever they like) the magnitude stays within
    [6 * u] of 1, because each rotating sub-step ends in
    [Quaternion.normalize]; a sub-step whose angle is not above 0.0001
    leaves the orientation as it is.  In exact arithmetic, which is the
    case [u = 0], the histories of a body under [simulate] are such
    histories and the magnitude stays exactly 1. *)
Theorem orientation_stays_unit (u : R) (rnd sinF cosF : R -> R) :
  0 <= u <= 1 / 100 ->
  roundsWithin u rnd ->
  (forall q0 q, Rabs (qlength q0 - 1) <= 6 * u ->
                turns rnd sinF cosF q0 q ->
                Rabs (qlength q - 1) <= 6 * u)
  /\ (forall q w dt, rnd (Rounded.length rnd w * dt) <= 0.0001 ->
                     Rounded.rotate rnd sinF cosF q w dt = q)
  /\ (forall b b', evolves b b' ->
                   turns (fun x => x) sin cos (rotation b) (rotation b'))
  /\ (forall b b', evolves b b' ->
                   qlength (rotation b) = 1 -> qlength (rotation b') = 1).
Proof.
  intros Hu Hr. split; [|split; [|split]].
  - intros q0 q. now apply turns_near_unit.
  - intros q w dt Ha. unfold Rounded.rotate, Rgtb.
    replace (Rltb 0.0001 _) with false
      by (symmetry; apply Rltb_false; exact Ha).
    reflexivity.
  - exact evolves_turns.
  - intros b b' Hev H1.
    assert (H : Rabs (qlength (rotation b') - 1) <= 6 * 0).
    { apply (turns_near_unit 0 (fun x => x) ltac:(lra) exact_rounding
               sin cos (rotation b)).
      - rewrite H1. replace (1 - 1) with 0 by ring. rewrite Rabs_R0. lra.
      - now apply evolves_turns. }
    pose proof (Rabs_pos (qlength (rotation b') - 1)) as Hp.
    assert (E : Rabs (qlength (rotation b') - 1) = 0) by lra.
    destruct (Req_dec (qlength (rotation b') - 1) 0) as [E0|E0]; [lra|].
    apply Rabs_no_R0 in E0. contradiction.
Qed.

(** ** Damping *)

Ltac destruct_ifs :=
  repeat match goal with
  | |- context [if ?c then _ else _] => destruct c
  end.

Lemma integrate_velocity (dt : R) (b : PhysicsBody) :
  velocity (integrate dt b)
  = multiplyScalar (addScaledVector (velocity b) GRAVITY dt)
      (1.0 - (if isGrounded b then 0.05 else 0.01)).
Proof.
  unfold integrate. cbn [isGrounded set_velocity velocity].
  destruct (isGrounded b); destruct_ifs; reflexivity.
Qed.

Lemma integrate_angularVelocity (dt : R) (b : PhysicsBody) :
  angularVelocity (integrate dt b)
  = multiplyScalar (angularVelocity b) (1.0 - 2.0 * dt).
Proof. unfold integrate. destruct_ifs; reflexivity. Qed.

Lemma integrate_position (dt : R) (b : PhysicsBody) :
  position (integrate dt b)
  = addScaledVector (position b) (velocity (integrate dt b)) dt.
Proof. unfold integrate. destruct_ifs; reflexivity. Qed.

Lemma integrate_shape (dt : R) (b : PhysicsBody) :
  mass (integrate dt b) = mass b
  /\ size (integrate dt b) = size b
  /\ collider (integrate dt b) = collider b
  /\ isGrounded (integrate dt b) = isGrounded b.
Proof. unfold integrate. destruct_ifs; repeat split. Qed.

Lemma capsuleVsStatic_angularVelocity (radius h bottom : R) (cb : Box3)
    (b : PhysicsBody) (s : Box3) :
  angularVelocity (capsuleVsStatic radius h bottom cb b s) = angularVelocity b.
Proof. unfold capsuleVsStatic, capsuleWall. destruct_ifs; reflexivity. Qed.

Lemma boxVsStatic_angularVelocity (pb : Box3) (b : PhysicsBody) (s : Box3) :
  angularVelocity (boxVsStatic pb b s) = angularVelocity b.
Proof. unfold boxVsStatic. destruct_ifs; reflexivity. Qed.

Lemma resolve_angularVelocity (statics : list Box3) (b : PhysicsBody) :
  angularVelocity (resolve statics b) = angularVelocity b.
Proof.
  unfold resolve. destruct (ctype (collider (set_isGrounded b false))).
  - unfold resolveBox.
    apply (fold_left_invariant
             (fun a => angularVelocity a = angularVelocity b)).
    + intros a s Ha. now rewrite boxVsStatic_angularVelocity.
    + unfold boxFloor. destruct_ifs; reflexivity.
  - unfold resolveCapsule.
    apply (fold_left_invariant
             (fun a => angularVelocity a = angularVelocity b)).
    + intros a s Ha. now rewrite capsuleVsStatic_angularVelocity.
    + unfold capsuleFloor. destruct_ifs; reflexivity.
Qed.

(** What a sub-step does to the two velocities, as rewrite rules. *)
Create Rewrite HintDb substep.
#[local] Hint Rewrite resolve_angularVelocity integrate_angularVelocity
  integrate_velocity : substep.

Lemma simulateBody_dynamic (dt : R) (statics : list Box3) (b : PhysicsBody) :
  mass b <> 0 -> -20 <= vy (position b) ->
  simulateBody dt statics b = resolve statics (integrate dt b).
Proof.
  intros Hm Hy. unfold simulateBody.
  replace (Reqb (mass b) 0) with false
    by (symmetry; now apply Reqb_false).
  replace (Rltb (vy (position b)) (-20)) with false
    by (symmetry; now apply Rltb_false).
  reflexivity.
Qed.

Lemma step_is_four_substeps (dt : R) (w : PhysicsWorld) :
  step dt w
  = simulate (dt / 4) (simulate (dt / 4) (simulate (dt / 4)
      (simulate (dt / 4) w))).
Proof.
  unfold step. replace (INR 4) with 4 by (simpl; ring). reflexivity.
Qed.

(** A capsule falling freely with no static colliders around: the
    sub-step integrates it and finds nothing to resolve. *)
Lemma falling_capsule_substep (dt : R) (b : PhysicsBody) :
  0 < dt ->
  mass b <> 0 ->
  ctype (collider b) = capsule ->
  -20 <= vy (position b) ->
  vy (velocity b) <= 0 ->
  capsuleHalfHeight b <= vy (position b) + (vy (velocity b) - 25 * dt) * dt ->
  let b' := simulateBody dt [] b in
  mass b' = mass b /\ collider b' = collider b
  /\ vy (position b) + (vy (velocity b) - 25 * dt) * dt <= vy (position b')
  /\ vy (velocity b) - 25 * dt <= vy (velocity b') <= 0
  /\ angularVelocity b' = multiplyScalar (angularVelocity b) (1.0 - 2.0 * dt).
Proof.
  intros Hdt Hm Hc Hy Hv Hh b'. unfold b'. clear b'.
  rewrite simulateBody_dynamic by assumption.
  destruct (integrate_shape dt b) as (Im & Is & Ic & Ig).
  set (d := if isGrounded b then 0.05 else 0.01).
  assert (Hd : 0 < 1.0 - d <= 1) by (unfold d; destruct (isGrounded b); lra).
  assert (Ivy : vy (velocity (integrate dt b))
                = (vy (velocity b) - 25 * dt) * (1.0 - d)).
  { rewrite integrate_velocity. fold d.
    unfold multiplyScalar, addScaledVector, GRAVITY; simpl. ring. }
  assert (Ipy : vy (position (integrate dt b))
                = vy (position b)
                  + (vy (velocity b) - 25 * dt) * (1.0 - d) * dt).
  { rewrite integrate_position. unfold addScaledVector; simpl.
    rewrite Ivy. ring. }
  assert (Hlow : vy (velocity b) - 25 * dt
                 <= (vy (velocity b) - 25 * dt) * (1.0 - d) <= 0) by nra.
  assert (E : resolve [] (integrate dt b)
              = set_isGrounded (integrate dt b) false).
  { unfold resolve. cbn [collider set_isGrounded]. rewrite Ic, Hc.
    unfold resolveCapsule, capsuleFloor.
    cbn [fold_left collider position set_isGrounded]. rewrite Ic.
    replace (Rltb _ _) with false; [reflexivity|].
    symmetry. apply Rltb_false. unfold capsuleHalfHeight in Hh.
    rewrite Ipy. nra. }
  rewrite E. cbn [mass collider position velocity angularVelocity
                  set_isGrounded].
  rewrite Im, Ic, Ipy, Ivy, integrate_angularVelocity.
  repeat split; nra.
Qed.

(** A capsule standing on the ground plane with its grounded flag set, in a
    world without static colliders: a sub-step damps its horizontal velocity
    by 5 percent, whatever [dt], and the floor clamp grounds it again. *)
Lemma sliding_capsule_substep (dt : R) (b : PhysicsBody) :
  0 < dt ->
  mass b <> 0 ->
  ctype (collider b) = capsule ->
  vy (position b) = capsuleHalfHeight b ->
  -20 <= vy (position b) ->
  vy (velocity b) = 0 ->
  isGrounded b = true ->
  simulateBody dt [] b
  = mkBody (mass b)
      (vec3 (vx (position b) + vx (velocity b) * 0.95 * dt)
            (vy (position b))
            (vz (position b) + vz (velocity b) * 0.95 * dt))
      (vec3 (vx (velocity b) * 0.95) 0 (vz (velocity b) * 0.95))
      (rotation (integrate dt b))
      (multiplyScalar (angularVelocity b) (1.0 - 2.0 * dt))
      (size b) (collider b) true (isSleeping b).
Proof.
  intros Hdt Hm Hc Hy Hv20 Hv Hg.
  rewrite simulateBody_dynamic by assumption.
  destruct (integrate_shape dt b) as (Im & Is & Ic & Ig).
  assert (Isl : isSleeping (integrate dt b) = isSleeping b)
    by (unfold integrate; destruct_ifs; reflexivity).
  assert (Ivel : velocity (integrate dt b)
                 = vec3 (vx (velocity b) * 0.95) (- 25 * dt * 0.95)
                        (vz (velocity b) * 0.95)).
  { rewrite integrate_velocity, Hg.
    unfold multiplyScalar, addScaledVector, GRAVITY; simpl.
    rewrite Hv. f_equal; lra. }
  assert (Ipos : position (integrate dt b)
                 = vec3 (vx (position b) + vx (velocity b) * 0.95 * dt)
                        (vy (position b) + - 25 * dt * 0.95 * dt)
                        (vz (position b) + vz (velocity b) * 0.95 * dt)).
  { rewrite integrate_position, Ivel. unfold addScaledVector; simpl.
    f_equal; ring. }
  unfold resolve. cbn [collider set_isGrounded]. rewrite Ic, Hc.
  unfold resolveCapsule, capsuleFloor.
  cbn [fold_left collider position velocity set_isGrounded set_position
       set_velocity].
  rewrite Ic, Ipos, Ivel. cbn [vx vy vz set_y].
  unfold capsuleHalfHeight in Hy.
  replace (Rltb _ (vy (csize (collider b)) / 2)) with true
    by (symmetry; apply Rltb_true; nra).
  replace (Rltb _ 0) with true by (symmetry; apply Rltb_true; nra).
  unfold set_velocity, set_position, set_isGrounded; simpl.
  rewrite Im, Is, Ic, Isl, integrate_angularVelocity, <- Hy.
  reflexivity.
Qed.

(** Four such sub-steps: one call of [step]. *)
Lemma sliding_capsule_step (dt : R) (w : PhysicsWorld) (i : nat)
    (b : PhysicsBody) :
  0 < dt ->
  mass b <> 0 ->
  ctype (collider b) = capsule ->
  vy (position b) = capsuleHalfHeight b ->
  -20 <= vy (position b) ->
  vy (velocity b) = 0 ->
  isGrounded b = true ->
  staticColliders w = [] ->
  nth_error (bodies w) i = Some b ->
  exists b', nth_error (bodies (step (4 * dt) w)) i = Some b'
    /\ velocity b'
       = vec3 (vx (velocity b) * 0.95 ^ 4) 0 (vz (velocity b) * 0.95 ^ 4)
    /\ angularVelocity b'
       = multiplyScalar (angularVelocity b) ((1 - 2 * dt) ^ 4)
    /\ isGrounded b' = true.
Proof.
  intros Hdt Hm Hc Hy Hv20 Hv Hg Hs Hi.
  assert (Hstep : forall a,
            mass a = mass b /\ collider a = collider b
            /\ vy (position a) = vy (position b)
            /\ vy (velocity a) = 0 /\ isGrounded a = true ->
            let a' := simulateBody dt [] a in
            (mass a' = mass b /\ collider a' = collider b
             /\ vy (position a') = vy (position b)
             /\ vy (velocity a') = 0 /\ isGrounded a' = true)
            /\ velocity a'
               = vec3 (vx (velocity a) * 0.95) 0 (vz (velocity a) * 0.95)
            /\ angularVelocity a'
               = multiplyScalar (angularVelocity a) (1.0 - 2.0 * dt)).
  { intros a (Am & Ac & Ay & Av & Ag) a'. unfold a'.
    rewrite sliding_capsule_substep;
      try (rewrite ?Am, ?Ac, ?Ay; assumption).
    - simpl. repeat split; assumption.
    - unfold capsuleHalfHeight. rewrite Ac, Ay. exact Hy. }
  eexists. split.
  { rewrite step_is_four_substeps.
    replace (4 * dt / 4) with dt by field.
    apply simulate_body_at, simulate_body_at, simulate_body_at,
      simulate_body_at. exact Hi. }
  cbn [staticColliders simulate]. rewrite Hs.
  destruct (Hstep b) as (I1 & V1 & W1); [repeat split; assumption|].
  set (b1 := simulateBody dt [] b) in *.
  destruct (Hstep b1 I1) as (I2 & V2 & W2).
  set (b2 := simulateBody dt [] b1) in *.
  destruct (Hstep b2 I2) as (I3 & V3 & W3).
  set (b3 := simulateBody dt [] b2) in *.
  destruct (Hstep b3 I3) as (I4 & V4 & W4).
  set (b4 := simulateBody dt [] b3) in *.
  split; [|split].
  - rewrite V4, V3, V2, V1. simpl. f_equal; ring.
  - rewrite W4, W3, W2, W1.
    replace (1.0 - 2.0 * dt) with (1 - 2 * dt) by lra.
    unfold multiplyScalar; simpl. f_equal; ring.
  - apply I4.
Qed.

(** A dynamic body below the void bound: the sub-step teleports it and
    zeroes its velocity, and damps neither its linear nor its angular
    velocity.  Over the whole [step] its angular velocity is damped in three
    of the four sub-steps only. *)
Lemma damping_skipped_below_void :
  mass voidBody <> 0
  /\ angularVelocity (simulateBody 0.1 [] voidBody)
     <> multiplyScalar (angularVelocity voidBody) (1.0 - 2.0 * 0.1)
  /\ velocity (simulateBody 0.1 [] voidBody)
     <> multiplyScalar (addScaledVector (velocity voidBody) GRAVITY 0.1)
          (1.0 - 0.05)
  /\ exists b', nth_error (bodies (step 0.4 (mkWorld [voidBody] []))) 0
                = Some b'
                /\ angularVelocity b' = vec3 0.512 0 0.
Proof.
  assert (E : simulateBody 0.1 [] voidBody
              = set_velocity (set_position voidBody (vec3 0 10 0))
                             (vec3 0 0 0)).
  { unfold simulateBody, voidBody; simpl. decide_cmp. reflexivity. }
  split; [simpl; lra|]. split; [|split].
  - rewrite E. unfold voidBody, multiplyScalar; simpl. intros H.
    apply (f_equal vx) in H; simpl in H. lra.
  - rewrite E. unfold voidBody, multiplyScalar, addScaledVector; simpl.
    intros H. apply (f_equal vx) in H; simpl in H. lra.
  - eexists. split.
    + rewrite step_is_four_substeps.
      replace (0.4 / 4) with 0.1 by lra.
      apply simulate_body_at, simulate_body_at, simulate_body_at,
        simulate_body_at. reflexivity.
    + simpl. rewrite E.
      set (b1 := set_velocity (set_position voidBody (vec3 0 10 0))
                              (vec3 0 0 0)).
      assert (Hhh : forall b, collider b = collider b1 ->
                              capsuleHalfHeight b = 0.85).
      { intros b Hb. unfold capsuleHalfHeight. rewrite Hb.
        unfold b1, voidBody; simpl. lra. }
      destruct (falling_capsule_substep 0.1 b1) as (M2 & C2 & Y2 & V2 & W2);
        try (unfold b1, voidBody; simpl; lra).
      { reflexivity. }
      { rewrite (Hhh b1 eq_refl). unfold b1, voidBody; simpl. lra. }
      set (b2 := simulateBody 0.1 [] b1) in *.
      assert (Y1 : vy (position b1) = 10) by reflexivity.
      assert (V1 : vy (velocity b1) = 0) by reflexivity.
      assert (M1 : mass b1 = 75) by reflexivity.
      destruct (falling_capsule_substep 0.1 b2) as (M3 & C3 & Y3 & V3 & W3);
        try lra.
      { rewrite C2. reflexivity. }
      { rewrite (Hhh b2 C2). lra. }
      set (b3 := simulateBody 0.1 [] b2) in *.
      destruct (falling_capsule_substep 0.1 b3) as (M4 & C4 & Y4 & V4 & W4);
        try lra.
      { rewrite C3, C2. reflexivity. }
      { rewrite (Hhh b3 (eq_trans C3 C2)). lra. }
      rewrite W4, W3, W2. unfold b1, voidBody, multiplyScalar; simpl.
      f_equal; lra.
Qed.

(** C3, as stated, fails: the damping is not 5 percent per call of [step].
    A capsule sliding over the ground plane, grounded throughout, leaves one
    call of [step] with 0.95 ^ 4 = 0.81450625 of its horizontal velocity, and
    that whether the call advances time by 0.04 or by 0.4; its angular
    velocity is multiplied by [(1 - dt / 2) ^ 4].  And a body below the void
    bound is not damped at all in the sub-step that teleports it. *)
Lemma damping_four_times_per_step :
  mass slidingPlayer <> 0
  /\ isGrounded slidingPlayer = true
  /\ (exists b', nth_error (bodies (step 0.04 (mkWorld [slidingPlayer] []))) 0
                 = Some b'
                 /\ isGrounded b' = true
                 /\ velocity b' = vec3 0.81450625 0 0
                 /\ velocity b' <> multiplyScalar (velocity slidingPlayer) 0.95
                 /\ angularVelocity b' = vec3 0 0.92236816 0)
  /\ (exists b', nth_error (bodies (step 0.4 (mkWorld [slidingPlayer] []))) 0
                 = Some b'
                 /\ isGrounded b' = true
                 /\ velocity b' = vec3 0.81450625 0 0
                 /\ angularVelocity b' = vec3 0 0.4096 0)
  /\ mass voidBody <> 0
  /\ angularVelocity (simulateBody 0.1 [] voidBody)
     <> multiplyScalar (angularVelocity voidBody) (1.0 - 2.0 * 0.1)
  /\ velocity (simulateBody 0.1 [] voidBody)
     <> multiplyScalar (addScaledVector (velocity voidBody) GRAVITY 0.1)
          (1.0 - 0.05).
Proof.
  assert (Hm : mass slidingPlayer <> 0) by (simpl; lra).
  assert (Hslide : forall dt, 0 < dt ->
            exists b', nth_error (bodies (step (4 * dt)
                                            (mkWorld [slidingPlayer] []))) 0
                       = Some b'
              /\ velocity b' = vec3 (1 * 0.95 ^ 4) 0 (0 * 0.95 ^ 4)
              /\ angularVelocity b'
                 = multiplyScalar (vec3 0 1 0) ((1 - 2 * dt) ^ 4)
              /\ isGrounded b' = true).
  { intros dt Hdt.
    apply (sliding_capsule_step dt (mkWorld [slidingPlayer] []) 0
             slidingPlayer); try reflexivity; try assumption.
    - unfold capsuleHalfHeight; simpl. lra.
    - simpl. lra. }
  split; [exact Hm|]. split; [reflexivity|]. split; [|split].
  - destruct (Hslide 0.01 ltac:(lra)) as (b' & Hb & Hv & Hw & Hg).
    replace (4 * 0.01) with 0.04 in Hb by lra.
    exists b'. split; [exact Hb|]. split; [exact Hg|].
    assert (Ev : velocity b' = vec3 0.81450625 0 0)
      by (rewrite Hv; f_equal; lra).
    split; [exact Ev|]. split.
    + rewrite Ev. unfold multiplyScalar; simpl. intros H.
      apply (f_equal vx) in H; simpl in H. lra.
    + rewrite Hw. unfold multiplyScalar; simpl. f_equal; lra.
  - destruct (Hslide 0.1 ltac:(lra)) as (b' & Hb & Hv & Hw & Hg).
    replace (4 * 0.1) with 0.4 in Hb by lra.
    exists b'. split; [exact Hb|]. split; [exact Hg|]. split.
    + rewrite Hv; f_equal; lra.
    + rewrite Hw. unfold multiplyScalar; simpl. f_equal; lra.
  - destruct damping_skipped_below_void as (H1 & H2 & H3 & _).
    repeat split; assumption.
Qed.

(** C3 (amended): a call to [step] is four sub-steps of a quarter of its
    [dt], and the damping is applied in each of them.  In a sub-step, a
    dynamic body that is not below the void bound ([position.y >= -20]) is
    integrated and then resolved; the integration adds gravity and
    multiplies the linear velocity by 0.95 when the body is grounded on
    entry and by 0.99 when it is not, whatever [dt]; the angular velocity is
    multiplied by [1 - 2 * dt] and the resolvers leave it alone.  A dynamic
    body below the void bound is teleported with its velocity zeroed and
    its angular velocity is not damped.  So a capsule on the ground plane,
    grounded on entry, in a world without static colliders, leaves one call
    of [step] with 0.95 ^ 4 of its horizontal velocity. *)
Theorem damping_per_substep (dt : R) (statics : list Box3) (b : PhysicsBody) :
  mass b <> 0 ->
  (forall w, step (4 * dt) w
             = simulate dt (simulate dt (simulate dt (simulate dt w))))
  /\ (-20 <= vy (position b) ->
      simulateBody dt statics b = resolve statics (integrate dt b)
      /\ velocity (integrate dt b)
         = multiplyScalar (addScaledVector (velocity b) GRAVITY dt)
             (if isGrounded b then 0.95 else 0.99)
      /\ angularVelocity (simulateBody dt statics b)
         = multiplyScalar (angularVelocity b) (1 - 2 * dt))
  /\ (vy (position b) < -20 ->
      position (simulateBody dt statics b) = vec3 0 10 0
      /\ velocity (simulateBody dt statics b) = vec3 0 0 0
      /\ angularVelocity (simulateBody dt statics b) = angularVelocity b)
  /\ (0 < dt ->
      ctype (collider b) = capsule ->
      vy (position b) = capsuleHalfHeight b ->
      -20 <= vy (position b) ->
      vy (velocity b) = 0 ->
      isGrounded b = true ->
      forall w i,
      staticColliders w = [] ->
      nth_error (bodies w) i = Some b ->
      exists b', nth_error (bodies (step (4 * dt) w)) i = Some b'
        /\ velocity b'
           = vec3 (vx (velocity b) * 0.95 ^ 4) 0 (vz (velocity b) * 0.95 ^ 4)
        /\ angularVelocity b'
           = multiplyScalar (angularVelocity b) ((1 - 2 * dt) ^ 4)
        /\ isGrounded b' = true).
Proof.
  intros Hm. split; [|split; [|split]].
  - intros w. rewrite step_is_four_substeps.
    replace (4 * dt / 4) with dt by field. reflexivity.
  - intros Hy. rewrite (simulateBody_dynamic _ _ _ Hm Hy).
    autorewrite with substep.
    repeat split.
    + f_equal. destruct (isGrounded b); lra.
    + f_equal. lra.
  - intros Hy. unfold simulateBody.
    replace (Reqb (mass b) 0) with false
      by (symmetry; now apply Reqb_false).
    replace (Rltb (vy (position b)) (-20)) with true
      by (symmetry; now apply Rltb_true).
    repeat split.
  - intros Hdt Hc Hh Hy Hv Hg w i Hs Hi.
    now apply sliding_capsule_step.
Qed.

(** ** Determinism *)


(** ** The body list as a list of references *)











(** ** Step climbing *)

Lemma dot_addScaledVector (a v c : Vector3) (k : R) :
  dot (addScaledVector a v k) c = dot a c + k * dot v c.
Proof. unfold dot, addScaledVector; simpl. ring. Qed.

Lemma lengthSq_nonneg (a : Vector3) : 0 <= lengthSq a.
Proof. unfold lengthSq. nra. Qed.

Lemma length_nonneg (a : Vector3) : 0 <= Three.length a.
Proof. unfold Three.length. apply sqrt_pos. Qed.

Lemma length_sqr (a : Vector3) :
  Three.length a * Three.length a = lengthSq a.
Proof. unfold Three.length. apply sqrt_sqrt, lengthSq_nonneg. Qed.

Lemma normalize_unit (a : Vector3) :
  Three.length a <> 0 -> dot (normalize a) (normalize a) = 1.
Proof.
  intros Hl. unfold normalize.
  replace (Reqb (Three.length a) 0) with false
    by (symmetry; now apply Reqb_false).
  unfold divideScalar, multiplyScalar, dot; simpl.
  pose proof (length_sqr a) as Hs. unfold lengthSq in Hs.
  set (l := Three.length a) in *.
  replace (vx a * (1 / l) * (vx a * (1 / l))
           + vy a * (1 / l) * (vy a * (1 / l))
           + vz a * (1 / l) * (vz a * (1 / l)))
    with ((vx a * vx a + vy a * vy a + vz a * vz a) / (l * l))
    by (field; exact Hl).
  rewrite <- Hs. field. exact Hl.
Qed.

Lemma capsuleWall_contact (radius : R) (b : PhysicsBody) (s : Box3) :
  0 < Three.length (wallDiff b s) < radius ->
  0 <= dot (velocity (capsuleWall radius b s)) (normalize (wallDiff b s)).
Proof.
  intros [H0 Hr]. unfold capsuleWall. fold (wallDiff b s).
  unfold Rgtb.
  replace (Rltb (Three.length (wallDiff b s)) radius) with true
    by (symmetry; now apply Rltb_true).
  replace (Rltb 0 (Three.length (wallDiff b s))) with true
    by (symmetry; now apply Rltb_true).
  cbn [andb velocity set_position].
  destruct (Rltb (dot (velocity b) (normalize (wallDiff b s))) 0) eqn:E;
    bool_to_prop.
  - cbn [velocity set_velocity]. rewrite dot_addScaledVector.
    rewrite normalize_unit by lra. lra.
  - exact E.
Qed.

Lemma capsuleWall_keeps_height (radius : R) (b : PhysicsBody) (s : Box3) :
  vy (position (capsuleWall radius b s)) = vy (position b)
  /\ vy (velocity (capsuleWall radius b s)) = vy (velocity b)
  /\ isGrounded (capsuleWall radius b s) = isGrounded b.
Proof.
  split; [apply capsuleWall_y|].
  unfold capsuleWall.
  destruct (Rltb _ radius && Rgtb _ 0).
  - match goal with
    | |- context [if ?c then _ else _] => destruct c
    end; cbn [velocity isGrounded set_position set_velocity addScaledVector vy];
    rewrite ?normalize_flat_y; split; try reflexivity; ring.
  - destruct (Reqb _ 0); [|split; reflexivity].
    destruct (Rltb (Rabs _) (Rabs _)); split; reflexivity.
Qed.

(** The loop of [resolveCapsule], one iteration at a time. *)

Lemma capsuleHalfHeight_afterFloor (b : PhysicsBody) :
  capsuleHalfHeight (afterFloor b) = capsuleHalfHeight b.
Proof.
  unfold capsuleHalfHeight, afterFloor, capsuleFloor.
  destruct_ifs; reflexivity.
Qed.

Lemma resolveCapsule_loop (statics : list Box3) (b : PhysicsBody) :
  resolveCapsule statics b = capsuleLoop b statics (afterFloor b).
Proof.
  unfold resolveCapsule, capsuleLoop, capsuleIter, capsuleBounds, afterFloor,
    capsuleRadius, capsuleHalfHeight, capsuleFloor.
  destruct_ifs; reflexivity.
Qed.

Lemma capsuleLoop_app (b : PhysicsBody) (l1 l2 : list Box3)
    (b1 : PhysicsBody) :
  capsuleLoop b (l1 ++ l2) b1 = capsuleLoop b l2 (capsuleLoop b l1 b1).
Proof. unfold capsuleLoop. apply fold_left_app. Qed.

Lemma capsuleIter_y_le (b b1 : PhysicsBody) (s : Box3) :
  vy (position b1) <= vy (position (capsuleIter b b1 s)).
Proof. apply capsuleVsStatic_y_le. Qed.

Lemma capsuleLoop_y_le (b : PhysicsBody) (l : list Box3) (b1 : PhysicsBody) :
  vy (position b1) <= vy (position (capsuleLoop b l b1)).
Proof.
  unfold capsuleLoop.
  apply (fold_left_invariant
           (fun a => vy (position b1) <= vy (position a))); [|lra].
  intros a s Ha. pose proof (capsuleIter_y_le b a s). lra.
Qed.

(** The step branch and the wall branch of an iteration.  Whether a box is
    a step is decided by the gap computed before the loop; the test
    against the capsule's upper body reads the live height. *)
Lemma capsuleIter_step (b b1 : PhysicsBody) (s : Box3) :
  intersectsBox (capsuleBounds (afterFloor b)) s = true ->
  0 < stepGap (afterFloor b) s <= 0.4 ->
  vy (bmax s) < vy (position b1) + capsuleHalfHeight b - 0.1 ->
  capsuleIter b b1 s
  = set_isGrounded
      (set_velocity
         (set_position b1
            (set_y (position b1)
               (Rmax (vy (position b1))
                     (vy (bmax s) + capsuleHalfHeight b))))
         (set_y (velocity b1) 0))
      true.
Proof.
  intros Hi [Hg0 Hg1] Htop.
  unfold stepGap in *. rewrite capsuleHalfHeight_afterFloor in *.
  unfold capsuleIter, capsuleVsStatic. rewrite Hi.
  unfold MAX_STEP_HEIGHT, Rgtb.
  replace (Rltb 0 _) with true by (symmetry; now apply Rltb_true).
  replace (Rleb _ 0.4) with true by (symmetry; now apply Rleb_true).
  replace (Rltb (vy (bmax s)) _) with true by (symmetry; now apply Rltb_true).
  reflexivity.
Qed.

Lemma capsuleIter_wall (b b1 : PhysicsBody) (s : Box3) :
  intersectsBox (capsuleBounds (afterFloor b)) s = true ->
  0.4 < stepGap (afterFloor b) s ->
  capsuleIter b b1 s = capsuleWall (capsuleRadius b) b1 s.
Proof.
  intros Hi Hg.
  unfold stepGap in *. rewrite capsuleHalfHeight_afterFloor in *.
  unfold capsuleIter, capsuleVsStatic. rewrite Hi.
  unfold MAX_STEP_HEIGHT.
  replace (Rleb _ 0.4) with false by (symmetry; now apply Rleb_false).
  rewrite andb_false_r. reflexivity.
Qed.

(** Once lifted onto a step the body stays at least that high, without
    vertical velocity and grounded, whatever boxes follow in the pass. *)
Lemma capsuleIter_landed (b b1 : PhysicsBody) (s : Box3) (h : R) :
  landedAt b h b1 -> landedAt b h (capsuleIter b b1 s).
Proof.
  intros (Hy & Hv & Hg). unfold landedAt, capsuleIter, capsuleVsStatic.
  destruct (intersectsBox _ s); [|repeat split; assumption].
  match goal with
  | |- context [if ?c then _ else _] => destruct c
  end.
  - simpl. repeat split. eapply Rle_trans; [exact Hy | apply Rmax_l].
  - destruct (capsuleWall_keeps_height (capsuleRadius b) b1 s)
      as (Ey & Ev & Eg).
    rewrite Ey, Ev, Eg. repeat split; assumption.
Qed.

Lemma capsuleLoop_landed (b : PhysicsBody) (l : list Box3) (b1 : PhysicsBody)
    (h : R) :
  landedAt b h b1 -> landedAt b h (capsuleLoop b l b1).
Proof.
  unfold capsuleLoop. apply fold_left_invariant.
  intros a s. apply capsuleIter_landed.
Qed.

(** No box lifts the body above the highest top plus halfHeight. *)
Lemma capsuleLoop_below (b : PhysicsBody) (top : R) (l : list Box3) :
  Forall (fun s => vy (bmax s) <= top) l ->
  forall b1, vy (position b1) <= top + capsuleHalfHeight b ->
  vy (position (capsuleLoop b l b1)) <= top + capsuleHalfHeight b.
Proof.
  induction 1 as [|s l Hs Hl IH]; intros b1 Hb; [exact Hb|].
  unfold capsuleLoop in *. simpl. apply IH.
  unfold capsuleIter, capsuleVsStatic.
  destruct (intersectsBox _ s); [|exact Hb].
  match goal with
  | |- context [if ?c then _ else _] => destruct c
  end.
  - simpl. apply Rmax_lub; lra.
  - rewrite capsuleWall_y. exact Hb.
Qed.

(** Only the push of a capsule within reach of the footprint touches the
    velocity. *)
Lemma capsuleWall_velocity_kept (radius : R) (b : PhysicsBody) (s : Box3) :
  ~ 0 < Three.length (wallDiff b s) < radius ->
  velocity (capsuleWall radius b s) = velocity b.
Proof.
  intros Hn. unfold capsuleWall. fold (wallDiff b s).
  replace (Rltb (Three.length (wallDiff b s)) radius
           && Rgtb (Three.length (wallDiff b s)) 0) with false.
  - destruct_ifs; reflexivity.
  - symmetry. apply andb_false_iff. unfold Rgtb.
    destruct (Rlt_dec (Three.length (wallDiff b s)) radius) as [Hr|Hr].
    + right. apply Rltb_false. lra.
    + left. apply Rltb_false. lra.
Qed.

(** C5 (amended): a capsule whose bounds, taken after the floor-plane
    clamp, meet a static box [s] of the world whose top lies below the
    capsule's upper body.  When the gap from the capsule's bottom to the
    top of [s] is positive and at most 0.4, the pass over the static
    colliders ends with the body at least at box top + halfHeight, with no
    vertical velocity, grounded; it ends exactly at box top + halfHeight
    when no box of the world has a higher top (the lift takes the larger of
    the current height and box top + halfHeight, so a higher step met in
    the same pass wins).  When the gap is above 0.4, by however little, the
    loop runs the wall branch on [s]: it changes neither the height nor the
    vertical velocity nor the grounded flag; with the axis of the capsule
    outside the footprint and closer to it than the radius no velocity into
    the wall is left, and in every other case (the axis inside the
    footprint, or not within the radius) the velocity is left as it is. *)
Theorem step_climb_threshold (statics : list Box3) (b : PhysicsBody)
    (s : Box3) :
  In s statics ->
  intersectsBox (capsuleBounds (afterFloor b)) s = true ->
  vy (bmax s) < vy (position (afterFloor b)) + capsuleHalfHeight b - 0.1 ->
  (0 < stepGap (afterFloor b) s <= 0.4 ->
     vy (bmax s) + capsuleHalfHeight b
       <= vy (position (resolveCapsule statics b))
     /\ vy (position (afterFloor b)) < vy (position (resolveCapsule statics b))
     /\ vy (velocity (resolveCapsule statics b)) = 0
     /\ isGrounded (resolveCapsule statics b) = true
     /\ ((forall s', In s' statics -> vy (bmax s') <= vy (bmax s)) ->
         vy (position (resolveCapsule statics b))
         = vy (bmax s) + capsuleHalfHeight b)
     /\ (statics = [s] ->
         vx (position (resolveCapsule statics b)) = vx (position b)
         /\ vz (position (resolveCapsule statics b)) = vz (position b)))
  /\ (0.4 < stepGap (afterFloor b) s ->
     forall l1 l2, statics = l1 ++ s :: l2 ->
     let b1 := capsuleLoop b l1 (afterFloor b) in
     let b2 := capsuleWall (capsuleRadius b) b1 s in
     resolveCapsule statics b = capsuleLoop b l2 b2
     /\ vy (position b2) = vy (position b1)
     /\ vy (velocity b2) = vy (velocity b1)
     /\ isGrounded b2 = isGrounded b1
     /\ (0 < Three.length (wallDiff b1 s) < capsuleRadius b ->
         0 <= dot (velocity b2) (normalize (wallDiff b1 s)))
     /\ (~ 0 < Three.length (wallDiff b1 s) < capsuleRadius b ->
         velocity b2 = velocity b1)).
Proof.
  intros Hin Hi Htop. split.
  - intros Hg.
    destruct (in_split _ _ Hin) as (l1 & l2 & E).
    assert (Hland : landedAt b (vy (bmax s) + capsuleHalfHeight b)
                      (resolveCapsule statics b)).
    { rewrite resolveCapsule_loop, E, capsuleLoop_app. simpl.
      apply capsuleLoop_landed.
      rewrite capsuleIter_step; try assumption.
      - unfold landedAt; simpl. repeat split. apply Rmax_r.
      - pose proof (capsuleLoop_y_le b l1 (afterFloor b)). lra. }
    destruct Hland as (Hy & Hv & Hgr).
    assert (Hgap : stepGap (afterFloor b) s
                   = vy (bmax s)
                     - (vy (position (afterFloor b)) - capsuleHalfHeight b))
      by (unfold stepGap; now rewrite capsuleHalfHeight_afterFloor).
    split; [exact Hy|]. split; [lra|]. split; [exact Hv|].
    split; [exact Hgr|]. split.
    + intros Hmax. apply Rle_antisym; [|exact Hy].
      rewrite resolveCapsule_loop. apply capsuleLoop_below.
      * apply Forall_forall. exact Hmax.
      * lra.
    + intros ->. rewrite resolveCapsule_loop. unfold capsuleLoop. simpl.
      rewrite capsuleIter_step by (assumption || lra). simpl.
      unfold afterFloor, capsuleFloor. destruct_ifs; split; reflexivity.
  - intros Hg l1 l2 E b1 b2.
    destruct (capsuleWall_keeps_height (capsuleRadius b) b1 s)
      as (Hy & Hv & Hgr).
    split; [|split; [exact Hy|split; [exact Hv|split; [exact Hgr|split]]]].
    + rewrite resolveCapsule_loop, E, capsuleLoop_app. simpl.
      fold b1. now rewrite capsuleIter_wall.
    + apply capsuleWall_contact.
    + apply capsuleWall_velocity_kept.
Qed.

(** ** Bodies resting on the ground plane *)

Lemma fold_left_miss {A : Type} (f : A -> Box3 -> A) (pb : Box3) :
  (forall a s, intersectsBox pb s = false -> f a s = a) ->
  forall statics a,
  Forall (fun s => intersectsBox pb s = false) statics ->
  fold_left f statics a = a.
Proof.
  intros Hf statics. induction statics as [|s statics IH]; intros a Hall.
  - reflexivity.
  - inversion Hall; subst. simpl. rewrite Hf by assumption. now apply IH.
Qed.

Lemma boxVsStatic_miss (pb : Box3) (b : PhysicsBody) (s : Box3) :
  intersectsBox pb s = false -> boxVsStatic pb b s = b.
Proof. intros H. unfold boxVsStatic. now rewrite H. Qed.

Lemma capsuleVsStatic_miss (radius h bottom : R) (cb : Box3)
    (b : PhysicsBody) (s : Box3) :
  intersectsBox cb s = false -> capsuleVsStatic radius h bottom cb b s = b.
Proof. intros H. unfold capsuleVsStatic. now rewrite H. Qed.


(** One sub-step of a body that started the step at rest.  The section
    fixes the sub-step [sdt], the static colliders and the resting body
    [b0]; [b] is the body as an earlier sub-step of the same step left it. *)
Section AtRest.

Variable sdt : R.
Variable statics : list Box3.
Variable b0 : PhysicsBody.

Hypothesis sdt_pos : 0 < sdt.
Hypothesis b0_rests : restsOnGround statics b0.

Lemma box_substep_at_rest (b : PhysicsBody) :
  ctype (collider b0) = box ->
  boxAtRest sdt b0 b ->
  boxAtRest sdt b0 (simulateBody sdt statics b)
  /\ isGrounded (simulateBody sdt statics b) = false.
Proof.
  intros Hbox (Em & Ep & Es & Ec & Evx & Evz & Evy).
  destruct b0_rests as (Hm & Hh & Hy & Hv & Hclear).
  unfold restHeight, bodyBounds in *. rewrite Hbox in *.
  rewrite simulateBody_dynamic by (rewrite ?Em, ?Ep; lra || assumption).
  unfold resolve.
  destruct (integrate_shape sdt b) as (Im & Is & Ic & Ig).
  cbn [collider set_isGrounded]. rewrite Ic, Ec, Hbox.
  unfold resolveBox. cbn [collider set_isGrounded]. rewrite Ic, Ec.
  set (d := if isGrounded b then 0.05 else 0.01).
  assert (Hd : 0 < 1.0 - d <= 1) by (unfold d; destruct (isGrounded b); lra).
  assert (Ivel : velocity (integrate sdt b)
                 = vec3 0 ((vy (velocity b) - 25 * sdt) * (1.0 - d)) 0).
  { rewrite integrate_velocity. fold d.
    unfold multiplyScalar, addScaledVector, GRAVITY; simpl.
    rewrite Evx, Evz. f_equal; ring. }
  assert (Ipos : position (integrate sdt b)
                 = vec3 (vx (position b0))
                        (vy (position b0)
                         + (vy (velocity b) - 25 * sdt) * (1.0 - d) * sdt)
                        (vz (position b0))).
  { rewrite integrate_position, Ivel, Ep.
    unfold addScaledVector; simpl. f_equal; ring. }
  assert (Hneg : (vy (velocity b) - 25 * sdt) * (1.0 - d) < 0) by nra.
  assert (Hfloor :
    boxFloor (vy (csize (collider b0))) (set_isGrounded (integrate sdt b) false)
    = mkBody (mass b0) (position b0)
        (vec3 0 ((vy (velocity b) - 25 * sdt) * (1.0 - d) * -0.3) 0)
        (rotation (integrate sdt b)) (angularVelocity (integrate sdt b))
        (size b0) (collider b0) false (isSleeping (integrate sdt b))).
  { unfold boxFloor.
    cbn [position velocity set_isGrounded set_position set_velocity].
    rewrite Ipos, Ivel. cbn [vx vy vz set_y].
    replace (Rltb _ (vy (csize (collider b0)))) with true
      by (symmetry; apply Rltb_true; nra).
    replace (Rltb _ 0) with true by (symmetry; apply Rltb_true; exact Hneg).
    unfold set_velocity, set_position, set_isGrounded; simpl.
    rewrite Im, Is, Ic, Em, Es, Ec.
    f_equal; [|f_equal; ring].
    destruct (position b0) as [x y z]; simpl in *. now subst y. }
  rewrite Hfloor. cbn [position size].
  rewrite (fold_left_miss _ _ (fun a s H => boxVsStatic_miss _ a s H))
    by exact Hclear.
  unfold boxAtRest; simpl. repeat split; nra.
Qed.

Lemma capsule_substep_at_rest (b : PhysicsBody) :
  ctype (collider b0) = capsule ->
  capsuleAtRest b0 b ->
  capsuleAtRest b0 (simulateBody sdt statics b)
  /\ isGrounded (simulateBody sdt statics b) = true.
Proof.
  intros Hcap (Em & Ep & Es & Ec & Ev).
  destruct b0_rests as (Hm & Hh & Hy & Hv & Hclear).
  unfold restHeight, bodyBounds, capsuleBounds, capsuleHalfHeight,
    capsuleRadius in *.
  rewrite Hcap in *.
  rewrite simulateBody_dynamic by (rewrite ?Em, ?Ep; lra || assumption).
  unfold resolve.
  destruct (integrate_shape sdt b) as (Im & Is & Ic & Ig).
  cbn [collider set_isGrounded]. rewrite Ic, Ec, Hcap.
  unfold resolveCapsule. cbn [collider set_isGrounded]. rewrite Ic, Ec.
  set (d := if isGrounded b then 0.05 else 0.01).
  assert (Hd : 0 < 1.0 - d <= 1) by (unfold d; destruct (isGrounded b); lra).
  assert (Ivel : velocity (integrate sdt b)
                 = vec3 0 (- 25 * sdt * (1.0 - d)) 0).
  { rewrite integrate_velocity. fold d. rewrite Ev.
    unfold multiplyScalar, addScaledVector, GRAVITY; simpl.
    f_equal; ring. }
  assert (Ipos : position (integrate sdt b)
                 = vec3 (vx (position b0))
                        (vy (position b0) + - 25 * sdt * (1.0 - d) * sdt)
                        (vz (position b0))).
  { rewrite integrate_position, Ivel, Ep.
    unfold addScaledVector; simpl. f_equal; ring. }
  assert (Hneg : - 25 * sdt * (1.0 - d) < 0) by nra.
  assert (Hfloor :
    capsuleFloor (vy (csize (collider b0)) / 2)
      (set_isGrounded (integrate sdt b) false)
    = mkBody (mass b0) (position b0) (vec3 0 0 0)
        (rotation (integrate sdt b)) (angularVelocity (integrate sdt b))
        (size b0) (collider b0) true (isSleeping (integrate sdt b))).
  { unfold capsuleFloor.
    cbn [position velocity set_isGrounded set_position set_velocity].
    rewrite Ipos, Ivel. cbn [vx vy vz set_y].
    replace (Rltb _ (vy (csize (collider b0)) / 2)) with true
      by (symmetry; apply Rltb_true; nra).
    replace (Rltb _ 0) with true by (symmetry; apply Rltb_true; exact Hneg).
    unfold set_velocity, set_position, set_isGrounded; simpl.
    rewrite Im, Is, Ic, Em, Es, Ec.
    f_equal.
    destruct (position b0) as [x y z]; simpl in *. now subst y. }
  rewrite Hfloor. cbn [position size].
  rewrite (fold_left_miss _ _
             (fun a s H => capsuleVsStatic_miss _ _ _ _ a s H))
    by exact Hclear.
  unfold capsuleAtRest; simpl. repeat split.
Qed.

End AtRest.

(** Four sub-steps that each keep an invariant of the body at index [i]
    make a [step] that keeps it, and the last sub-step decides what else
    holds at the end. *)
Lemma step_body_invariant (P Q : PhysicsBody -> Prop) (dt : R)
    (w : PhysicsWorld) (i : nat) (b : PhysicsBody) :
  (forall a, P a ->
     P (simulateBody (dt / 4) (staticColliders w) a)
     /\ Q (simulateBody (dt / 4) (staticColliders w) a)) ->
  nth_error (bodies w) i = Some b ->
  P b ->
  exists b', nth_error (bodies (step dt w)) i = Some b' /\ P b' /\ Q b'.
Proof.
  intros Hstep Hi H0.
  destruct (Hstep _ H0) as [H1 _].
  destruct (Hstep _ H1) as [H2 _].
  destruct (Hstep _ H2) as [H3 _].
  destruct (Hstep _ H3) as [H4 HQ].
  eexists. split.
  - rewrite step_is_four_substeps.
    apply simulate_body_at, simulate_body_at, simulate_body_at,
      simulate_body_at. exact Hi.
  - simpl. split; assumption.
Qed.

(** C1, box colliders: a dynamic box body at rest on the ground plane, clear
    of the static colliders, is found after one [step] at height
    [halfExtent.y], but its grounded flag is false: [resolveBox] never sets
    the flag that [simulate] clears before it. *)
Theorem resting_box_not_grounded (dt : R) (w : PhysicsWorld) (i : nat)
    (b : PhysicsBody) :
  0 < dt ->
  nth_error (bodies w) i = Some b ->
  ctype (collider b) = box ->
  restsOnGround (staticColliders w) b ->
  exists b', nth_error (bodies (step dt w)) i = Some b'
             /\ vy (position b') = vy (csize (collider b))
             /\ isGrounded b' = false.
Proof.
  intros Hdt Hi Hbox Hrest.
  assert (Hs : 0 < dt / 4) by lra.
  destruct (step_body_invariant (boxAtRest (dt / 4) b)
              (fun a => isGrounded a = false) dt w i b)
    as (b' & Hb' & Hat & Hg).
  - intros a Ha. now apply box_substep_at_rest.
  - exact Hi.
  - destruct Hrest as (_ & _ & _ & Hv & _).
    unfold boxAtRest. rewrite Hv; simpl. repeat split; lra.
  - exists b'. split; [exact Hb'|]. split; [|exact Hg].
    destruct Hat as (_ & Hp & _). rewrite Hp.
    destruct Hrest as (_ & _ & Hy & _).
    unfold restHeight in Hy. now rewrite Hbox in Hy.
Qed.

(** The same body with a capsule collider is found after one [step] at
    height [halfHeight], grounded. *)
Lemma resting_capsule_grounded (dt : R) (w : PhysicsWorld) (i : nat)
    (b : PhysicsBody) :
  0 < dt ->
  nth_error (bodies w) i = Some b ->
  ctype (collider b) = capsule ->
  restsOnGround (staticColliders w) b ->
  exists b', nth_error (bodies (step dt w)) i = Some b'
             /\ vy (position b') = vy (csize (collider b)) / 2
             /\ isGrounded b' = true.
Proof.
  intros Hdt Hi Hcap Hrest.
  assert (Hs : 0 < dt / 4) by lra.
  destruct (step_body_invariant (capsuleAtRest b)
              (fun a => isGrounded a = true) dt w i b)
    as (b' & Hb' & Hat & Hg).
  - intros a Ha. now apply capsule_substep_at_rest.
  - exact Hi.
  - destruct Hrest as (_ & _ & _ & Hv & _).
    unfold capsuleAtRest. repeat split. exact Hv.
  - exists b'. split; [exact Hb'|]. split; [|exact Hg].
    destruct Hat as (_ & Hp & _). rewrite Hp.
    destruct Hrest as (_ & _ & Hy & _).
    unfold restHeight, capsuleHalfHeight in Hy. now rewrite Hcap in Hy.
Qed.

(** ** The suspension ray of a wheel *)

Import Vehicle.

Lemma down_components (b : PhysicsBody) :
  down b
  = vec3 (2 * (qw (rotation b) * qz (rotation b)
               - qx (rotation b) * qy (rotation b)))
         (-1 + 2 * (qx (rotation b) * qx (rotation b)
                    + qz (rotation b) * qz (rotation b)))
         (-2 * (qw (rotation b) * qx (rotation b)
                + qy (rotation b) * qz (rotation b))).
Proof. unfold down, applyQuaternion; simpl. f_equal; ring. Qed.

Lemma down_is_world_down (b : PhysicsBody) :
  down b = vec3 0 (-1) 0
  <-> qx (rotation b) = 0 /\ qz (rotation b) = 0.
Proof.
  rewrite down_components. split.
  - intros H. apply (f_equal vy) in H; simpl in H.
    assert (Hx : qx (rotation b) * qx (rotation b) = 0) by nra.
    assert (Hz : qz (rotation b) * qz (rotation b) = 0) by nra.
    split; nra.
  - intros [Hx Hz]. rewrite Hx, Hz. f_equal; ring.
Qed.

Lemma wheel_hit (cfg : VehicleConfig) (on : bool) (steering throttle brk : R)
    (inputs : InputState) (world : PhysicsWorld) (i : nat)
    (mountLocal : Vector3) (b : PhysicsBody) (hit : RayHit) :
  raycast world (mountWorld b mountLocal) (down b) (rayLength cfg) = Some hit ->
  exists b' lat long,
    wheel cfg on steering throttle brk inputs world i mountLocal b
    = (b', [ mkImpulse (mountWorld b mountLocal)
               (multiplyScalar (down b)
                  (- suspensionForce cfg b mountLocal hit));
             lat; long ]).
Proof.
  intros H. unfold wheel. rewrite H. eauto.
Qed.

(** C2, as stated, fails for a pitched vehicle: the suspension ray of the
    rear left wheel of the sedan, pitched nose up, is not cast along world
    -Y, and the suspension impulse it pushes has a horizontal component. *)
Lemma tilted_suspension_ray_not_vertical :
  down tiltedBody = vec3 0 (-0.8432) (-0.5376)
  /\ down tiltedBody <> vec3 0 (-1) 0
  /\ exists b' lat long,
       wheel CAR_SEDAN false 0 0 0 noInputs emptyWorld 2 rearLeftMount
             tiltedBody
       = (b', [ mkImpulse (mountWorld tiltedBody rearLeftMount)
                          (vec3 0 37944 24192);
                lat; long ]).
Proof.
  assert (Hd : down tiltedBody = vec3 0 (-0.8432) (-0.5376)).
  { rewrite down_components. unfold tiltedBody; simpl. f_equal; lra. }
  assert (Hm : mountWorld tiltedBody rearLeftMount
               = vec3 4.15 0.14288 (-18.75416)).
  { unfold mountWorld, applyQuaternion, add, tiltedBody, rearLeftMount,
      wX, wY, wZ; simpl. f_equal; lra. }
  split; [exact Hd|]. split.
  - rewrite Hd. intros H. apply (f_equal vz) in H; simpl in H. lra.
  - assert (Hr : raycast emptyWorld (mountWorld tiltedBody rearLeftMount)
                   (down tiltedBody) (rayLength CAR_SEDAN)
                 = Some (mkHit (0.14288 / 0.8432)
                           (addScaledVector
                              (mountWorld tiltedBody rearLeftMount)
                              (down tiltedBody) (0.14288 / 0.8432))
                           (vec3 0 1 0))).
    { rewrite raycast_eq. unfold groundParam. rewrite Hm, Hd.
      unfold rayLength; simpl.
      replace (- (0.14288) / -0.8432) with (0.14288 / 0.8432) by lra.
      assert (0 < 0.14288 / 0.8432 < 0.2).
      { split.
        - apply Rdiv_lt_0_compat; lra.
        - apply (Rmult_lt_reg_r 0.8432); [lra|].
          unfold Rdiv. rewrite Rmult_assoc, Rinv_l by lra. lra. }
      decide_cmp. reflexivity. }
    destruct (wheel_hit CAR_SEDAN false 0 0 0 noInputs emptyWorld 2
                rearLeftMount tiltedBody _ Hr) as (b' & lat & long & Hw).
    exists b', lat, long. rewrite Hw. repeat f_equal.
    assert (Hf : suspensionForce CAR_SEDAN tiltedBody rearLeftMount
                   (mkHit (0.14288 / 0.8432)
                      (addScaledVector
                         (mountWorld tiltedBody rearLeftMount)
                         (down tiltedBody) (0.14288 / 0.8432))
                      (vec3 0 1 0))
                 = 45000).
    { unfold suspensionForce. cbn [dist wheelRadius suspensionLength
        suspensionStiffness suspensionDamping CAR_SEDAN].
      assert (Hv : dot (pointVel tiltedBody rearLeftMount) (down tiltedBody)
                   = 0).
      { rewrite Hd. unfold pointVel, dot, cross, add, sub, tiltedBody;
          simpl. ring. }
      rewrite Hv.
      assert (0 < 0.14288 / 0.8432 < 0.2).
      { split.
        - apply Rdiv_lt_0_compat; lra.
        - apply (Rmult_lt_reg_r 0.8432); [lra|].
          unfold Rdiv. rewrite Rmult_assoc, Rinv_l by lra. lra. }
      rewrite (Rmin_left 1) by lra.
      rewrite (Rmax_right 0 1) by lra.
      rewrite Rmax_right by lra. lra. }
    rewrite Hf, Hd. unfold multiplyScalar; simpl. f_equal; lra.
Qed.

(** C2 (amended): for every wheel, the suspension ray starts at the
    world-space mount point and runs along the body's own down axis, the
    vector (0, -1, 0) rotated by the body's orientation; that is world -Y
    exactly when the orientation has no x and no z component (no pitch and
    no roll).  Without a hit the wheel pushes no impulse; on a hit its first
    impulse is the suspension force [max(0, spring + damp)] applied at the
    mount point against the ray direction, which is world-up when the ray
    is world-down. *)
Theorem suspension_ray_follows_body (cfg : VehicleConfig) (on : bool)
    (steering throttle brk : R) (inputs : InputState) (world : PhysicsWorld)
    (i : nat) (mountLocal : Vector3) (b : PhysicsBody) :
  mountWorld b mountLocal
    = add (applyQuaternion mountLocal (rotation b)) (position b)
  /\ down b = applyQuaternion (vec3 0 (-1) 0) (rotation b)
  /\ (down b = vec3 0 (-1) 0
      <-> qx (rotation b) = 0 /\ qz (rotation b) = 0)
  /\ (raycast world (mountWorld b mountLocal) (down b) (rayLength cfg) = None
      -> wheel cfg on steering throttle brk inputs world i mountLocal b
         = (b, []))
  /\ (forall hit,
      raycast world (mountWorld b mountLocal) (down b) (rayLength cfg)
        = Some hit ->
      0 <= suspensionForce cfg b mountLocal hit
      /\ (exists b' lat long,
          wheel cfg on steering throttle brk inputs world i mountLocal b
          = (b', [ mkImpulse (mountWorld b mountLocal)
                     (multiplyScalar (down b)
                        (- suspensionForce cfg b mountLocal hit));
                   lat; long ]))
      /\ (down b = vec3 0 (-1) 0 ->
          multiplyScalar (down b) (- suspensionForce cfg b mountLocal hit)
          = vec3 0 (suspensionForce cfg b mountLocal hit) 0)).
Proof.
  split; [reflexivity|]. split; [reflexivity|].
  split; [apply down_is_world_down|]. split.
  - intros H. unfold wheel. now rewrite H.
  - intros hit H. split; [|split].
    + unfold suspensionForce. apply Rmax_l.
    + now apply wheel_hit.
    + intros Hd. rewrite Hd. unfold multiplyScalar; simpl. f_equal; ring.
Qed.

(** ** The camera probe *)

Import Camera.

Lemma sqrt_of_square (a b : R) : 0 <= b -> a = b * b -> sqrt a = b.
Proof. intros Hb ->. now apply sqrt_square. Qed.

Lemma orbitOffset_rest : orbitOffset noInputs = vec3 0 2 6.
Proof.
  unfold orbitOffset, noInputs, thirdPersonDist, thirdPersonHeight; simpl.
  rewrite (Rmin_right 1.0 0) by lra. rewrite Rmax_right by lra.
  rewrite sin_0, cos_0. f_equal; lra.
Qed.


Lemma sin_cos_sq (x : R) : sin x * sin x + cos x * cos x = 1.
Proof. pose proof (sin2_cos2 x) as H. unfold Rsqr in H. exact H. Qed.

Lemma orbit_pitch_range (inputs : InputState) :
  -0.5 <= Rmax (-0.5) (Rmin 1.0 (viewY inputs)) <= 1.
Proof. split_minmax; lra. Qed.


Lemma length_multiplyScalar (v : Vector3) (k : R) :
  Three.length (multiplyScalar v k) = Rabs k * Three.length v.
Proof.
  unfold Three.length.
  replace (lengthSq (multiplyScalar v k)) with (Rsqr k * lengthSq v)
    by (unfold lengthSq, multiplyScalar, Rsqr; simpl; ring).
  rewrite sqrt_mult by (apply Rle_0_sqr || apply lengthSq_nonneg).
  now rewrite sqrt_Rsqr_abs.
Qed.

Lemma length_normalize (v : Vector3) :
  Three.length v <> 0 -> Three.length (normalize v) = 1.
Proof.
  intros H. unfold Three.length at 1.
  replace (lengthSq (normalize v)) with (dot (normalize v) (normalize v))
    by reflexivity.
  rewrite normalize_unit by exact H. apply sqrt_1.
Qed.




(** Without a hit closer than the full distance the probe leaves the desired
    position alone. *)
Lemma probe_without_hit (targetPos desiredPos : Vector3)
    (statics : list Box3) :
  probeHitDist targetPos desiredPos statics
    = distanceTo targetPos desiredPos ->
  collisionProbe targetPos desiredPos statics = desiredPos.
Proof.
  intros H. unfold collisionProbe. rewrite H.
  replace (Rltb _ _) with false by (symmetry; apply Rltb_false; lra).
  reflexivity.
Qed.

(** ** [Ray.intersectBox] against the geometry *)















(** ** The probe against the geometry *)









Lemma probeHitDist_eq (targetPos desiredPos : Vector3) (statics : list Box3) :
  probeHitDist targetPos desiredPos statics
  = fold_left (probeBox (probeRay targetPos desiredPos)) statics
      (distanceTo targetPos desiredPos).
Proof. reflexivity. Qed.








(** ** The theorems at concrete inputs *)

Ltac eval_cmp := simpl; unfold Rgeb, Rgtb; decide_cmp; simpl.

Ltac eval_minmax :=
  repeat match goal with
  | |- context [Rmax ?a ?b] =>
      first [ rewrite (Rmax_left a b) by lra
            | rewrite (Rmax_right a b) by lra ]
  | |- context [Rmin ?a ?b] =>
      first [ rewrite (Rmin_left a b) by lra
            | rewrite (Rmin_right a b) by lra ]
  end.

Ltac eval_abs :=
  repeat match goal with
  | |- context [Rabs ?a] =>
      first [ rewrite (Rabs_pos_eq a) by lra
            | rewrite (Rabs_left a) by lra ]
  end.

(** The anchor body of [mixedWorld] through a step of 0.05. *)
Lemma step_static_body_unchanged_witness :
  nth_error (bodies mixedWorld) 0 = Some anchorBody
  /\ mass anchorBody = 0
  /\ exists b', nth_error (bodies (step 0.05 mixedWorld)) 0 = Some b'
                /\ position b' = position anchorBody
                /\ velocity b' = velocity anchorBody
                /\ rotation b' = rotation anchorBody
                /\ b' = anchorBody.
Proof.
  split; [reflexivity|]. split; [reflexivity|].
  apply (step_static_body_unchanged 0.05 mixedWorld 0 anchorBody);
    reflexivity.
Defined.


(** The orientation of a body turned by a sub-step, in arithmetic that
    rounds every result upward by the unit roundoff of a double. *)
Lemma orientation_stays_unit_witness :
  0 <= unitRoundoff <= 1 / 100
  /\ roundsWithin unitRoundoff roundUp
  /\ Rabs (qlength qidentity - 1) <= 6 * unitRoundoff
  /\ Rabs (qlength (Rounded.rotate roundUp sin cos qidentity (vec3 0 3 0)
                      0.0125) - 1)
     <= 6 * unitRoundoff.
Proof.
  assert (Hp : 0 < 2 ^ 53) by (apply pow_lt; lra).
  assert (H7 : 2 ^ 7 <= 2 ^ 53) by (apply Rle_pow; [lra | lia]).
  assert (Hu : 0 <= unitRoundoff <= 1 / 100).
  { unfold unitRoundoff. split.
    - apply Rlt_le, Rinv_0_lt_compat, Hp.
    - apply Rle_trans with (/ 2 ^ 7).
      + apply Rinv_le_contravar; [simpl; lra | exact H7].
      + simpl. lra. }
  assert (Hr : roundsWithin unitRoundoff roundUp).
  { intros x. unfold roundUp.
    replace (x * (1 + unitRoundoff) - x) with (unitRoundoff * x) by ring.
    rewrite Rabs_mult, (Rabs_pos_eq unitRoundoff) by apply Hu. lra. }
  assert (H0 : Rabs (qlength qidentity - 1) <= 6 * unitRoundoff).
  { unfold qlength, qidentity; simpl.
    replace (0 * 0 + 0 * 0 + 0 * 0 + 1 * 1) with 1 by ring.
    rewrite sqrt_1. replace (1 - 1) with 0 by ring. rewrite Rabs_R0. lra. }
  split; [exact Hu|]. split; [exact Hr|]. split; [exact H0|].
  apply (proj1 (orientation_stays_unit unitRoundoff roundUp sin cos Hu Hr)
           qidentity).
  - exact H0.
  - apply turns_substep, turns_start.
Defined.

(** The sliding player through a sub-step of 0.01 next to the curb, and
    through a call of [step] with 0.04 in a world without static
    colliders. *)
Lemma damping_per_substep_witness :
  mass slidingPlayer <> 0
  /\ -20 <= vy (position slidingPlayer)
  /\ velocity (integrate 0.01 slidingPlayer) = vec3 0.95 (-0.2375) 0
  /\ angularVelocity (simulateBody 0.01 [curb] slidingPlayer)
     = vec3 0 0.98 0
  /\ exists b', nth_error (bodies (step 0.04 (mkWorld [slidingPlayer] []))) 0
                = Some b'
                /\ velocity b' = vec3 0.81450625 0 0.
Proof.
  assert (Hm : mass slidingPlayer <> 0) by (simpl; lra).
  assert (Hy : -20 <= vy (position slidingPlayer)) by (simpl; lra).
  destruct (damping_per_substep 0.01 [curb] slidingPlayer Hm)
    as (_ & Hsub & _ & Hstep).
  destruct (Hsub Hy) as (_ & Hv & Hw).
  split; [exact Hm|]. split; [exact Hy|]. split; [|split].
  - rewrite Hv. unfold multiplyScalar, addScaledVector, GRAVITY; simpl.
    f_equal; lra.
  - rewrite Hw. unfold multiplyScalar; simpl. f_equal; lra.
  - destruct (Hstep ltac:(lra) eq_refl
                ltac:(unfold capsuleHalfHeight; simpl; lra) Hy eq_refl
                eq_refl (mkWorld [slidingPlayer] []) 0%nat eq_refl eq_refl)
      as (b' & Hb & Hvel & _).
    replace (4 * 0.01) with 0.04 in Hb by lra.
    exists b'. split; [exact Hb|]. rewrite Hvel. simpl. f_equal; lra.
Defined.

(** The player on the ground plane is left alone by the floor clamp, and
    its bounds reach into every box over the footprint of the curb. *)
Lemma player_afterFloor : afterFloor playerBody = playerBody.
Proof.
  unfold afterFloor, capsuleFloor, capsuleHalfHeight, playerBody.
  eval_cmp. reflexivity.
Qed.

Lemma player_meets_curbs (top : R) :
  0 <= top ->
  intersectsBox (capsuleBounds (afterFloor playerBody))
    (box3 (vec3 0.2 0 (-1)) (vec3 2 top 1)) = true.
Proof.
  intros Htop. rewrite player_afterFloor.
  unfold intersectsBox, capsuleBounds, capsuleRadius,
    setFromCenterAndSize, playerBody, sub, add, multiplyScalar.
  eval_cmp.
  replace (Rleb (0.85 - 1.7 * 0.5) top) with true
    by (symmetry; apply Rleb_true; lra).
  reflexivity.
Qed.

Lemma length_zero : Three.length (vec3 0 0 0) = 0.
Proof.
  unfold Three.length, lengthSq; simpl. apply sqrt_of_square; lra.
Qed.

(** C5, as stated, fails in two ways.  A step met in the same pass as a
    higher one does not leave the body at its own top + halfHeight: with
    the curb (top 0.4) and a lower curb (top 0.2) both within the step
    height of the player's bottom, the player ends at 1.25, not at 1.05.
    And a wall does not always stop the body: with the axis of the capsule
    inside the footprint of the ledge (top 0.41, above the step height),
    the player keeps its velocity (1, 0, 0) toward the middle of the box and
    is shifted by half the penetration only, its axis still inside the
    footprint. *)
Lemma step_climb_not_as_stated :
  (intersectsBox (capsuleBounds (afterFloor playerBody)) lowCurb = true
   /\ vy (bmax lowCurb)
      < vy (position (afterFloor playerBody)) + capsuleHalfHeight playerBody
        - 0.1
   /\ 0 < stepGap (afterFloor playerBody) lowCurb <= 0.4
   /\ vy (position (resolveCapsule [curb; lowCurb] playerBody)) = 1.25
   /\ vy (bmax lowCurb) + capsuleHalfHeight playerBody = 1.05)
  /\ (intersectsBox (capsuleBounds (afterFloor playerInLedge)) ledge = true
      /\ vy (bmax ledge)
         < vy (position (afterFloor playerInLedge))
           + capsuleHalfHeight playerInLedge - 0.1
      /\ 0.4 < stepGap (afterFloor playerInLedge) ledge
      /\ velocity playerInLedge = vec3 1 0 0
      /\ vx (position playerInLedge) < vx (getCenter ledge)
      /\ velocity (resolveCapsule [ledge] playerInLedge) = vec3 1 0 0
      /\ position (resolveCapsule [ledge] playerInLedge) = vec3 0.325 0.85 0
      /\ vx (bmin ledge) < 0.325 < vx (bmax ledge)
      /\ vz (bmin ledge) < 0 < vz (bmax ledge)).
Proof.
  split.
  - split; [apply player_meets_curbs; lra|].
    rewrite player_afterFloor.
    unfold stepGap, capsuleHalfHeight, lowCurb, playerBody; simpl.
    split; [lra|]. split; [lra|]. split; [|lra].
    unfold resolveCapsule, capsuleFloor, capsuleVsStatic, intersectsBox,
      setFromCenterAndSize, curb, MAX_STEP_HEIGHT, sub, add, multiplyScalar.
    do 3 (eval_cmp; eval_minmax). lra.
  - assert (Ha : afterFloor playerInLedge = playerInLedge).
    { unfold afterFloor, capsuleFloor, capsuleHalfHeight, playerInLedge,
        playerBody.
      eval_cmp. reflexivity. }
    assert (Hi : intersectsBox (capsuleBounds (afterFloor playerInLedge))
                   ledge = true).
    { rewrite Ha.
      unfold intersectsBox, capsuleBounds, capsuleRadius,
        setFromCenterAndSize, playerInLedge, playerBody, ledge, sub, add,
        multiplyScalar.
      eval_cmp. reflexivity. }
    assert (Hg : 0.4 < stepGap (afterFloor playerInLedge) ledge).
    { rewrite Ha.
      unfold stepGap, capsuleHalfHeight, ledge, playerInLedge, playerBody;
        simpl. lra. }
    assert (Hd : wallDiff playerInLedge ledge = vec3 0 0 0).
    { unfold wallDiff, playerInLedge, playerBody, ledge; simpl.
      eval_minmax. f_equal; lra. }
    assert (Hc : getCenter ledge = vec3 1.1 0.205 0).
    { unfold getCenter, isEmpty, ledge, add, multiplyScalar.
      eval_cmp. f_equal; lra. }
    assert (E : resolveCapsule [ledge] playerInLedge
                = set_position playerInLedge (vec3 0.325 0.85 0)).
    { rewrite resolveCapsule_loop. unfold capsuleLoop. simpl.
      rewrite capsuleIter_wall by assumption. rewrite Ha.
      unfold capsuleWall. fold (wallDiff playerInLedge ledge).
      rewrite Hd, length_zero, Hc.
      unfold capsuleRadius, playerInLedge, playerBody, ledge.
      eval_cmp. eval_abs. eval_cmp. eval_abs.
      unfold set_position, set_x; simpl. f_equal. f_equal; lra. }
    split; [exact Hi|]. split; [|split; [exact Hg|]].
    { rewrite Ha.
      unfold capsuleHalfHeight, playerInLedge, playerBody, ledge; simpl.
      lra. }
    rewrite E, Hc.
    unfold playerInLedge, playerBody, ledge; simpl.
    repeat split; lra.
Qed.

(** The player against the curb (top at 0.4, the highest step of a world
    that also holds a lower one: climbed) and against the ledge (top at
    0.41, a wall). *)
Lemma step_climb_threshold_witness :
  (In curb [lowCurb; curb]
   /\ intersectsBox (capsuleBounds (afterFloor playerBody)) curb = true
   /\ vy (bmax curb)
      < vy (position (afterFloor playerBody)) + capsuleHalfHeight playerBody
        - 0.1
   /\ 0 < stepGap (afterFloor playerBody) curb <= 0.4
   /\ vy (position (resolveCapsule [lowCurb; curb] playerBody))
      = vy (bmax curb) + capsuleHalfHeight playerBody
   /\ isGrounded (resolveCapsule [lowCurb; curb] playerBody) = true)
  /\ (In ledge [ledge]
      /\ intersectsBox (capsuleBounds (afterFloor playerBody)) ledge = true
      /\ vy (bmax ledge)
         < vy (position (afterFloor playerBody))
           + capsuleHalfHeight playerBody - 0.1
      /\ 0.4 < stepGap (afterFloor playerBody) ledge
      /\ resolveCapsule [ledge] playerBody
         = capsuleWall (capsuleRadius playerBody) (afterFloor playerBody)
             ledge
      /\ vy (position (capsuleWall (capsuleRadius playerBody)
                         (afterFloor playerBody) ledge))
         = vy (position (afterFloor playerBody))).
Proof.
  pose proof player_afterFloor as Ha.
  pose proof player_meets_curbs as Hi.
  assert (Hc : vy (bmax curb)
               < vy (position (afterFloor playerBody))
                 + capsuleHalfHeight playerBody - 0.1).
  { rewrite Ha. unfold capsuleHalfHeight, curb, playerBody; simpl. lra. }
  assert (Hl : vy (bmax ledge)
               < vy (position (afterFloor playerBody))
                 + capsuleHalfHeight playerBody - 0.1).
  { rewrite Ha. unfold capsuleHalfHeight, ledge, playerBody; simpl. lra. }
  assert (Hgc : 0 < stepGap (afterFloor playerBody) curb <= 0.4).
  { rewrite Ha. unfold stepGap, capsuleHalfHeight, curb, playerBody; simpl.
    lra. }
  assert (Hgl : 0.4 < stepGap (afterFloor playerBody) ledge).
  { rewrite Ha. unfold stepGap, capsuleHalfHeight, ledge, playerBody; simpl.
    lra. }
  assert (Hinc : In curb [lowCurb; curb]) by (right; left; reflexivity).
  assert (Hinl : In ledge [ledge]) by (left; reflexivity).
  split.
  - destruct (step_climb_threshold [lowCurb; curb] playerBody curb Hinc
                (Hi 0.4 ltac:(lra)) Hc) as [Hstep _].
    destruct (Hstep Hgc) as (_ & _ & _ & Hg & Hmax & _).
    split; [exact Hinc|]. split; [apply Hi; lra|]. split; [exact Hc|].
    split; [exact Hgc|]. split; [|exact Hg].
    apply Hmax. intros s' [<-|[<-|[]]]; simpl; lra.
  - destruct (step_climb_threshold [ledge] playerBody ledge Hinl
                (Hi 0.41 ltac:(lra)) Hl) as [_ Hwall].
    destruct (Hwall Hgl [] [] eq_refl) as (E & Hy & _).
    split; [exact Hinl|]. split; [apply Hi; lra|]. split; [exact Hl|].
    split; [exact Hgl|]. split; [exact E | exact Hy].
Defined.

(** The sedan standing on the ground plane through a step of 0.05. *)
Lemma resting_box_not_grounded_witness :
  0 < 0.05
  /\ nth_error (bodies sedanWorld) 0 = Some sedanBody
  /\ ctype (collider sedanBody) = box
  /\ restsOnGround (staticColliders sedanWorld) sedanBody
  /\ exists b', nth_error (bodies (step 0.05 sedanWorld)) 0 = Some b'
                /\ vy (position b') = vy (csize (collider sedanBody))
                /\ isGrounded b' = false.
Proof.
  assert (Hr : restsOnGround (staticColliders sedanWorld) sedanBody).
  { unfold restsOnGround, restHeight; simpl.
    repeat split; try lra. constructor. }
  split; [lra|]. split; [reflexivity|]. split; [reflexivity|].
  split; [exact Hr|].
  apply (resting_box_not_grounded 0.05 sedanWorld 0 sedanBody);
    [lra | reflexivity | reflexivity | exact Hr].
Defined.

(** The camera at rest behind a target at the origin. *)

Lemma rest_naive : naiveDesiredPos (vec3 0 0 0) noInputs = vec3 0 2 6.
Proof.
  unfold naiveDesiredPos. rewrite orbitOffset_rest.
  unfold add; simpl. f_equal; lra.
Qed.

Lemma sqrt40_bounds : 6.3245 < sqrt 40 < 6.3246.
Proof.
  split.
  - rewrite <- (sqrt_square 6.3245) by lra. apply sqrt_lt_1_alt. lra.
  - rewrite <- (sqrt_square 6.3246) by lra. apply sqrt_lt_1_alt. lra.
Qed.

Lemma rest_full : distanceTo (vec3 0 0 0) (vec3 0 2 6) = sqrt 40.
Proof.
  unfold distanceTo, Three.length, lengthSq, sub; simpl. f_equal. lra.
Qed.



(** The probe ray at rest. *)
Lemma rest_ray :
  probeRay (vec3 0 0 0) (vec3 0 2 6)
  = Ray.mkRay (vec3 0 1 0) (vec3 0 (2 * (1 / sqrt 40)) (6 * (1 / sqrt 40))).
Proof.
  pose proof sqrt40_bounds as HL.
  assert (E : Three.length (sub (vec3 0 2 6) (vec3 0 0 0)) = sqrt 40).
  { unfold Three.length, lengthSq, sub; simpl. f_equal. lra. }
  unfold probeRay, probeDirection, normalize. rewrite E.
  replace (Reqb (sqrt 40) 0) with false by (symmetry; apply Reqb_false; lra).
  unfold divideScalar, multiplyScalar, rayStart, add, sub; simpl.
  replace 1.0 with 1 by lra. f_equal. f_equal; lra. f_equal; lra.
Qed.

(** Why the statements about what the probe hits ask for boxes that are not
    empty: [insideOutWall] holds no point at all, yet [Ray.intersectBox]
    reports a hit on it, at the plane of its [min.z], and the camera is
    pulled in. *)
Lemma inverted_box_is_hit :
  isEmpty insideOutWall = true
  /\ (forall p, containsPoint insideOutWall p = false)
  /\ probeHitDist (vec3 0 0 0) (vec3 0 2 6) [insideOutWall] = 4 / 6 * sqrt 40
  /\ resolvedCamera (vec3 0 0 0) noInputs [insideOutWall]
     <> naiveDesiredPos (vec3 0 0 0) noInputs.
Proof.
  pose proof sqrt40_bounds as HL.
  assert (Hi : sqrt 40 * (1 / sqrt 40) = 1) by (field; lra).
  assert (Hh : probeHitDist (vec3 0 0 0) (vec3 0 2 6) [insideOutWall]
               = 4 / 6 * sqrt 40).
  { rewrite probeHitDist_eq, rest_ray, rest_full. simpl.
    set (i := 1 / sqrt 40) in *.
    assert (Hib : 0.15811 < i < 0.15812) by nra.
    assert (Ea : 2 * i * (1 / (2 * i)) = 1) by (field; lra).
    assert (Ec : 6 * i * (1 / (6 * i)) = 1) by (field; lra).
    set (ia := 1 / (2 * i)) in *. set (ic := 1 / (6 * i)) in *.
    assert (Hia : 3.162 < ia < 3.163) by nra.
    assert (Hic : 1.054 < ic < 1.0545) by nra.
    unfold probeBox, Ray.intersectBoxParam, Ray.slab, Ray.xinv, insideOutWall.
    simpl.
    replace (Reqb 0 0) with true by (symmetry; apply Reqb_true; lra).
    replace (Reqb (2 * i) 0) with false by (symmetry; apply Reqb_false; lra).
    replace (Reqb (6 * i) 0) with false by (symmetry; apply Reqb_false; lra).
    fold ia ic. clearbody ia ic.
    do 4 eval_cmp.
    unfold distanceTo, Ray.at_, addScaledVector, sub, Three.length, lengthSq.
    simpl.
    assert (Es : sqrt 40 * sqrt 40 = 40) by (apply sqrt_sqrt; lra).
    match goal with
    | |- context [Rltb (sqrt ?a) _] =>
        replace a with (4 / 6 * sqrt 40 * (4 / 6 * sqrt 40)) by nra
    end.
    rewrite sqrt_square by lra.
    replace (Rltb _ _) with true by (symmetry; apply Rltb_true; lra).
    reflexivity. }
  split; [unfold isEmpty, insideOutWall; eval_cmp; reflexivity|].
  split.
  { intros [x y z]. unfold containsPoint, insideOutWall. simpl.
    apply not_true_is_false. intros E.
    bool_to_prop. lra. }
  split; [exact Hh|].
  unfold resolvedCamera. rewrite rest_naive. unfold collisionProbe.
  rewrite Hh, rest_full.
  replace (Rltb _ _) with true by (symmetry; apply Rltb_true; lra).
  rewrite (f_equal Ray.direction rest_ray : probeDirection _ _ = _).
  intros E. apply (f_equal vz) in E. simpl in E. nra.
Qed.



(** * Further properties of the physics world *)

Lemma sameShape_refl (b : PhysicsBody) : sameShape b b.
Proof. unfold sameShape. auto. Qed.

Lemma sameShape_trans (a b c : PhysicsBody) :
  sameShape a b -> sameShape b c -> sameShape a c.
Proof.
  unfold sameShape. intros (H1 & H2 & H3 & H4) (K1 & K2 & K3 & K4).
  repeat split; congruence.
Qed.

Lemma capsuleVsStatic_shape (radius h bottom : R) (cb : Box3)
    (b : PhysicsBody) (s : Box3) :
  sameShape b (capsuleVsStatic radius h bottom cb b s).
Proof.
  unfold sameShape, capsuleVsStatic, capsuleWall.
  destruct_ifs; repeat split.
Qed.

Lemma boxVsStatic_shape (pb : Box3) (b : PhysicsBody) (s : Box3) :
  sameShape b (boxVsStatic pb b s).
Proof. unfold sameShape, boxVsStatic. destruct_ifs; repeat split. Qed.

Lemma resolve_shape (statics : list Box3) (b : PhysicsBody) :
  sameShape b (resolve statics b).
Proof.
  unfold resolve. destruct (ctype (collider (set_isGrounded b false))).
  - unfold resolveBox. apply (fold_left_invariant (sameShape b)).
    + intros a s Ha. eapply sameShape_trans; [exact Ha|].
      apply boxVsStatic_shape.
    + unfold sameShape, boxFloor. destruct_ifs; repeat split.
  - unfold resolveCapsule. apply (fold_left_invariant (sameShape b)).
    + intros a s Ha. eapply sameShape_trans; [exact Ha|].
      apply capsuleVsStatic_shape.
    + unfold sameShape, capsuleFloor. destruct_ifs; repeat split.
Qed.

Lemma simulateBody_shape (dt : R) (statics : list Box3) (b : PhysicsBody) :
  sameShape b (simulateBody dt statics b).
Proof.
  unfold simulateBody. destruct_ifs.
  - apply sameShape_refl.
  - unfold sameShape. repeat split.
  - eapply sameShape_trans; [|apply resolve_shape].
    unfold sameShape, integrate. destruct_ifs; repeat split.
Qed.

Lemma Forall2_sameShape_refl (l : list PhysicsBody) : Forall2 sameShape l l.
Proof. induction l; constructor; auto using sameShape_refl. Qed.

Lemma Forall2_sameShape_trans (l1 l2 l3 : list PhysicsBody) :
  Forall2 sameShape l1 l2 -> Forall2 sameShape l2 l3 ->
  Forall2 sameShape l1 l3.
Proof.
  intros H. revert l3. induction H; intros l3 K; inversion K; subst.
  - constructor.
  - constructor; eauto using sameShape_trans.
Qed.

Lemma simulate_shape (dt : R) (w : PhysicsWorld) :
  staticColliders (simulate dt w) = staticColliders w
  /\ Forall2 sameShape (bodies w) (bodies (simulate dt w)).
Proof.
  split; [reflexivity|]. unfold simulate; simpl.
  induction (bodies w); simpl; constructor; auto using simulateBody_shape.
Qed.

Lemma step_shape (dt : R) (w : PhysicsWorld) :
  staticColliders (step dt w) = staticColliders w
  /\ Forall2 sameShape (bodies w) (bodies (step dt w)).
Proof.
  rewrite step_is_four_substeps.
  set (w1 := simulate (dt / 4) w).
  set (w2 := simulate (dt / 4) w1).
  set (w3 := simulate (dt / 4) w2).
  destruct (simulate_shape (dt / 4) w) as [S1 F1].
  destruct (simulate_shape (dt / 4) w1) as [S2 F2].
  destruct (simulate_shape (dt / 4) w2) as [S3 F3].
  destruct (simulate_shape (dt / 4) w3) as [S4 F4].
  fold w1 in S1, F1. fold w2 in S2, F2. fold w3 in S3, F3.
  split; [congruence|].
  eauto using Forall2_sameShape_trans.
Qed.

(** X1: however many frames are stepped, with whatever time steps, the
    static colliders stay exactly as they were, and the bodies stay in
    number and order, each with its mass, size, collider and sleeping flag
    untouched. *)
Theorem steps_keep_world_shape (dts : list R) (w : PhysicsWorld) :
  staticColliders (runSteps dts w) = staticColliders w
  /\ List.length (bodies (runSteps dts w)) = List.length (bodies w)
  /\ Forall2 sameShape (bodies w) (bodies (runSteps dts w)).
Proof.
  assert (H : staticColliders (runSteps dts w) = staticColliders w
              /\ Forall2 sameShape (bodies w) (bodies (runSteps dts w))).
  { unfold runSteps. revert w.
    induction dts as [|dt dts IH]; intros w; simpl.
    - split; [reflexivity | apply Forall2_sameShape_refl].
    - destruct (IH (step dt w)) as [S F].
      destruct (step_shape dt w) as [S1 F1].
      split; [congruence|]. eauto using Forall2_sameShape_trans. }
  destruct H as [S F]. split; [exact S|]. split; [|exact F].
  symmetry. eapply Forall2_length. exact F.
Qed.

(** ** A capsule never ends a sub-step sunk into the ground *)

Lemma capsuleVsStatic_grounded_velocity (radius h bottom : R) (cb : Box3)
    (b : PhysicsBody) (s : Box3) :
  (isGrounded b = true -> 0 <= vy (velocity b)) ->
  isGrounded (capsuleVsStatic radius h bottom cb b s) = true ->
  0 <= vy (velocity (capsuleVsStatic radius h bottom cb b s)).
Proof.
  intros Hb. unfold capsuleVsStatic.
  destruct (intersectsBox cb s); [|exact Hb].
  match goal with
  | |- context [if ?c then _ else _] => destruct c
  end.
  - intros _. simpl. lra.
  - destruct (capsuleWall_keeps_height radius b s) as (_ & Hv & Hg).
    rewrite Hv, Hg. exact Hb.
Qed.

Lemma resolveCapsule_above_floor (statics : list Box3) (b : PhysicsBody) :
  isGrounded b = false ->
  capsuleHalfHeight b <= vy (position (resolveCapsule statics b))
  /\ (isGrounded (resolveCapsule statics b) = true ->
      0 <= vy (velocity (resolveCapsule statics b))).
Proof.
  intros Hg. unfold resolveCapsule. fold (capsuleHalfHeight b).
  apply (fold_left_invariant
           (fun a => capsuleHalfHeight b <= vy (position a)
                     /\ (isGrounded a = true -> 0 <= vy (velocity a)))).
  - intros a s [Hy Hv]. split.
    + eapply Rle_trans; [exact Hy | apply capsuleVsStatic_y_le].
    + now apply capsuleVsStatic_grounded_velocity.
  - unfold capsuleFloor.
    destruct (Rltb (vy (position b)) (capsuleHalfHeight b)) eqn:E;
      bool_to_prop.
    + destruct (Rltb (vy (velocity (set_position b _))) 0) eqn:E2;
        bool_to_prop; simpl in *; split; intros; lra.
    + split; [exact E | intros K; congruence].
Qed.

(** X2: after a sub-step, a dynamic capsule body that was not below the
    void bound stands at least [halfHeight] above the ground plane, whatever
    the static colliders did to it, and when it ends grounded it has no
    downward velocity. *)
Theorem capsule_substep_above_floor (dt : R) (statics : list Box3)
    (b : PhysicsBody) :
  mass b <> 0 ->
  -20 <= vy (position b) ->
  ctype (collider b) = capsule ->
  capsuleHalfHeight b <= vy (position (simulateBody dt statics b))
  /\ (isGrounded (simulateBody dt statics b) = true ->
      0 <= vy (velocity (simulateBody dt statics b))).
Proof.
  intros Hm Hy Hc. rewrite simulateBody_dynamic by assumption.
  destruct (integrate_shape dt b) as (_ & _ & Ic & _).
  unfold resolve. cbn [collider set_isGrounded]. rewrite Ic, Hc.
  replace (capsuleHalfHeight b)
    with (capsuleHalfHeight (set_isGrounded (integrate dt b) false))
    by (unfold capsuleHalfHeight; cbn [collider set_isGrounded];
        now rewrite Ic).
  now apply resolveCapsule_above_floor.
Qed.

(** ** Collision resolution never speeds a body up *)

Lemma lengthSq_addScaledVector (v n : Vector3) (k : R) :
  lengthSq (addScaledVector v n k)
  = lengthSq v + 2 * k * dot v n + k * k * dot n n.
Proof. unfold lengthSq, addScaledVector, dot; simpl. ring. Qed.

Lemma capsuleWall_speed (radius : R) (b : PhysicsBody) (s : Box3) :
  lengthSq (velocity (capsuleWall radius b s)) <= lengthSq (velocity b).
Proof.
  unfold capsuleWall. fold (wallDiff b s).
  destruct (Rltb (Three.length (wallDiff b s)) radius
            && Rgtb (Three.length (wallDiff b s)) 0) eqn:E.
  - bool_to_prop. cbn [velocity set_position].
    destruct (Rltb (dot (velocity b) (normalize (wallDiff b s))) 0) eqn:E2;
      bool_to_prop; [|simpl; lra].
    cbn [velocity set_velocity]. rewrite lengthSq_addScaledVector.
    rewrite normalize_unit by lra.
    set (d := dot (velocity b) (normalize (wallDiff b s))) in *. nra.
  - destruct (Reqb _ 0); [|lra].
    destruct (Rltb (Rabs _) (Rabs _)); simpl; lra.
Qed.

Lemma capsuleVsStatic_speed (radius h bottom : R) (cb : Box3)
    (b : PhysicsBody) (s : Box3) :
  lengthSq (velocity (capsuleVsStatic radius h bottom cb b s))
    <= lengthSq (velocity b).
Proof.
  unfold capsuleVsStatic.
  destruct (intersectsBox cb s); [|lra].
  match goal with
  | |- context [if ?c then _ else _] => destruct c
  end.
  - unfold lengthSq; simpl. nra.
  - apply capsuleWall_speed.
Qed.

Lemma boxVsStatic_speed (pb : Box3) (b : PhysicsBody) (s : Box3) :
  lengthSq (velocity (boxVsStatic pb b s)) <= lengthSq (velocity b).
Proof.
  unfold boxVsStatic. destruct_ifs; unfold lengthSq; simpl; nra.
Qed.

(** X3: collision resolution never increases the speed of a body: after
    [resolve] (either resolver, any static colliders) the squared length of
    the velocity is at most what it was, and so is the speed. *)
Theorem resolve_never_speeds_up (statics : list Box3) (b : PhysicsBody) :
  lengthSq (velocity (resolve statics b)) <= lengthSq (velocity b)
  /\ Three.length (velocity (resolve statics b))
     <= Three.length (velocity b).
Proof.
  assert (H : lengthSq (velocity (resolve statics b))
              <= lengthSq (velocity b)).
  { unfold resolve. destruct (ctype (collider (set_isGrounded b false))).
    - unfold resolveBox.
      apply (fold_left_invariant
               (fun a => lengthSq (velocity a) <= lengthSq (velocity b))).
      + intros a s Ha.
        eapply Rle_trans; [apply boxVsStatic_speed | exact Ha].
      + unfold boxFloor. destruct_ifs; unfold lengthSq; simpl; nra.
    - unfold resolveCapsule.
      apply (fold_left_invariant
               (fun a => lengthSq (velocity a) <= lengthSq (velocity b))).
      + intros a s Ha.
        eapply Rle_trans; [apply capsuleVsStatic_speed | exact Ha].
      + unfold capsuleFloor. destruct_ifs; unfold lengthSq; simpl; nra. }
  split; [exact H|]. unfold Three.length. now apply sqrt_le_1_alt.
Qed.

(** ** The wall push of the capsule resolver *)

Lemma normalize_scale (a : Vector3) :
  Three.length a <> 0 ->
  multiplyScalar (normalize a) (Three.length a) = a.
Proof.
  intros Hl. unfold normalize.
  replace (Reqb (Three.length a) 0) with false
    by (symmetry; now apply Reqb_false).
  unfold divideScalar, multiplyScalar; simpl.
  destruct a as [x y z]; simpl. f_equal; field; exact Hl.
Qed.

(** X4: a capsule whose axis is closer to the footprint of a static box
    than its radius (and not inside it) is pushed straight away from the
    nearest point of the footprint until it is exactly one radius from it;
    its height does not change, the velocity into the wall is removed and
    every velocity component along the wall is kept, so it slides. *)
Theorem wall_push_slides (radius : R) (b : PhysicsBody) (s : Box3) :
  0 < Three.length (wallDiff b s) < radius ->
  planarDist (position (capsuleWall radius b s)) (nearestFootprint b s)
    = radius
  /\ vy (position (capsuleWall radius b s)) = vy (position b)
  /\ 0 <= dot (velocity (capsuleWall radius b s)) (normalize (wallDiff b s))
  /\ forall t, dot (normalize (wallDiff b s)) t = 0 ->
               dot (velocity (capsuleWall radius b s)) t
               = dot (velocity b) t.
Proof.
  intros [H0 Hr].
  pose proof (capsuleWall_contact radius b s (conj H0 Hr)) as Hc.
  pose proof (capsuleWall_y radius b s) as Hy.
  split; [|split; [exact Hy|split; [exact Hc|]]].
  - unfold capsuleWall. fold (wallDiff b s). unfold Rgtb.
    replace (Rltb (Three.length (wallDiff b s)) radius) with true
      by (symmetry; now apply Rltb_true).
    replace (Rltb 0 (Three.length (wallDiff b s))) with true
      by (symmetry; now apply Rltb_true).
    cbn [andb].
    assert (Hp : forall b', position b'
                   = addScaledVector (position b) (normalize (wallDiff b s))
                       (radius - Three.length (wallDiff b s)) ->
                 planarDist (position b') (nearestFootprint b s) = radius).
    { intros b' E. rewrite E. unfold planarDist.
      pose proof (normalize_scale (wallDiff b s) ltac:(lra)) as Hs.
      set (n := normalize (wallDiff b s)) in *.
      set (l := Three.length (wallDiff b s)) in *.
      replace (vec3 _ 0 _) with (multiplyScalar n radius).
      - rewrite length_multiplyScalar. unfold n.
        rewrite length_normalize by (fold l; lra).
        rewrite Rabs_pos_eq by lra. ring.
      - assert (Hx : vx n * l = vx (wallDiff b s)) by (rewrite <- Hs; reflexivity).
        assert (Hz : vz n * l = vz (wallDiff b s)) by (rewrite <- Hs; reflexivity).
        assert (Hn : vy n = 0) by (unfold n, wallDiff; apply normalize_flat_y).
        unfold multiplyScalar, addScaledVector, nearestFootprint; simpl.
        unfold wallDiff in Hx, Hz; simpl in Hx, Hz.
        f_equal; [nra | ring | nra]. }
    destruct (Rltb _ 0); apply Hp; reflexivity.
  - intros t Ht. unfold capsuleWall. fold (wallDiff b s). unfold Rgtb.
    replace (Rltb (Three.length (wallDiff b s)) radius) with true
      by (symmetry; now apply Rltb_true).
    replace (Rltb 0 (Three.length (wallDiff b s))) with true
      by (symmetry; now apply Rltb_true).
    cbn [andb velocity set_position].
    destruct (Rltb _ 0); [|reflexivity].
    cbn [velocity set_velocity]. rewrite dot_addScaledVector, Ht. ring.
Qed.

(** ** The push-out of the box resolver *)

Lemma getSize_intersect_nonempty (a s : Box3) :
  getSize (intersect a s) <> vec3 0 0 0 ->
  getSize (intersect a s)
  = sub (vmin (bmax a) (bmax s)) (vmax (bmin a) (bmin s))
  /\ vx (vmax (bmin a) (bmin s)) <= vx (vmin (bmax a) (bmax s))
  /\ vy (vmax (bmin a) (bmin s)) <= vy (vmin (bmax a) (bmax s))
  /\ vz (vmax (bmin a) (bmin s)) <= vz (vmin (bmax a) (bmax s)).
Proof.
  unfold getSize. destruct (isEmpty (intersect a s)) eqn:E.
  - intros H. now contradiction H.
  - intros _. unfold isEmpty, intersect in E. simpl in E.
    bool_to_prop. repeat split; assumption.
Qed.

(** X5: the box resolver, when the overlap with a static box is smallest
    along x, moves the body along x by exactly that overlap (the x extent of
    the intersection of the two boxes): toward +x when the body's centre is
    beyond the max face of the static box, toward -x otherwise.  It
    reverses the x velocity at half size and leaves y and z alone.  A body
    whose centre is beyond the max face of the static box (and that does
    not reach past its min face) ends exactly touching the max face; a body
    that pokes out of the min side only ends exactly touching the min
    face. *)
Theorem box_side_push (b : PhysicsBody) (s : Box3) :
  intersectsBox (boxBounds b) s = true ->
  vx (getSize (intersect (boxBounds b) s))
    < vz (getSize (intersect (boxBounds b) s)) ->
  vx (getSize (intersect (boxBounds b) s))
    < vy (getSize (intersect (boxBounds b) s)) ->
  0 <= overlapX (boxBounds b) s
  /\ (vx (bmax s) < vx (position b) ->
      vx (position (boxVsStatic (boxBounds b) b s))
      = vx (position b) + overlapX (boxBounds b) s)
  /\ (vx (position b) <= vx (bmax s) ->
      vx (position (boxVsStatic (boxBounds b) b s))
      = vx (position b) - overlapX (boxBounds b) s)
  /\ vx (velocity (boxVsStatic (boxBounds b) b s)) = vx (velocity b) * -0.5
  /\ vy (position (boxVsStatic (boxBounds b) b s)) = vy (position b)
  /\ vz (position (boxVsStatic (boxBounds b) b s)) = vz (position b)
  /\ vy (velocity (boxVsStatic (boxBounds b) b s)) = vy (velocity b)
  /\ vz (velocity (boxVsStatic (boxBounds b) b s)) = vz (velocity b)
  /\ (vx (bmax s) < vx (position b) ->
      vx (bmin s) <= vx (bmin (boxBounds b)) ->
      vx (bmin (boxBounds (boxVsStatic (boxBounds b) b s))) = vx (bmax s))
  /\ (vx (bmax (boxBounds b)) <= vx (bmax s) ->
      vx (bmin (boxBounds b)) <= vx (bmin s) ->
      vx (bmax (boxBounds (boxVsStatic (boxBounds b) b s))) = vx (bmin s)).
Proof.
  intros Hi Hxz Hxy.
  assert (Hne : getSize (intersect (boxBounds b) s) <> vec3 0 0 0).
  { intros E. rewrite E in Hxz. simpl in Hxz. lra. }
  destruct (getSize_intersect_nonempty _ _ Hne) as (Esz & Ox & Oy & Oz).
  unfold boxVsStatic. rewrite Hi.
  replace (Rltb (vx _) (vz _) && Rltb (vx _) (vy _)) with true
    by (symmetry; apply andb_true_iff; split; now apply Rltb_true).
  rewrite Esz in *. clear Esz Hne.
  unfold overlapX, boxBounds, setFromCenterAndSize, sub, add, vmin, vmax,
    multiplyScalar, Rgtb in *.
  cbn [position velocity size set_position set_velocity set_x
       vx vy vz bmin bmax] in *.
  split; [lra|]. split; [|split].
  - intros Hc.
    replace (Rltb _ _) with true by (symmetry; apply Rltb_true; exact Hc).
    ring.
  - intros Hc.
    replace (Rltb _ _) with false by (symmetry; apply Rltb_false; exact Hc).
    ring.
  - repeat split.
    + intros Hc Hm.
      replace (Rltb _ _) with true by (symmetry; apply Rltb_true; exact Hc).
      split_minmax; lra.
    + intros Hc Hm.
      replace (Rltb _ _) with false
        by (symmetry; apply Rltb_false; split_minmax; lra).
      split_minmax; lra.
Qed.

(** X6: when the overlap is smallest along y (ties included), the body is
    moved along y by that overlap and its vertical velocity is set to zero.
    A body with a real extent, whose centre is above the top of a real
    static box and whose bottom is not below its bottom, ends standing
    exactly on the top face. *)
Theorem box_lands_on_top (b : PhysicsBody) (s : Box3) :
  intersectsBox (boxBounds b) s = true ->
  0 <= vx (size b) -> 0 <= vy (size b) -> 0 <= vz (size b) ->
  isEmpty s = false ->
  vy (getSize (intersect (boxBounds b) s))
    <= vx (getSize (intersect (boxBounds b) s)) ->
  vy (getSize (intersect (boxBounds b) s))
    <= vz (getSize (intersect (boxBounds b) s)) ->
  vy (bmax s) < vy (position b) ->
  vy (bmin s) <= vy (bmin (boxBounds b)) ->
  vy (bmin (boxBounds (boxVsStatic (boxBounds b) b s))) = vy (bmax s)
  /\ vy (velocity (boxVsStatic (boxBounds b) b s)) = 0
  /\ vx (position (boxVsStatic (boxBounds b) b s)) = vx (position b)
  /\ vz (position (boxVsStatic (boxBounds b) b s)) = vz (position b)
  /\ vx (velocity (boxVsStatic (boxBounds b) b s)) = vx (velocity b)
  /\ vz (velocity (boxVsStatic (boxBounds b) b s)) = vz (velocity b).
Proof.
  intros Hi Sx Sy Sz Hs Hyx Hyz Hc Hm.
  assert (Esz : getSize (intersect (boxBounds b) s)
                = sub (vmin (bmax (boxBounds b)) (bmax s))
                      (vmax (bmin (boxBounds b)) (bmin s))).
  { unfold getSize.
    replace (isEmpty (intersect (boxBounds b) s)) with false; [reflexivity|].
    symmetry. unfold isEmpty in *. unfold intersectsBox in Hi.
    bool_to_prop.
    unfold intersect, boxBounds, setFromCenterAndSize, sub, add, vmin,
      vmax, multiplyScalar in *.
    cbn [vx vy vz bmin bmax] in *.
    apply orb_false_iff; split; [apply orb_false_iff; split|];
      apply Rltb_false; split_minmax; lra. }
  unfold boxVsStatic. rewrite Hi. rewrite Esz in *. clear Esz.
  replace (Rltb (vx _) (vz _) && Rltb (vx _) (vy _)) with false
    by (symmetry; apply andb_false_iff; right; apply Rltb_false; exact Hyx).
  replace (Rltb (vz _) (vx _) && Rltb (vz _) (vy _)) with false
    by (symmetry; apply andb_false_iff; right; apply Rltb_false; exact Hyz).
  unfold Rgtb.
  replace (Rltb (vy (bmax s)) (vy (position b))) with true
    by (symmetry; apply Rltb_true; exact Hc).
  unfold boxBounds, setFromCenterAndSize, sub, add, vmin, vmax,
    multiplyScalar in *.
  cbn [position velocity size set_position set_velocity set_y
       vx vy vz bmin bmax] in *.
  repeat split. split_minmax; lra.
Qed.

(** * Further properties of the vehicle *)

Lemma wheel_frame (cfg : VehicleConfig) (on : bool) (steering throttle brk : R)
    (inputs : InputState) (world : PhysicsWorld) (i : nat)
    (mountLocal : Vector3) (b : PhysicsBody) :
  let b' := fst (wheel cfg on steering throttle brk inputs world i
                       mountLocal b) in
  position b' = position b /\ rotation b' = rotation b
  /\ angularVelocity b' = angularVelocity b /\ isGrounded b' = isGrounded b
  /\ sameShape b b'.
Proof.
  unfold wheel, sameShape.
  destruct (raycast world _ _ _); simpl; [|repeat split].
  destruct (on && Rgtb brk 0 && Rltb _ 1.0); repeat split.
Qed.

Lemma wheels_frame (cfg : VehicleConfig) (on : bool)
    (steering throttle brk : R) (inputs : InputState) (world : PhysicsWorld)
    (mounts : list Vector3) :
  forall (i : nat) (b : PhysicsBody),
  let b' := fst (wheels cfg on steering throttle brk inputs world i
                        mounts b) in
  position b' = position b /\ rotation b' = rotation b
  /\ angularVelocity b' = angularVelocity b /\ isGrounded b' = isGrounded b
  /\ sameShape b b'.
Proof.
  induction mounts as [|m rest IH]; intros i b; simpl.
  - repeat split.
  - pose proof (wheel_frame cfg on steering throttle brk inputs world i m b)
      as H1.
    destruct (wheel cfg on steering throttle brk inputs world i m b)
      as [b1 imps] eqn:E1.
    pose proof (IH (S i) b1) as H2.
    destruct (wheels cfg on steering throttle brk inputs world (S i) rest b1)
      as [b2 imps'] eqn:E2.
    simpl in *.
    destruct H1 as (P1 & R1 & A1 & G1 & S1).
    destruct H2 as (P2 & R2 & A2 & G2 & S2).
    repeat split; try congruence.
    all: destruct S1 as (? & ? & ? & ?); destruct S2 as (? & ? & ? & ?);
      congruence.
Qed.

Lemma applyImpulses_frame (dt : R) (imps : list Impulse) :
  forall b : PhysicsBody,
  let b' := fold_left (applyImpulse dt) imps b in
  position b' = position b /\ rotation b' = rotation b
  /\ isGrounded b' = isGrounded b /\ sameShape b b'.
Proof.
  induction imps as [|imp imps IH]; intros b; simpl.
  - unfold sameShape. repeat split.
  - destruct (IH (applyImpulse dt b imp)) as (P & R & G & (M & S & C & L)).
    unfold sameShape. simpl in *. repeat split; assumption.
Qed.

(** X7: [Car.update] never moves or turns the body: position, orientation,
    grounded flag, mass, size, collider and sleeping flag of the body are
    what they were, whatever the inputs and the world; only the two
    velocities change.  The configuration and the engine switch are kept. *)
Theorem car_update_changes_velocities_only (dt : R) (inputs : InputState)
    (world : PhysicsWorld) (c : Car) :
  position (body (Vehicle.update dt inputs world c)) = position (body c)
  /\ rotation (body (Vehicle.update dt inputs world c)) = rotation (body c)
  /\ isGrounded (body (Vehicle.update dt inputs world c))
     = isGrounded (body c)
  /\ sameShape (body c) (body (Vehicle.update dt inputs world c))
  /\ config (Vehicle.update dt inputs world c) = config c
  /\ engineOn (Vehicle.update dt inputs world c) = engineOn c.
Proof.
  unfold Vehicle.update.
  match goal with
  | |- context [wheels ?cfg ?on ?st ?th ?bk ?inp ?w ?i ?ms ?b] =>
      pose proof (wheels_frame cfg on st th bk inp w ms i b) as Hw;
      destruct (wheels cfg on st th bk inp w i ms b) as [b1 imps] eqn:E
  end.
  simpl in Hw. destruct Hw as (P1 & R1 & _ & G1 & S1).
  destruct (applyImpulses_frame dt imps b1) as (P2 & R2 & G2 & S2).
  cbn [body config engineOn position rotation isGrounded set_velocity].
  destruct S1 as (M1 & Z1 & C1 & L1). destruct S2 as (M2 & Z2 & C2 & L2).
  unfold sameShape.
  cbn [mass size collider isSleeping set_velocity].
  repeat split; congruence.
Qed.

(** ** Steering *)

Lemma steerFactor_range (speed : R) :
  0 <= speed -> 0 < 1.0 / (1.0 + speed / 20.0) <= 1.
Proof.
  intros Hs.
  assert (H1 : 1 <= 1.0 + speed / 20.0) by lra.
  split.
  - apply Rdiv_lt_0_compat; lra.
  - apply (Rmult_le_reg_r (1.0 + speed / 20.0)); [lra|].
    unfold Rdiv. rewrite Rmult_assoc, Rinv_l by lra. lra.
Qed.

(** X8: the steering angle stays within 45 degrees: for a time step with
    [0 <= dt <= 0.2] (the frame loop passes at most 0.05), an angle within
    [-PI/4, PI/4] is still within it after [Car.update], whatever the
    keys, the speed and the world. *)
Theorem steering_stays_within_limit (dt : R) (inputs : InputState)
    (world : PhysicsWorld) (c : Car) :
  0 <= dt <= 0.2 ->
  - (PI / 4) <= steeringAngle c <= PI / 4 ->
  - (PI / 4) <= steeringAngle (Vehicle.update dt inputs world c) <= PI / 4.
Proof.
  intros Hdt Hs. unfold Vehicle.update.
  match goal with
  | |- context [wheels ?cfg ?on ?st ?th ?bk ?inp ?w ?i ?ms ?b] =>
      destruct (wheels cfg on st th bk inp w i ms b) as [b1 imps]
  end.
  cbn [steeringAngle].
  pose proof (steerFactor_range (Three.length (velocity (body c)))
                (length_nonneg _)) as Hf.
  set (f := 1.0 / (1.0 + Three.length (velocity (body c)) / 20.0)) in *.
  pose proof PI_RGT_0 as Hpi.
  set (M := PI / 4) in *.
  assert (HM : 0 < M) by (unfold M; lra).
  set (si := if engineOn c
             then if right inputs then -1 else if left inputs then 1 else 0
             else 0).
  assert (Hsi : -1 <= si <= 1)
    by (unfold si; destruct (engineOn c), (right inputs), (left inputs); lra).
  assert (Hg : 0 <= M * f <= M) by (split; nra).
  assert (Ht : - M <= si * M * f <= M).
  { replace (si * M * f) with (si * (M * f)) by ring.
    set (g := M * f) in *. split; nra. }
  set (T := si * M * f) in *.
  set (a := steeringAngle c) in *.
  split; nra.
Qed.

(** ** Impulses *)

Lemma applyImpulse_frame (dt : R) (b : PhysicsBody) (imp : Impulse) :
  position (applyImpulse dt b imp) = position b
  /\ mass (applyImpulse dt b imp) = mass b.
Proof. unfold applyImpulse. split; reflexivity. Qed.

(** X9: applying a list of impulses adds the total force times [dt / mass]
    to the linear velocity and the total torque about the centre of the
    body times [dt / (2 mass)] to the angular velocity: the impulses add
    up, and their order does not matter. *)
Theorem impulses_add_up (dt : R) (imps : list Impulse) (b : PhysicsBody) :
  velocity (fold_left (applyImpulse dt) imps b)
  = addScaledVector (velocity b) (totalForce imps) (dt / mass b)
  /\ angularVelocity (fold_left (applyImpulse dt) imps b)
     = addScaledVector (angularVelocity b) (totalTorque (position b) imps)
         (dt / (mass b * 2.0)).
Proof.
  revert b. induction imps as [|imp imps IH]; intros b.
  - simpl. unfold addScaledVector; simpl.
    destruct (velocity b), (angularVelocity b); simpl.
    split; f_equal; ring.
  - cbn [fold_left]. destruct (IH (applyImpulse dt b imp)) as [Hv Hw].
    destruct (applyImpulse_frame dt b imp) as [Hp Hm].
    rewrite Hv, Hw, Hp, Hm. clear Hv Hw.
    unfold applyImpulse, addScaledVector, totalForce, totalTorque, add.
    cbn [velocity angularVelocity position mass set_velocity
         set_angularVelocity fold_right vx vy vz].
    split; f_equal; ring.
Qed.

(** ** Suspension *)

(** X10: for a vehicle body at rest (no linear and no angular velocity),
    with a positive suspension length and a stiffness that is not
    negative, the suspension force of a wheel whose ray hits the ground is
    the spring force alone: the stiffness times
    [min(1, 1 - (dist - wheelRadius) / suspensionLength)].  It lies between
    zero and the stiffness, is the full stiffness when the ground is within
    a wheel radius, and is zero at full extension. *)
Theorem suspension_force_at_rest (cfg : VehicleConfig) (world : PhysicsWorld)
    (b : PhysicsBody) (mountLocal : Vector3) (hit : RayHit) :
  velocity b = vec3 0 0 0 ->
  angularVelocity b = vec3 0 0 0 ->
  0 < suspensionLength cfg ->
  0 <= suspensionStiffness cfg ->
  raycast world (mountWorld b mountLocal) (down b) (rayLength cfg) = Some hit ->
  suspensionForce cfg b mountLocal hit
  = suspensionStiffness cfg
    * Rmin 1 (1 - (dist hit - wheelRadius cfg) / suspensionLength cfg)
  /\ 0 <= suspensionForce cfg b mountLocal hit <= suspensionStiffness cfg
  /\ (dist hit <= wheelRadius cfg ->
      suspensionForce cfg b mountLocal hit = suspensionStiffness cfg)
  /\ (dist hit = rayLength cfg ->
      suspensionForce cfg b mountLocal hit = 0).
Proof.
  intros Hv Hw HL Hk Hr.
  assert (Hd : dist hit <= rayLength cfg).
  { rewrite raycast_eq in Hr.
    destruct (Rltb _ 0 && _) eqn:E; [|discriminate].
    inversion Hr; subst hit; simpl. bool_to_prop. assumption. }
  unfold rayLength in Hd.
  assert (Hpv : dot (pointVel b mountLocal) (down b) = 0).
  { unfold pointVel. rewrite Hv, Hw. unfold dot, add, cross; simpl. ring. }
  unfold suspensionForce. rewrite Hpv.
  set (L := suspensionLength cfg) in *.
  set (k := suspensionStiffness cfg) in *.
  set (r := wheelRadius cfg) in *.
  assert (Hq : (dist hit - r) / L <= 1).
  { apply (Rmult_le_reg_r L); [exact HL|].
    unfold Rdiv. rewrite Rmult_assoc, Rinv_l by lra. lra. }
  set (q := (dist hit - r) / L) in *.
  replace (1.0 - q) with (1 - q) by lra.
  assert (Hc : 0 <= Rmin 1 (1 - q) <= 1) by (split_minmax; lra).
  rewrite (Rmax_right 0 (Rmin 1 (1 - q))) by lra.
  set (c := Rmin 1 (1 - q)) in *.
  assert (Hck : 0 <= c * k <= k) by (split; nra).
  rewrite Rmax_right by lra.
  split; [lra|]. split; [lra|]. split.
  - intros Hn.
    assert (q <= 0).
    { unfold q. apply (Rmult_le_reg_r L); [exact HL|].
      unfold Rdiv. rewrite Rmult_assoc, Rinv_l by lra. lra. }
    assert (c = 1) by (unfold c; split_minmax; lra).
    subst c. nra.
  - intros He.
    assert (q = 1).
    { unfold q. rewrite He. unfold rayLength. fold L r. field. lra. }
    assert (c = 0) by (unfold c; split_minmax; lra).
    nra.
Qed.

(** ** A car out of reach of the ground *)

Lemma mountWorld_height (b : PhysicsBody) (m : Vector3) :
  qx (rotation b) = 0 -> qz (rotation b) = 0 ->
  vy (mountWorld b m) = vy m + vy (position b).
Proof.
  intros Hx Hz. unfold mountWorld, add, applyQuaternion; simpl.
  rewrite Hx, Hz. ring.
Qed.

Lemma wheel_out_of_reach (cfg : VehicleConfig) (on : bool)
    (steering throttle brk : R) (inputs : InputState) (world : PhysicsWorld)
    (i : nat) (m : Vector3) (b : PhysicsBody) :
  qx (rotation b) = 0 -> qz (rotation b) = 0 ->
  rayLength cfg < vy (position b) + vy m ->
  wheel cfg on steering throttle brk inputs world i m b = (b, []).
Proof.
  intros Hx Hz Hh. unfold wheel.
  rewrite raycast_eq. unfold groundParam.
  rewrite (proj2 (down_is_world_down b) (conj Hx Hz)).
  rewrite mountWorld_height by assumption. cbn [vy].
  replace (- (vy m + vy (position b)) / -1) with (vy m + vy (position b))
    by lra.
  replace (Rleb (vy m + vy (position b)) (rayLength cfg)) with false
    by (symmetry; apply Rleb_false; lra).
  rewrite andb_false_r, andb_false_r. reflexivity.
Qed.

Lemma update_out_of_reach (dt : R) (inputs : InputState)
    (world : PhysicsWorld) (c : Car) :
  qx (rotation (body c)) = 0 ->
  qz (rotation (body c)) = 0 ->
  rayLength (config c) < vy (position (body c)) + wY ->
  body (Vehicle.update dt inputs world c)
  = set_velocity (body c)
      (addScaledVector (velocity (body c)) (velocity (body c))
         (- drag (config c) * Three.length (velocity (body c)) * dt)).
Proof.
  intros Hx Hz Hh. unfold Vehicle.update, mountPoints.
  cbn [wheels].
  repeat (rewrite wheel_out_of_reach by (assumption || exact Hh)).
  reflexivity.
Qed.

(** X11: a car without pitch or roll whose wheel mounts are higher above
    the ground plane than the suspension reaches (rest length plus wheel
    radius) gets no force from its wheels: whatever the keys, the engine
    and the steering, [Car.update] only applies the drag to its velocity
    and leaves its angular velocity alone. *)
Theorem car_out_of_reach_only_drag (dt : R) (inputs : InputState)
    (world : PhysicsWorld) (c : Car) :
  qx (rotation (body c)) = 0 ->
  qz (rotation (body c)) = 0 ->
  rayLength (config c) < vy (position (body c)) + wY ->
  body (Vehicle.update dt inputs world c)
  = set_velocity (body c)
      (addScaledVector (velocity (body c)) (velocity (body c))
         (- drag (config c) * Three.length (velocity (body c)) * dt))
  /\ angularVelocity (body (Vehicle.update dt inputs world c))
     = angularVelocity (body c).
Proof.
  intros Hx Hz Hh.
  rewrite (update_out_of_reach dt inputs world c Hx Hz Hh).
  split; reflexivity.
Qed.

(** * Further properties of the camera *)

(** X12: the third-person orbit keeps the camera on a sphere: for every
    view input, the naive desired position is exactly 6 units from the
    point 2 units above the target, and it is never straight above or
    below it (its horizontal distance from the target is positive). *)
Theorem orbit_keeps_distance (targetPos : Vector3) (inputs : InputState) :
  distanceTo (naiveDesiredPos targetPos inputs)
             (add targetPos (vec3 0 2 0)) = 6
  /\ 0 < planarDist (naiveDesiredPos targetPos inputs) targetPos.
Proof.
  pose proof (orbit_pitch_range inputs) as Hp.
  unfold naiveDesiredPos, orbitOffset.
  replace thirdPersonDist with 6 by (unfold thirdPersonDist; lra).
  replace thirdPersonHeight with 2 by (unfold thirdPersonHeight; lra).
  set (pitch := Rmax (-0.5) (Rmin 1.0 (viewY inputs))) in *.
  set (yaw := viewX inputs).
  pose proof (sin_cos_sq pitch) as Hsp.
  pose proof (sin_cos_sq yaw) as Hsy.
  assert (Hc : 0 < cos pitch).
  { pose proof PI2_1. apply cos_gt_0; lra. }
  split.
  - unfold distanceTo, Three.length. apply sqrt_of_square; [lra|].
    unfold lengthSq, sub, add; simpl.
    set (sp := sin pitch) in *. set (cp := cos pitch) in *.
    set (sy := sin yaw) in *. set (cy := cos yaw) in *.
    match goal with
    | |- ?E = _ =>
        replace E with (36 * (cp * cp * (sy * sy + cy * cy) + sp * sp))
          by ring
    end.
    rewrite Hsy. nra.
  - unfold planarDist, Three.length. apply sqrt_lt_R0.
    unfold lengthSq, add; simpl.
    set (cp := cos pitch) in *.
    set (sy := sin yaw) in *. set (cy := cos yaw) in *.
    match goal with
    | |- 0 < ?E =>
        replace E with (36 * (cp * cp) * (sy * sy + cy * cy)) by ring
    end.
    rewrite Hsy. nra.
Qed.

(** ** The probe takes the closest hit, in any order *)

Lemma probeBox_comm (r : Ray.Ray) (h : R) (a c : Box3) :
  probeBox r (probeBox r h a) c = probeBox r (probeBox r h c) a.
Proof.
  unfold probeBox.
  destruct (Ray.intersectBoxParam r a) as [[ta| | |]|];
    destruct (Ray.intersectBoxParam r c) as [[tc| | |]|]; try reflexivity.
  set (da := distanceTo (Ray.origin r) (Ray.at_ r ta)).
  set (dc := distanceTo (Ray.origin r) (Ray.at_ r tc)).
  destruct (Rltb da h) eqn:E1; destruct (Rltb dc h) eqn:E2;
    try rewrite E1; try rewrite E2;
    destruct (Rltb dc da) eqn:E3; destruct (Rltb da dc) eqn:E4;
    try rewrite E1; try rewrite E2;
    bool_to_prop; try reflexivity; lra.
Qed.

Lemma fold_probeBox_perm (r : Ray.Ray) (l l' : list Box3) :
  Permutation.Permutation l l' ->
  forall h, fold_left (probeBox r) l h = fold_left (probeBox r) l' h.
Proof.
  induction 1; intros h; simpl.
  - reflexivity.
  - apply IHPermutation.
  - now rewrite probeBox_comm.
  - now rewrite IHPermutation1.
Qed.

(** X13: the probe does not depend on the order of the static colliders:
    two lists that hold the same boxes in different orders give the same
    hit distance and the same resolved camera position.  With no static
    collider the desired position is returned as it is. *)
Theorem probe_order_independent (targetPos desiredPos : Vector3)
    (statics statics' : list Box3) :
  Permutation.Permutation statics statics' ->
  probeHitDist targetPos desiredPos statics
  = probeHitDist targetPos desiredPos statics'
  /\ collisionProbe targetPos desiredPos statics
     = collisionProbe targetPos desiredPos statics'
  /\ collisionProbe targetPos desiredPos [] = desiredPos.
Proof.
  intros Hp.
  assert (H : probeHitDist targetPos desiredPos statics
              = probeHitDist targetPos desiredPos statics').
  { unfold probeHitDist. now apply fold_probeBox_perm. }
  split; [exact H|]. split.
  - unfold collisionProbe. now rewrite H.
  - apply probe_without_hit. reflexivity.
Qed.

(** ** Smoothing *)

Lemma lerp_twice (c d : Vector3) (p q : R) :
  lerp (lerp c d (1.0 - p)) d (1.0 - q) = lerp c d (1.0 - p * q).
Proof.
  replace 1.0 with 1 by lra. unfold lerp; simpl. f_equal; ring.
Qed.

(** X14: the smoothing of the third-person camera does not depend on the
    frame rate: with the target, the inputs and the world unchanged, two
    updates with time steps [dt1] and [dt2] leave the rig exactly where one
    update with [dt1 + dt2] leaves it. *)
Theorem smoothing_frame_rate_independent (dt1 dt2 : R) (targetPos : Vector3)
    (inputs : InputState) (world : PhysicsWorld) (rig : CameraRig) :
  updateThirdPerson dt2 targetPos inputs world
    (updateThirdPerson dt1 targetPos inputs world rig)
  = updateThirdPerson (dt1 + dt2) targetPos inputs world rig.
Proof.
  unfold updateThirdPerson. cbn [currentPos currentLookAt mode].
  rewrite !lerp_twice, <- Rpower_plus. reflexivity.
Qed.

(** * The player *)

Lemma applyAxisAngle_yaw_flat (v : Vector3) (yaw : R) :
  vy v = 0 -> vy (Player.applyAxisAngle v (vec3 0 1 0) yaw) = 0.
Proof.
  intros Hv. unfold Player.applyAxisAngle, applyQuaternion, setFromAxisAngle.
  simpl. rewrite Hv. ring.
Qed.

Lemma wishDir_flat (inputs : Input.InputState) :
  vy (Player.wishDir inputs) = 0.
Proof.
  unfold Player.wishDir.
  assert (Hf : vy (Player.forwardDir (Input.viewX inputs)) = 0)
    by (apply applyAxisAngle_yaw_flat; reflexivity).
  assert (Hr : vy (Player.rightDir (Input.viewX inputs)) = 0)
    by (apply applyAxisAngle_yaw_flat; reflexivity).
  set (f := Player.forwardDir (Input.viewX inputs)) in *.
  set (r := Player.rightDir (Input.viewX inputs)) in *.
  match goal with
  | |- vy (if _ then normalize ?w else _) = 0 =>
      assert (Hw : vy w = 0)
  end.
  { destruct (Input.forward inputs), (Input.backward inputs),
      (Input.right inputs), (Input.left inputs);
      unfold add, sub; simpl; rewrite ?Hf, ?Hr; ring. }
  destruct (Rgtb _ 0); [|exact Hw].
  unfold normalize, divideScalar, multiplyScalar; simpl. rewrite Hw. ring.
Qed.

Lemma wishDir_unit (inputs : Input.InputState) :
  0 < lengthSq (Player.wishDir inputs) ->
  dot (Player.wishDir inputs) (Player.wishDir inputs) = 1.
Proof.
  unfold Player.wishDir.
  match goal with
  | |- 0 < lengthSq (if Rgtb (lengthSq ?w) 0 then _ else _) -> _ =>
      set (w4 := w)
  end.
  destruct (Rgtb (lengthSq w4) 0) eqn:E; bool_to_prop.
  - intros _. apply normalize_unit.
    unfold Three.length. pose proof (sqrt_lt_R0 _ E). lra.
  - intros H. lra.
Qed.

(** X15: on foot, [Player.update] never moves or turns the body and never
    touches its angular velocity; the vertical velocity changes only by a
    jump, which needs the jump key and a grounded body, sets it to 8 and
    clears the grounded flag.  The mesh is put where the body is. *)
Theorem player_update_on_foot (dt : R) (inputs : Input.InputState)
    (p : Player.Player) :
  Player.isDriving p = false ->
  position (Player.body (Player.update dt inputs p))
    = position (Player.body p)
  /\ rotation (Player.body (Player.update dt inputs p))
     = rotation (Player.body p)
  /\ angularVelocity (Player.body (Player.update dt inputs p))
     = angularVelocity (Player.body p)
  /\ sameShape (Player.body p) (Player.body (Player.update dt inputs p))
  /\ vy (velocity (Player.body (Player.update dt inputs p)))
     = (if Input.jump inputs && isGrounded (Player.body p)
        then 8 else vy (velocity (Player.body p)))
  /\ isGrounded (Player.body (Player.update dt inputs p))
     = (isGrounded (Player.body p) && negb (Input.jump inputs))
  /\ Player.meshPosition (Player.update dt inputs p)
     = position (Player.body p).
Proof.
  intros Hd. unfold Player.update. rewrite Hd.
  cbn [Player.body Player.meshPosition].
  pose proof (wishDir_flat inputs) as Hw.
  set (b := Player.body p).
  assert (Ha : position (Player.accelerate dt inputs b) = position b
               /\ rotation (Player.accelerate dt inputs b) = rotation b
               /\ angularVelocity (Player.accelerate dt inputs b)
                  = angularVelocity b
               /\ sameShape b (Player.accelerate dt inputs b)
               /\ isGrounded (Player.accelerate dt inputs b) = isGrounded b
               /\ vy (velocity (Player.accelerate dt inputs b))
                  = vy (velocity b)).
  { unfold Player.accelerate, sameShape.
    destruct (Rgtb (lengthSq _) 0); [|repeat split].
    destruct (Rgtb _ 0); [|repeat split].
    simpl. rewrite Hw. repeat split. ring. }
  destruct Ha as (A1 & A2 & A3 & (A4 & A5 & A6 & A7) & A8 & A9).
  set (b1 := Player.accelerate dt inputs b) in *.
  assert (Hf : position (Player.applyFriction dt b1) = position b1
               /\ rotation (Player.applyFriction dt b1) = rotation b1
               /\ angularVelocity (Player.applyFriction dt b1)
                  = angularVelocity b1
               /\ sameShape b1 (Player.applyFriction dt b1)
               /\ isGrounded (Player.applyFriction dt b1) = isGrounded b1
               /\ vy (velocity (Player.applyFriction dt b1))
                  = vy (velocity b1)).
  { unfold Player.applyFriction, sameShape.
    destruct (Rgtb _ 0); repeat split. }
  destruct Hf as (F1 & F2 & F3 & (F4 & F5 & F6 & F7) & F8 & F9).
  set (b2 := Player.applyFriction dt b1) in *.
  unfold Player.applyJump, sameShape. rewrite F8, A8.
  destruct (Input.jump inputs), (isGrounded b); simpl;
    repeat split; congruence.
Qed.

Lemma planarSpeed_scale (v : Vector3) (k : R) :
  0 <= k ->
  Three.length (vec3 (vx v * k) 0 (vz v * k)) = k * planarSpeed v.
Proof.
  intros Hk. unfold planarSpeed.
  replace (vec3 (vx v * k) 0 (vz v * k))
    with (multiplyScalar (vec3 (vx v) 0 (vz v)) k)
    by (unfold multiplyScalar; simpl; f_equal; ring).
  rewrite length_multiplyScalar, Rabs_pos_eq by exact Hk. reflexivity.
Qed.

Lemma applyFriction_speed (dt : R) (b : PhysicsBody) :
  planarSpeed (velocity (Player.applyFriction dt b))
  = Rmax 0 (planarSpeed (velocity b)
            - planarSpeed (velocity b)
              * (if isGrounded b then 8.0 else 0.5) * dt).
Proof.
  unfold Player.applyFriction. fold (planarSpeed (velocity b)).
  set (s := planarSpeed (velocity b)).
  assert (Hs : 0 <= s) by (unfold s, planarSpeed; apply length_nonneg).
  replace (if negb (isGrounded b) then 0.5 else 8.0)
    with (if isGrounded b then 8.0 else 0.5)
    by (destruct (isGrounded b); reflexivity).
  set (f := if isGrounded b then 8.0 else 0.5).
  destruct (Rgtb s 0) eqn:E; bool_to_prop.
  - cbn [velocity set_velocity]. unfold planarSpeed at 1.
    unfold multiplyScalar. cbn [vx vy vz].
    set (new := Rmax 0 (s - s * f * dt)).
    assert (Hn : 0 <= new) by (unfold new; apply Rmax_l).
    assert (Hk : 0 <= new / s).
    { apply Rmult_le_pos; [exact Hn|].
      apply Rlt_le, Rinv_0_lt_compat. exact E. }
    rewrite planarSpeed_scale by exact Hk. fold s. field. lra.
  - fold s. assert (s = 0) by lra.
    replace (s - s * f * dt) with 0 by nra.
    rewrite Rmax_left by lra. assumption.
Qed.

Lemma wishDir_idle (inputs : Input.InputState) :
  Input.forward inputs = false -> Input.backward inputs = false ->
  Input.left inputs = false -> Input.right inputs = false ->
  Player.wishDir inputs = vec3 0 0 0.
Proof.
  intros Hf Hb Hl Hr. unfold Player.wishDir. rewrite Hf, Hb, Hl, Hr.
  unfold lengthSq; simpl.
  replace (Rgtb _ 0) with false; [reflexivity|].
  symmetry. unfold Rgtb. apply Rltb_false. lra.
Qed.

(** X16: with no movement key held, the player on foot is slowed by
    friction alone: the speed over the ground after the update is
    [max(0, s - s * f * dt)] for the speed [s] before, with [f = 8] on the
    ground and [f = 0.5] in the air; for [dt >= 0] it never grows, and it
    never turns negative (the body stops instead of reversing). *)
Theorem player_idle_friction (dt : R) (inputs : Input.InputState)
    (p : Player.Player) :
  Player.isDriving p = false ->
  Input.forward inputs = false -> Input.backward inputs = false ->
  Input.left inputs = false -> Input.right inputs = false ->
  planarSpeed (velocity (Player.body (Player.update dt inputs p)))
  = Rmax 0 (planarSpeed (velocity (Player.body p))
            - planarSpeed (velocity (Player.body p))
              * (if isGrounded (Player.body p) then 8.0 else 0.5) * dt)
  /\ (0 <= dt ->
      planarSpeed (velocity (Player.body (Player.update dt inputs p)))
      <= planarSpeed (velocity (Player.body p))).
Proof.
  intros Hd Hf Hb Hl Hr.
  assert (E : planarSpeed
                (velocity (Player.body (Player.update dt inputs p)))
              = planarSpeed
                  (velocity (Player.applyFriction dt (Player.body p)))).
  { unfold Player.update. rewrite Hd. cbn [Player.body].
    unfold Player.accelerate. rewrite (wishDir_idle inputs Hf Hb Hl Hr).
    replace (Rgtb (lengthSq (vec3 0 0 0)) 0) with false
      by (symmetry; unfold Rgtb, lengthSq; simpl; apply Rltb_false; lra).
    unfold Player.applyJump. destruct (_ && _); reflexivity. }
  rewrite E, applyFriction_speed. split; [reflexivity|].
  intros Hdt.
  set (s := planarSpeed (velocity (Player.body p))).
  assert (Hs : 0 <= s) by (unfold s, planarSpeed; apply length_nonneg).
  assert (Hfr : 0 <= (if isGrounded (Player.body p) then 8.0 else 0.5))
    by (destruct (isGrounded (Player.body p)); lra).
  set (f := if isGrounded (Player.body p) then 8.0 else 0.5) in *.
  assert (0 <= s * f * dt) by (apply Rmult_le_pos; [nra|lra]).
  split_minmax; lra.
Qed.

(** X17: with a movement key held (a wish direction that is not zero), the
    acceleration of the player changes the speed along the wish direction
    by exactly [min(2 * deficit, acceleration * dt)] when the deficit to
    the target speed (8 running, 3.5 walking) is positive, and not at all
    otherwise; the acceleration is 40 on the ground and 5 in the air.  For
    [dt >= 0] the speed along the wish direction never drops and gains at
    most twice the deficit. *)
Theorem player_acceleration_gain (dt : R) (inputs : Input.InputState)
    (b : PhysicsBody) :
  0 < lengthSq (Player.wishDir inputs) ->
  dot (velocity (Player.accelerate dt inputs b)) (Player.wishDir inputs)
  = dot (velocity b) (Player.wishDir inputs)
    + (if Rltb (dot (velocity b) (Player.wishDir inputs))
               (if Input.run inputs then 8.0 else 3.5)
       then Rmin (((if Input.run inputs then 8.0 else 3.5)
                   - dot (velocity b) (Player.wishDir inputs)) * 2.0)
                 ((if isGrounded b then 40.0 else 5.0) * dt)
       else 0)
  /\ (0 <= dt ->
      dot (velocity b) (Player.wishDir inputs)
      <= dot (velocity (Player.accelerate dt inputs b))
             (Player.wishDir inputs)
      <= dot (velocity b) (Player.wishDir inputs)
         + 2 * Rmax 0 ((if Input.run inputs then 8.0 else 3.5)
                       - dot (velocity b) (Player.wishDir inputs))).
Proof.
  intros Hw. pose proof (wishDir_unit inputs Hw) as Hu.
  unfold Player.accelerate.
  set (w := Player.wishDir inputs) in *.
  set (target := if Input.run inputs then 8.0 else 3.5).
  replace (if negb (isGrounded b) then 5.0 else 40.0)
    with (if isGrounded b then 40.0 else 5.0)
    by (destruct (isGrounded b); reflexivity).
  assert (Ha : 0 <= (if isGrounded b then 40.0 else 5.0))
    by (destruct (isGrounded b); lra).
  set (a := if isGrounded b then 40.0 else 5.0) in *.
  set (cur := dot (velocity b) w).
  unfold Rgtb.
  replace (Rltb 0 (lengthSq w)) with true
    by (symmetry; now apply Rltb_true).
  destruct (Rltb 0 (target - cur)) eqn:E; bool_to_prop.
  - replace (Rltb cur target) with true
      by (symmetry; apply Rltb_true; lra).
    cbn [velocity set_velocity]. rewrite dot_addScaledVector, Hu.
    fold cur. split; [ring|].
    intros Hdt. assert (0 <= a * dt) by (apply Rmult_le_pos; lra).
    split_minmax; lra.
  - replace (Rltb cur target) with false
      by (symmetry; apply Rltb_false; lra).
    fold cur. split; [ring|].
    intros Hdt. split_minmax; lra.
Qed.

(** * Pedestrians *)

Lemma pickTarget_distance (r1 r2 : R) (p : Pedestrian.Pedestrian) :
  0 <= r2 ->
  planarDist (Pedestrian.targetPos (Pedestrian.pickTarget r1 r2 p))
             (position (Pedestrian.body p))
  = 10 + r2 * 20.
Proof.
  intros Hr. unfold Pedestrian.pickTarget, planarDist, Three.length.
  cbn [Pedestrian.targetPos Pedestrian.body vx vy vz].
  apply sqrt_of_square; [lra|].
  unfold lengthSq; simpl.
  pose proof (sin_cos_sq (r1 * PI * 2)) as Hs.
  set (a := r1 * PI * 2) in *. set (d := 10 + r2 * 20).
  set (x := vx (position (Pedestrian.body p))).
  set (z := vz (position (Pedestrian.body p))).
  replace ((x + cos a * d - x) * (x + cos a * d - x) + 0 * 0
           + (z + sin a * d - z) * (z + sin a * d - z))
    with (d * d * (sin a * sin a + cos a * cos a)) by ring.
  rewrite Hs. ring.
Qed.

(** X18: a pedestrian that is done waiting and has come within one unit of
    its target (horizontally) stops to wait between 2 and 5 seconds and
    picks a new target at the same height, between 10 and 30 units away
    over the ground; its body is not touched.  (The random numbers are in
    [0, 1).) *)
Theorem pedestrian_arrival (dt r0 r1 r2 : R) (p : Pedestrian.Pedestrian) :
  Pedestrian.waitTime p <= 0 ->
  Three.length (Pedestrian.toTarget p) < 1 ->
  0 <= r0 < 1 ->
  0 <= r2 < 1 ->
  2 <= Pedestrian.waitTime (Pedestrian.update dt r0 r1 r2 p) < 5
  /\ planarDist (Pedestrian.targetPos (Pedestrian.update dt r0 r1 r2 p))
                (position (Pedestrian.body p))
     = 10 + r2 * 20
  /\ 10 <= planarDist (Pedestrian.targetPos (Pedestrian.update dt r0 r1 r2 p))
                      (position (Pedestrian.body p)) < 30
  /\ vy (Pedestrian.targetPos (Pedestrian.update dt r0 r1 r2 p))
     = vy (position (Pedestrian.body p))
  /\ Pedestrian.body (Pedestrian.update dt r0 r1 r2 p) = Pedestrian.body p.
Proof.
  intros Hw Hd H0 H2. unfold Pedestrian.update, Rgtb.
  replace (Rltb 0 (Pedestrian.waitTime p)) with false
    by (symmetry; now apply Rltb_false).
  replace (Rltb (Three.length (Pedestrian.toTarget p)) 1.0) with true
    by (symmetry; apply Rltb_true; lra).
  cbn [Pedestrian.waitTime Pedestrian.targetPos Pedestrian.body
       Pedestrian.pickTarget].
  pose proof (pickTarget_distance r1 r2 p (proj1 H2)) as Hp.
  unfold Pedestrian.pickTarget in Hp.
  cbn [Pedestrian.targetPos Pedestrian.body] in Hp.
  rewrite Hp. repeat split; lra.
Qed.

Lemma planarSpeed_sq (v : Vector3) :
  planarSpeed v * planarSpeed v = vx v * vx v + vz v * vz v.
Proof.
  unfold planarSpeed. rewrite length_sqr. unfold lengthSq; simpl. ring.
Qed.

Lemma planarSpeed_le (v : Vector3) (w : R) :
  0 <= w -> vx v * vx v + vz v * vz v <= w * w -> planarSpeed v <= w.
Proof.
  intros Hw H. rewrite <- planarSpeed_sq in H.
  assert (0 <= planarSpeed v) by (unfold planarSpeed; apply length_nonneg).
  nra.
Qed.

(** X19: a walking pedestrian never exceeds its walk speed: when it is not
    waiting and is at least one unit from its target, an update with
    [0 <= dt <= 0.2] keeps a speed over the ground that was at most the
    walk speed at most the walk speed; the vertical velocity and the
    position of the body are left to the physics world. *)
Theorem pedestrian_walk_speed_bounded (dt r0 r1 r2 : R)
    (p : Pedestrian.Pedestrian) :
  Pedestrian.waitTime p <= 0 ->
  1 <= Three.length (Pedestrian.toTarget p) ->
  0 <= dt <= 0.2 ->
  0 <= Pedestrian.walkSpeed p ->
  planarSpeed (velocity (Pedestrian.body p)) <= Pedestrian.walkSpeed p ->
  planarSpeed (velocity (Pedestrian.body (Pedestrian.update dt r0 r1 r2 p)))
    <= Pedestrian.walkSpeed p
  /\ vy (velocity (Pedestrian.body (Pedestrian.update dt r0 r1 r2 p)))
     = vy (velocity (Pedestrian.body p))
  /\ position (Pedestrian.body (Pedestrian.update dt r0 r1 r2 p))
     = position (Pedestrian.body p).
Proof.
  intros Hw Hd Hdt HW Hv. unfold Pedestrian.update, Rgtb.
  replace (Rltb 0 (Pedestrian.waitTime p)) with false
    by (symmetry; now apply Rltb_false).
  replace (Rltb (Three.length (Pedestrian.toTarget p)) 1.0) with false
    by (symmetry; apply Rltb_false; lra).
  cbn [Pedestrian.body velocity position set_velocity vy].
  split; [|split; reflexivity].
  pose proof (normalize_unit (Pedestrian.toTarget p) ltac:(lra)) as Hu.
  assert (Hy : vy (normalize (Pedestrian.toTarget p)) = 0).
  { unfold Pedestrian.toTarget, set_y. apply normalize_flat_y. }
  unfold dot in Hu. rewrite Hy in Hu.
  set (n := normalize (Pedestrian.toTarget p)) in *.
  set (W := Pedestrian.walkSpeed p) in *.
  set (v := velocity (Pedestrian.body p)) in *.
  assert (Hs : vx v * vx v + vz v * vz v <= W * W).
  { rewrite <- planarSpeed_sq.
    assert (0 <= planarSpeed v) by (unfold planarSpeed; apply length_nonneg).
    nra. }
  apply planarSpeed_le; [exact HW|]. cbn [vx vz].
  set (k := 5 * dt).
  assert (Hk : 0 <= k <= 1) by (unfold k; lra).
  set (dx := vx n * W). set (dz := vz n * W).
  assert (Hdd : dx * dx + dz * dz = W * W) by (unfold dx, dz; nra).
  replace (vx v + (dx - vx v) * 5 * dt)
    with ((1 - k) * vx v + k * dx) by (unfold k; ring).
  replace (vz v + (dz - vz v) * 5 * dt)
    with ((1 - k) * vz v + k * dz) by (unfold k; ring).
  assert (Hcs : 2 * (vx v * dx + vz v * dz)
                <= (vx v * vx v + vz v * vz v) + (dx * dx + dz * dz)).
  { pose proof (Rle_0_sqr (vx v - dx)) as Q1.
    pose proof (Rle_0_sqr (vz v - dz)) as Q2.
    unfold Rsqr in Q1, Q2. clearbody dx dz. lra. }
  assert (Hexp : ((1 - k) * vx v + k * dx) * ((1 - k) * vx v + k * dx)
                 + ((1 - k) * vz v + k * dz) * ((1 - k) * vz v + k * dz)
                 = (1 - k) * (1 - k) * (vx v * vx v + vz v * vz v)
                   + k * (1 - k) * (2 * (vx v * dx + vz v * dz))
                   + k * k * (dx * dx + dz * dz)) by ring.
  rewrite Hexp, Hdd.
  set (S := vx v * vx v + vz v * vz v) in *.
  set (C := 2 * (vx v * dx + vz v * dz)) in *.
  rewrite Hdd in Hcs.
  assert (H1 : 0 <= (1 - k) * (1 - k)) by nra.
  assert (H2 : 0 <= k * (1 - k)) by nra.
  assert (H3 : (1 - k) * (1 - k) * S <= (1 - k) * (1 - k) * (W * W))
    by (apply Rmult_le_compat_l; assumption).
  assert (H4 : k * (1 - k) * C <= k * (1 - k) * (S + W * W))
    by (apply Rmult_le_compat_l; assumption).
  assert (H5 : k * (1 - k) * (S + W * W) <= k * (1 - k) * (2 * (W * W)))
    by (apply Rmult_le_compat_l; lra).
  nra.
Qed.

(** * The input manager *)

Lemma mapKeys_keeps_view (code : String.string) (value : bool)
    (s : Input.InputState) :
  Input.viewX (InputManager.mapKeys code value s) = Input.viewX s
  /\ Input.viewY (InputManager.mapKeys code value s) = Input.viewY s
  /\ Input.shoot (InputManager.mapKeys code value s) = Input.shoot s.
Proof.
  unfold InputManager.mapKeys. destruct_ifs; repeat split.
Qed.

Lemma mapKeys_keeps_triggers (code : String.string) (value : bool)
    (s : Input.InputState) :
  (Input.action s = true ->
   Input.action (InputManager.mapKeys code value s) = true)
  /\ (Input.camToggle s = true ->
      Input.camToggle (InputManager.mapKeys code value s) = true).
Proof.
  unfold InputManager.mapKeys. destruct_ifs; split; intros H; simpl; auto.
Qed.

Lemma viewLimit_pos : 0 < viewLimit.
Proof. unfold viewLimit. pose proof PI2_1. lra. Qed.

Lemma handle_view_bounded (m : InputManager.InputManager)
    (e : InputManager.Event) :
  - viewLimit <= Input.viewY (InputManager.state m) <= viewLimit ->
  - viewLimit
    <= Input.viewY (InputManager.state (InputManager.handle m e))
    <= viewLimit.
Proof.
  intros Hb. pose proof viewLimit_pos as Hl.
  destruct e as [code|code|dx dy|btn|btn|l]; simpl.
  - now rewrite (proj1 (proj2 (mapKeys_keeps_view code true _))).
  - now rewrite (proj1 (proj2 (mapKeys_keeps_view code false _))).
  - unfold InputManager.onMouseMove.
    destruct (negb (InputManager.isLocked m)); [exact Hb|].
    simpl. fold viewLimit. split_minmax; lra.
  - unfold InputManager.onMouseDown. destruct (_ && _); exact Hb.
  - unfold InputManager.onMouseUp. destruct (Z.eqb btn 0); exact Hb.
  - exact Hb.
Qed.

(** X20: the view pitch never leaves [-(PI/2 - 0.1), PI/2 - 0.1]: after any
    sequence of key, mouse and pointer-lock events, starting from the
    initial state of the manager, [viewY] is within the limit. *)
Theorem view_pitch_always_clamped (es : list InputManager.Event) :
  - viewLimit
    <= Input.viewY (InputManager.state
                      (InputManager.handleAll InputManager.initial es))
    <= viewLimit.
Proof.
  unfold InputManager.handleAll.
  apply (fold_left_invariant
           (fun m => - viewLimit
                     <= Input.viewY (InputManager.state m) <= viewLimit)).
  - intros m e Hm. now apply handle_view_bounded.
  - pose proof viewLimit_pos. simpl. lra.
Qed.

Lemma handle_keeps_triggers (m : InputManager.InputManager)
    (e : InputManager.Event) :
  (Input.action (InputManager.state m) = true ->
   Input.action (InputManager.state (InputManager.handle m e)) = true)
  /\ (Input.camToggle (InputManager.state m) = true ->
      Input.camToggle (InputManager.state (InputManager.handle m e)) = true).
Proof.
  destruct e as [code|code|dx dy|btn|btn|l]; simpl.
  - apply mapKeys_keeps_triggers.
  - apply mapKeys_keeps_triggers.
  - unfold InputManager.onMouseMove.
    destruct (negb (InputManager.isLocked m)); simpl; auto.
  - unfold InputManager.onMouseDown. destruct (_ && _); simpl; auto.
  - unfold InputManager.onMouseUp. destruct (Z.eqb btn 0); simpl; auto.
  - auto.
Qed.

(** X21: the action and camera-toggle triggers latch: once the E key (the V
    key) has gone down, [action] ([camToggle]) stays set through every
    later key, mouse and pointer-lock event, key releases included; no
    event handler clears them. *)
Theorem triggers_latch (m : InputManager.InputManager)
    (es : list InputManager.Event) :
  Input.action
    (InputManager.state
       (InputManager.handleAll (InputManager.onKeyDown InputManager.actionKey m) es)) = true
  /\ Input.camToggle
       (InputManager.state
          (InputManager.handleAll (InputManager.onKeyDown InputManager.camToggleKey m) es))
     = true.
Proof.
  unfold InputManager.handleAll. split.
  - apply (fold_left_invariant
             (fun a => Input.action (InputManager.state a) = true)).
    + intros a e Ha. now apply handle_keeps_triggers.
    + reflexivity.
  - apply (fold_left_invariant
             (fun a => Input.camToggle (InputManager.state a) = true)).
    + intros a e Ha. now apply handle_keeps_triggers.
    + reflexivity.
Qed.

Lemma handle_unlocked (m : InputManager.InputManager)
    (e : InputManager.Event) :
  InputManager.isLocked m = false ->
  e <> InputManager.PointerLockChange true ->
  InputManager.isLocked (InputManager.handle m e) = false
  /\ Input.viewX (InputManager.state (InputManager.handle m e))
     = Input.viewX (InputManager.state m)
  /\ Input.viewY (InputManager.state (InputManager.handle m e))
     = Input.viewY (InputManager.state m)
  /\ (Input.shoot (InputManager.state m) = false ->
      Input.shoot (InputManager.state (InputManager.handle m e)) = false).
Proof.
  intros Hl He.
  destruct e as [code|code|dx dy|btn|btn|l]; simpl.
  - destruct (mapKeys_keeps_view code true (InputManager.state m))
      as (H1 & H2 & H3).
    repeat split; congruence.
  - destruct (mapKeys_keeps_view code false (InputManager.state m))
      as (H1 & H2 & H3).
    repeat split; congruence.
  - unfold InputManager.onMouseMove. rewrite Hl. simpl. auto.
  - unfold InputManager.onMouseDown. rewrite Hl. simpl. auto.
  - unfold InputManager.onMouseUp. destruct (Z.eqb btn 0); simpl; auto.
  - destruct l; [now contradiction He | simpl; auto].
Qed.

(** X22: while the pointer is not locked, the mouse does nothing: from an
    unlocked manager, any sequence of events in which the lock is never
    granted leaves the view angles as they were, never sets [shoot], and
    leaves the manager unlocked. *)
Theorem unlocked_mouse_is_ignored (m : InputManager.InputManager)
    (es : list InputManager.Event) :
  InputManager.isLocked m = false ->
  neverLocks es ->
  InputManager.isLocked (InputManager.handleAll m es) = false
  /\ Input.viewX (InputManager.state (InputManager.handleAll m es))
     = Input.viewX (InputManager.state m)
  /\ Input.viewY (InputManager.state (InputManager.handleAll m es))
     = Input.viewY (InputManager.state m)
  /\ (Input.shoot (InputManager.state m) = false ->
      Input.shoot (InputManager.state (InputManager.handleAll m es))
      = false).
Proof.
  intros Hl Hn. unfold InputManager.handleAll. revert m Hl.
  induction Hn as [|e es He Hes IH]; intros m Hl; simpl.
  - auto.
  - destruct (handle_unlocked m e Hl He) as (L & X & Y & S).
    destruct (IH _ L) as (L' & X' & Y' & S').
    repeat split; try congruence. auto.
Qed.

(** * Entering a car *)

Section NearestCar.

Variable Car : Type.
Variable meshPosition : Car -> Vector3.
Variable playerPos : Vector3.

Lemma nearerCar_fold (cars : list Car) :
  forall (m : R) (o : option Car) (m' : R) (o' : option Car),
  fold_left (App.nearerCar Car meshPosition playerPos) cars (m, o) = (m', o') ->
  (forall c, In c cars -> m' <= distanceTo (meshPosition c) playerPos)
  /\ ((m' = m /\ o' = o
       /\ forall c, In c cars -> m <= distanceTo (meshPosition c) playerPos)
      \/ (exists c, o' = Some c /\ In c cars
                    /\ distanceTo (meshPosition c) playerPos = m'
                    /\ m' < m)).
Proof.
  induction cars as [|c cars IH]; intros m o m' o' H; simpl in H.
  - inversion H; subst. split; [intros c []|].
    left. repeat split. intros c [].
  - unfold App.nearerCar in H at 2. cbn [fst] in H.
    destruct (Rltb (distanceTo (meshPosition c) playerPos) m) eqn:E;
      bool_to_prop.
    + destruct (IH _ _ _ _ H) as [Hall Hor]. split.
      * intros c' [<-|Hin]; [|now apply Hall].
        destruct Hor as [(Hm & _)|(c1 & _ & _ & _ & Hlt)]; lra.
      * right. destruct Hor as [(Hm & Ho & _)|(c1 & Hs & Hin & Hd & Hlt)].
        -- exists c. subst m'. repeat split; auto. now left.
        -- exists c1. repeat split; auto; [now right | lra].
    + destruct (IH _ _ _ _ H) as [Hall Hor]. split.
      * intros c' [<-|Hin]; [|now apply Hall].
        destruct Hor as [(Hm & _)|(c1 & _ & _ & _ & Hlt)]; lra.
      * destruct Hor as [(Hm & Ho & Hge)|(c1 & Hs & Hin & Hd & Hlt)].
        -- left. repeat split; auto. intros c' [<-|Hin]; auto.
        -- right. exists c1. repeat split; auto. now right.
Qed.

(** X23: pressing the action key on foot picks the nearest car within
    reach: no car is picked exactly when every car is 5 units or more from
    the player; a car that is picked is one of the cars, is closer than 5
    units, and no car is closer. *)
Theorem nearest_car_is_nearest (cars : list Car) :
  (App.nearestCar Car meshPosition playerPos cars = None
   <-> forall c, In c cars -> 5 <= distanceTo (meshPosition c) playerPos)
  /\ (forall c,
      App.nearestCar Car meshPosition playerPos cars = Some c ->
      In c cars
      /\ distanceTo (meshPosition c) playerPos < 5
      /\ forall c', In c' cars ->
           distanceTo (meshPosition c) playerPos
           <= distanceTo (meshPosition c') playerPos).
Proof.
  unfold App.nearestCar.
  destruct (fold_left (App.nearerCar Car meshPosition playerPos) cars
                      (5, None)) as [m' o'] eqn:E.
  destruct (nearerCar_fold cars _ _ _ _ E) as [Hall Hor]. simpl.
  split; [split|].
  - intros Hn. destruct Hor as [(_ & _ & Hge)|(c & Hs & _)]; [exact Hge|].
    congruence.
  - intros Hge. destruct Hor as [(_ & Ho & _)|(c & Hs & Hin & Hd & Hlt)].
    + exact Ho.
    + specialize (Hge c Hin). lra.
  - intros c Hc. destruct Hor as [(_ & Ho & _)|(c1 & Hs & Hin & Hd & Hlt)].
    + congruence.
    + assert (c1 = c) by congruence. subst c1.
      split; [exact Hin|]. split; [lra|].
      intros c' Hin'. rewrite Hd. now apply Hall.
Qed.

End NearestCar.

(** * The shipped cars and the ground plane *)

(** X24: for each of the three shipped configurations the suspension is
    too short to reach the ground plane from an upright car: a car without
    pitch or roll whose centre is at or above its rest height (half its
    height, where the physics world keeps it on the ground plane) gets no
    wheel force, so [Car.update] only applies the drag, whatever the
    throttle, the brake and the steering. *)
Theorem shipped_cars_out_of_reach (dt : R) (inputs : InputState)
    (world : PhysicsWorld) (c : Car) :
  In (config c) shippedCars ->
  qx (rotation (body c)) = 0 ->
  qz (rotation (body c)) = 0 ->
  height (config c) / 2 <= vy (position (body c)) ->
  rayLength (config c) < height (config c) / 2 + wY
  /\ body (Vehicle.update dt inputs world c)
     = set_velocity (body c)
         (addScaledVector (velocity (body c)) (velocity (body c))
            (- drag (config c) * Three.length (velocity (body c)) * dt)).
Proof.
  intros Hin Hx Hz Hy.
  assert (Hr : rayLength (config c) < height (config c) / 2 + wY).
  { unfold shippedCars in Hin. simpl in Hin.
    destruct Hin as [<-|[<-|[<-|[]]]]; unfold rayLength, wY; simpl; lra. }
  split; [exact Hr|].
  apply update_out_of_reach; try assumption. lra.
Qed.

(** * The further properties at concrete inputs *)

(** The player through a sub-step next to the curb. *)
Lemma capsule_substep_above_floor_witness :
  mass playerBody <> 0
  /\ -20 <= vy (position playerBody)
  /\ ctype (collider playerBody) = capsule
  /\ capsuleHalfHeight playerBody
     <= vy (position (simulateBody 0.0125 [curb] playerBody)).
Proof.
  assert (Hm : mass playerBody <> 0) by (simpl; lra).
  assert (Hy : -20 <= vy (position playerBody)) by (simpl; lra).
  split; [exact Hm|]. split; [exact Hy|]. split; [reflexivity|].
  apply (capsule_substep_above_floor 0.0125 [curb] playerBody Hm Hy
           eq_refl).
Defined.

Lemma wallDiff_player_curb : wallDiff playerBody curb = vec3 (-0.2) 0 0.
Proof.
  unfold wallDiff, playerBody, curb; simpl.
  rewrite (Rmin_left 0 2) by lra. rewrite (Rmax_left 0.2 0) by lra.
  rewrite (Rmin_left 0 1) by lra. rewrite (Rmax_right (-1) 0) by lra.
  f_equal; lra.
Qed.

Lemma length_player_curb : Three.length (wallDiff playerBody curb) = 0.2.
Proof.
  rewrite wallDiff_player_curb. unfold Three.length, lengthSq; simpl.
  apply sqrt_of_square; lra.
Qed.

(** The player 0.2 from the side of the curb, pushed back to one radius. *)
Lemma wall_push_slides_witness :
  0 < Three.length (wallDiff playerBody curb) < 0.35
  /\ planarDist (position (capsuleWall 0.35 playerBody curb))
                (nearestFootprint playerBody curb) = 0.35.
Proof.
  assert (H : 0 < Three.length (wallDiff playerBody curb) < 0.35)
    by (rewrite length_player_curb; lra).
  split; [exact H|].
  apply (wall_push_slides 0.35 playerBody curb H).
Defined.

Lemma sedan_wall_overlap :
  getSize (intersect (boxBounds sedanBody) wallLeft) = vec3 0.3 1.4 1.8.
Proof.
  unfold getSize, isEmpty, intersect, boxBounds, setFromCenterAndSize,
    sedanBody, wallLeft, vmin, vmax, sub, add, multiplyScalar; simpl.
  repeat match goal with
  | |- context [Rmax ?a ?b] =>
      first [ rewrite (Rmax_left a b) by lra
            | rewrite (Rmax_right a b) by lra ]
  | |- context [Rmin ?a ?b] =>
      first [ rewrite (Rmin_left a b) by lra
            | rewrite (Rmin_right a b) by lra ]
  end.
  decide_cmp. simpl. f_equal; lra.
Qed.

Lemma sedan_wall_intersects :
  intersectsBox (boxBounds sedanBody) wallLeft = true.
Proof.
  unfold intersectsBox, boxBounds, setFromCenterAndSize, sedanBody,
    wallLeft, sub, add, multiplyScalar.
  eval_cmp. reflexivity.
Qed.

(** The sedan 0.3 into [wallLeft] from the right: moved 0.3 toward +x, to
    touch it. *)
Lemma box_side_push_witness :
  intersectsBox (boxBounds sedanBody) wallLeft = true
  /\ vx (bmax wallLeft) < vx (position sedanBody)
  /\ overlapX (boxBounds sedanBody) wallLeft = 0.3
  /\ vx (position (boxVsStatic (boxBounds sedanBody) sedanBody wallLeft))
     = vx (position sedanBody) + overlapX (boxBounds sedanBody) wallLeft
  /\ vx (bmin (boxBounds (boxVsStatic (boxBounds sedanBody) sedanBody
                            wallLeft)))
     = vx (bmax wallLeft).
Proof.
  assert (Hxz : vx (getSize (intersect (boxBounds sedanBody) wallLeft))
                < vz (getSize (intersect (boxBounds sedanBody) wallLeft)))
    by (rewrite sedan_wall_overlap; simpl; lra).
  assert (Hxy : vx (getSize (intersect (boxBounds sedanBody) wallLeft))
                < vy (getSize (intersect (boxBounds sedanBody) wallLeft)))
    by (rewrite sedan_wall_overlap; simpl; lra).
  assert (Hc : vx (bmax wallLeft) < vx (position sedanBody))
    by (simpl; lra).
  assert (Hm : vx (bmin wallLeft) <= vx (bmin (boxBounds sedanBody)))
    by (simpl; lra).
  assert (Ho : overlapX (boxBounds sedanBody) wallLeft = 0.3).
  { unfold overlapX, boxBounds, setFromCenterAndSize, sedanBody, wallLeft,
      sub, add, multiplyScalar; simpl.
    rewrite Rmin_right by lra. rewrite Rmax_left by lra. lra. }
  destruct (box_side_push sedanBody wallLeft sedan_wall_intersects Hxz Hxy)
    as (_ & Hp & _ & _ & _ & _ & _ & _ & Ht & _).
  split; [exact sedan_wall_intersects|]. split; [exact Hc|].
  split; [exact Ho|]. split; [exact (Hp Hc)|]. exact (Ht Hc Hm).
Defined.

Lemma sedan_crate_overlap :
  getSize (intersect (boxBounds sedanOnCrate) crate) = vec3 2 0.1 1.8.
Proof.
  unfold getSize, isEmpty, intersect, boxBounds, setFromCenterAndSize,
    sedanOnCrate, sedanBody, crate, vmin, vmax, sub, add, multiplyScalar;
    simpl.
  eval_minmax. decide_cmp. simpl. f_equal; lra.
Qed.

Lemma sedan_crate_intersects :
  intersectsBox (boxBounds sedanOnCrate) crate = true.
Proof.
  unfold intersectsBox, boxBounds, setFromCenterAndSize, sedanOnCrate,
    sedanBody, crate, sub, add, multiplyScalar.
  eval_cmp. reflexivity.
Qed.

(** The sedan sunk 0.1 into the top of the crate: put back on top. *)
Lemma box_lands_on_top_witness :
  intersectsBox (boxBounds sedanOnCrate) crate = true
  /\ vy (bmax crate) < vy (position sedanOnCrate)
  /\ vy (bmin (boxBounds (boxVsStatic (boxBounds sedanOnCrate) sedanOnCrate
                            crate)))
     = vy (bmax crate)
  /\ vy (velocity (boxVsStatic (boxBounds sedanOnCrate) sedanOnCrate crate))
     = 0.
Proof.
  assert (Hyx : vy (getSize (intersect (boxBounds sedanOnCrate) crate))
                <= vx (getSize (intersect (boxBounds sedanOnCrate) crate)))
    by (rewrite sedan_crate_overlap; simpl; lra).
  assert (Hyz : vy (getSize (intersect (boxBounds sedanOnCrate) crate))
                <= vz (getSize (intersect (boxBounds sedanOnCrate) crate)))
    by (rewrite sedan_crate_overlap; simpl; lra).
  assert (Hc : vy (bmax crate) < vy (position sedanOnCrate))
    by (simpl; lra).
  assert (Hm : vy (bmin crate) <= vy (bmin (boxBounds sedanOnCrate)))
    by (simpl; lra).
  assert (He : isEmpty crate = false)
    by (unfold isEmpty, crate; eval_cmp; reflexivity).
  assert (Sx : 0 <= vx (size sedanOnCrate)) by (simpl; lra).
  assert (Sy : 0 <= vy (size sedanOnCrate)) by (simpl; lra).
  assert (Sz : 0 <= vz (size sedanOnCrate)) by (simpl; lra).
  split; [exact sedan_crate_intersects|]. split; [exact Hc|].
  destruct (box_lands_on_top sedanOnCrate crate sedan_crate_intersects
              Sx Sy Sz He Hyx Hyz Hc Hm) as (H1 & H2 & _).
  split; [exact H1 | exact H2].
Defined.

(** A sedan with the wheel straight, through a frame of 0.05. *)
Lemma steering_stays_within_limit_witness :
  0 <= 0.05 <= 0.2
  /\ - (PI / 4) <= steeringAngle (newCar (vec3 5 0.7 (-20)) CAR_SEDAN)
     <= PI / 4
  /\ - (PI / 4)
     <= steeringAngle
          (Vehicle.update 0.05 noInputs emptyWorld
             (newCar (vec3 5 0.7 (-20)) CAR_SEDAN))
     <= PI / 4.
Proof.
  assert (Hdt : 0 <= 0.05 <= 0.2) by lra.
  assert (Hs : - (PI / 4) <= steeringAngle (newCar (vec3 5 0.7 (-20)) CAR_SEDAN)
               <= PI / 4)
    by (pose proof PI_RGT_0; simpl; lra).
  split; [exact Hdt|]. split; [exact Hs|].
  apply (steering_stays_within_limit 0.05 noInputs emptyWorld
           (newCar (vec3 5 0.7 (-20)) CAR_SEDAN) Hdt Hs).
Defined.

Lemma sedanLow_ray :
  raycast emptyWorld (mountWorld sedanLow rearLeftMount) (down sedanLow)
          (rayLength CAR_SEDAN)
  = Some (mkHit 0.7
            (addScaledVector (mountWorld sedanLow rearLeftMount)
                             (down sedanLow) 0.7)
            (vec3 0 1 0)).
Proof.
  assert (Hd : down sedanLow = vec3 0 (-1) 0).
  { apply down_is_world_down. split; reflexivity. }
  assert (Hy : vy (mountWorld sedanLow rearLeftMount) = 0.7).
  { rewrite mountWorld_height by reflexivity.
    unfold rearLeftMount, wY; simpl. lra. }
  rewrite raycast_eq. unfold groundParam. rewrite Hd, Hy. cbn [vy].
  replace (- (0.7) / -1) with 0.7 by lra.
  unfold rayLength; simpl. decide_cmp. reflexivity.
Qed.

(** The sedan held low and at rest: the rear left spring at 0.3 of its
    stiffness. *)
Lemma suspension_force_at_rest_witness :
  raycast emptyWorld (mountWorld sedanLow rearLeftMount) (down sedanLow)
          (rayLength CAR_SEDAN)
  = Some (mkHit 0.7
            (addScaledVector (mountWorld sedanLow rearLeftMount)
                             (down sedanLow) 0.7)
            (vec3 0 1 0))
  /\ suspensionForce CAR_SEDAN sedanLow rearLeftMount
       (mkHit 0.7
          (addScaledVector (mountWorld sedanLow rearLeftMount)
                           (down sedanLow) 0.7)
          (vec3 0 1 0))
     = suspensionStiffness CAR_SEDAN
       * Rmin 1 (1 - (0.7 - wheelRadius CAR_SEDAN)
                     / suspensionLength CAR_SEDAN).
Proof.
  split; [exact sedanLow_ray|].
  assert (HL : 0 < suspensionLength CAR_SEDAN) by (simpl; lra).
  assert (Hk : 0 <= suspensionStiffness CAR_SEDAN) by (simpl; lra).
  exact (proj1 (suspension_force_at_rest CAR_SEDAN emptyWorld sedanLow
                  rearLeftMount _ eq_refl eq_refl HL Hk sedanLow_ray)).
Defined.

(** The sedan standing on the ground plane, throttle or not. *)
Lemma car_out_of_reach_only_drag_witness :
  rayLength CAR_SEDAN < vy (position sedanBody) + wY
  /\ angularVelocity
       (body (Vehicle.update 0.05 noInputs emptyWorld
                (newCar (vec3 5 0.7 (-20)) CAR_SEDAN)))
     = vec3 0 0 0.
Proof.
  assert (H : rayLength CAR_SEDAN < vy (position sedanBody) + wY)
    by (unfold rayLength, wY; simpl; lra).
  split; [exact H|].
  apply (car_out_of_reach_only_drag 0.05 noInputs emptyWorld
           (newCar (vec3 5 0.7 (-20)) CAR_SEDAN) eq_refl eq_refl H).
Defined.

(** The truck on the ground plane with the engine on and the throttle
    down. *)
Lemma shipped_cars_out_of_reach_witness :
  In CAR_TRUCK shippedCars
  /\ rayLength CAR_TRUCK < height CAR_TRUCK / 2 + wY.
Proof.
  assert (Hin : In CAR_TRUCK shippedCars) by (right; left; reflexivity).
  split; [exact Hin|].
  apply (shipped_cars_out_of_reach 0.05
           (mkInputs true false false false false 0 0) emptyWorld
           (mkCar (body (newCar (vec3 0 1 0) CAR_TRUCK)) CAR_TRUCK true 0 0)
           Hin eq_refl eq_refl).
  simpl. lra.
Defined.

(** The occluder and the wall, in either order. *)
Lemma probe_order_independent_witness :
  Permutation.Permutation [occluder; wallBehind] [wallBehind; occluder]
  /\ collisionProbe (vec3 0 0 0) (vec3 0 0 6) [occluder; wallBehind]
     = collisionProbe (vec3 0 0 0) (vec3 0 0 6) [wallBehind; occluder].
Proof.
  assert (Hp : Permutation.Permutation [occluder; wallBehind]
                                       [wallBehind; occluder])
    by apply Permutation.perm_swap.
  split; [exact Hp|].
  apply (probe_order_independent (vec3 0 0 0) (vec3 0 0 6) _ _ Hp).
Defined.

(** The player on foot, jumping off the ground. *)
Lemma player_update_on_foot_witness :
  Player.isDriving playerOnFoot = false
  /\ vy (velocity (Player.body (Player.update 0.05 jumpInputs playerOnFoot)))
     = 8
  /\ isGrounded (Player.body (Player.update 0.05 jumpInputs playerOnFoot))
     = false.
Proof.
  split; [reflexivity|].
  destruct (player_update_on_foot 0.05 jumpInputs playerOnFoot eq_refl)
    as (_ & _ & _ & _ & Hv & Hg & _).
  split; [exact Hv | exact Hg].
Defined.

Lemma playerOnFoot_speed :
  planarSpeed (velocity (Player.body playerOnFoot)) = 5.
Proof.
  unfold planarSpeed, Three.length, lengthSq; simpl.
  apply sqrt_of_square; lra.
Qed.

(** The player running at 5 lets go of the keys: after a frame of 0.05 on
    the ground the speed is 3. *)
Lemma player_idle_friction_witness :
  Player.isDriving playerOnFoot = false
  /\ planarSpeed
       (velocity (Player.body (Player.update 0.05 jumpInputs playerOnFoot)))
     = 3.
Proof.
  split; [reflexivity|].
  destruct (player_idle_friction 0.05 jumpInputs playerOnFoot
              eq_refl eq_refl eq_refl eq_refl eq_refl) as [H _].
  rewrite H, playerOnFoot_speed. simpl.
  rewrite Rmax_right by lra. lra.
Defined.

Lemma forwardDir_zero : Player.forwardDir 0 = vec3 0 0 (-1).
Proof.
  unfold Player.forwardDir, Player.applyAxisAngle, setFromAxisAngle,
    applyQuaternion; simpl.
  replace (0 / 2) with 0 by lra. rewrite sin_0, cos_0.
  f_equal; lra.
Qed.

Lemma walkForward_wish : 0 < lengthSq (Player.wishDir walkForward).
Proof.
  unfold Player.wishDir, walkForward; simpl. rewrite forwardDir_zero.
  assert (E : add (vec3 0 0 0) (vec3 0 0 (-1)) = vec3 0 0 (-1))
    by (unfold add; simpl; f_equal; lra).
  rewrite E.
  assert (Hl : lengthSq (vec3 0 0 (-1)) = 1)
    by (unfold lengthSq; simpl; lra).
  rewrite Hl. unfold Rgtb.
  replace (Rltb 0 1) with true by (symmetry; apply Rltb_true; lra).
  assert (Hn : Three.length (vec3 0 0 (-1)) <> 0).
  { unfold Three.length. rewrite Hl, sqrt_1. lra. }
  pose proof (normalize_unit _ Hn) as Hu. unfold dot in Hu.
  unfold lengthSq. lra.
Qed.

(** The player at rest pressing forward. *)
Lemma player_acceleration_gain_witness :
  0 < lengthSq (Player.wishDir walkForward)
  /\ dot (velocity playerBody) (Player.wishDir walkForward)
     <= dot (velocity (Player.accelerate 0.05 walkForward playerBody))
            (Player.wishDir walkForward).
Proof.
  split; [exact walkForward_wish|].
  destruct (player_acceleration_gain 0.05 walkForward playerBody
              walkForward_wish) as [_ H].
  apply H. lra.
Defined.

Lemma pedestrianArrived_near :
  Three.length (Pedestrian.toTarget pedestrianArrived) < 1.
Proof.
  unfold Pedestrian.toTarget, pedestrianArrived, playerBody, Three.length,
    lengthSq, sub, set_y; simpl.
  replace (sqrt _) with 0; [lra|].
  symmetry. apply sqrt_of_square; lra.
Qed.

(** A pedestrian at its target. *)
Lemma pedestrian_arrival_witness :
  Pedestrian.waitTime pedestrianArrived <= 0
  /\ Three.length (Pedestrian.toTarget pedestrianArrived) < 1
  /\ 2 <= Pedestrian.waitTime
            (Pedestrian.update 0.05 0.5 0.25 0.5 pedestrianArrived) < 5.
Proof.
  assert (Hw : Pedestrian.waitTime pedestrianArrived <= 0) by (simpl; lra).
  split; [exact Hw|]. split; [exact pedestrianArrived_near|].
  apply (pedestrian_arrival 0.05 0.5 0.25 0.5 pedestrianArrived Hw
           pedestrianArrived_near); lra.
Defined.

Lemma pedestrianWalking_far :
  1 <= Three.length (Pedestrian.toTarget pedestrianWalking).
Proof.
  unfold Pedestrian.toTarget, pedestrianWalking, playerBody, Three.length,
    lengthSq, sub, set_y; simpl.
  replace (sqrt _) with 10; [lra|].
  symmetry. apply sqrt_of_square; lra.
Qed.

Lemma pedestrianWalking_slow :
  planarSpeed (velocity (Pedestrian.body pedestrianWalking))
    <= Pedestrian.walkSpeed pedestrianWalking.
Proof.
  unfold planarSpeed, Three.length, lengthSq; simpl.
  replace (sqrt _) with 0; [lra|].
  symmetry. apply sqrt_of_square; lra.
Qed.

(** A pedestrian setting off towards a target ten units away. *)
Lemma pedestrian_walk_speed_bounded_witness :
  Pedestrian.waitTime pedestrianWalking <= 0
  /\ 1 <= Three.length (Pedestrian.toTarget pedestrianWalking)
  /\ planarSpeed
       (velocity (Pedestrian.body
                    (Pedestrian.update 0.05 0.5 0.25 0.5 pedestrianWalking)))
     <= Pedestrian.walkSpeed pedestrianWalking.
Proof.
  assert (Hw : Pedestrian.waitTime pedestrianWalking <= 0) by (simpl; lra).
  assert (HW : 0 <= Pedestrian.walkSpeed pedestrianWalking) by (simpl; lra).
  split; [exact Hw|]. split; [exact pedestrianWalking_far|].
  apply (pedestrian_walk_speed_bounded 0.05 0.5 0.25 0.5 pedestrianWalking
           Hw pedestrianWalking_far ltac:(lra) HW pedestrianWalking_slow).
Defined.

(** Mouse moves and clicks before the pointer is locked. *)
Lemma unlocked_mouse_is_ignored_witness :
  InputManager.isLocked InputManager.initial = false
  /\ neverLocks [InputManager.MouseMove 40 (-25); InputManager.MouseDown 0;
                 InputManager.KeyDown InputManager.actionKey]
  /\ Input.viewX
       (InputManager.state
          (InputManager.handleAll InputManager.initial
             [InputManager.MouseMove 40 (-25); InputManager.MouseDown 0;
              InputManager.KeyDown InputManager.actionKey]))
     = Input.viewX (InputManager.state InputManager.initial).
Proof.
  assert (Hn : neverLocks [InputManager.MouseMove 40 (-25);
                           InputManager.MouseDown 0;
                           InputManager.KeyDown InputManager.actionKey]).
  { unfold neverLocks. repeat constructor; discriminate. }
  split; [reflexivity|]. split; [exact Hn|].
  apply (unlocked_mouse_is_ignored InputManager.initial _ eq_refl Hn).
Defined.
